(** * Nova Offline Backend ([server.py]): a shallow embedding and its properties

    The server glues three offline engines (an LM Studio chat backend, a
    faster-whisper transcriber and the Piper synthesizer) behind a few HTTP
    routes.  The handlers are embedded as functions in a small
    state-and-exception monad over a [world] (the file system, the supply of
    temporary names and the trace of effects); the process configuration
    and the engines are the records [config] and [runtime] that every
    handler takes.

    Conventions.
    - A Python [str] is the list of its code points ([list Z]); [len],
      slicing, [strip] and [splitlines] work on code points, as in Python.
    - [bytes] are [list byte].
    - [s.encode("utf-8")] is the UTF-8 encoder, which raises on a surrogate
      code point; a frame of the event stream is the bytes that
      [_sse_format] returns, and the consumer decodes them before it reads
      the lines. *)

From Stdlib Require Import ZArith List Lia Ascii String QArith DecimalString.
From Stdlib.Strings Require Byte.
From stdpp Require Import base gmap list strings.

Set Warnings "-register-all".
Local Open Scope nat_scope.

(* ===================================================================== *)
(** * Part I. Definitions                                                 *)
(* ===================================================================== *)

(** ** Python text and bytes *)

Abbreviation str := (list Z).
Abbreviation bytes := (list Byte.byte).

(** A literal: the code points of an ASCII string. *)
Definition py (s : string) : str :=
  map (fun a => Z.of_N (N_of_ascii a)) (list_ascii_of_string s).
Arguments py s%_string.

Definition str_eqb (a b : str) : bool := bool_decide (a = b).

(** [sep.join(parts)] *)
Fixpoint join (sep : str) (parts : list str) : str :=
  match parts with
  | [] => []
  | [p] => p
  | p :: rest => p ++ sep ++ join sep rest
  end.

(** [text[i:j]] for [0 <= i <= j]; Python clamps both ends to [len(text)]. *)
Definition slice {A} (text : list A) (i j : nat) : list A :=
  take (j - i) (drop i text).

(** [range(start, stop, step)] for a positive [step]: it has
    [ceil((stop - start) / step)] elements (none when [stop <= start]). *)
Definition range_len (start stop step : nat) : nat :=
  (stop - start + (step - 1)) / step.

Definition range (start stop step : nat) : list nat :=
  map (fun k => start + k * step) (seq 0 (range_len start stop step)).

(** The line boundaries of [str.splitlines]:
    LF, VT, FF, CR, FS, GS, RS, NEL, LS and PS (CR LF counts once). *)
Definition is_linebreak (c : Z) : bool :=
  ((c =? 10) || (c =? 11) || (c =? 12) || (c =? 13) || (c =? 28) || (c =? 29)
   || (c =? 30) || (c =? 133) || (c =? 8232) || (c =? 8233))%Z.

(** [data.splitlines()], with [cur] the line being scanned.  A boundary
    closes the current line (the boundary itself is dropped); text after
    the last boundary is a line only when it is not empty. *)
Fixpoint splitlines_from (cur : str) (s : str) : list str :=
  match s with
  | [] => match cur with [] => [] | _ => [cur] end
  | c :: rest =>
      if is_linebreak c then
        match rest with
        | c' :: rest' =>
            if ((c =? 13) && (c' =? 10))%Z
            then cur :: splitlines_from [] rest'
            else cur :: splitlines_from [] rest
        | [] => cur :: splitlines_from [] rest
        end
      else splitlines_from (cur ++ [c]) rest
  end.

Definition splitlines (s : str) : list str := splitlines_from [] s.

(** [str.isspace] on one code point: the Unicode white space that
    [str.strip()] removes. *)
Definition is_space (c : Z) : bool :=
  (((9 <=? c) && (c <=? 13)) || ((28 <=? c) && (c <=? 32)) || (c =? 133)
   || (c =? 160) || (c =? 5760) || ((8192 <=? c) && (c <=? 8202))
   || (c =? 8232) || (c =? 8233) || (c =? 8239) || (c =? 8287)
   || (c =? 12288))%Z.

Fixpoint lstrip (s : str) : str :=
  match s with
  | c :: rest => if is_space c then lstrip rest else s
  | [] => []
  end.

Definition rstrip (s : str) : str := rev (lstrip (rev s)).

(** [s.strip()] *)
Definition strip (s : str) : str := rstrip (lstrip s).

(** The one-character strings for a newline and for a double quote. *)
Definition LF : str := [10%Z].
Definition DQ : str := [34%Z].

(** [str(n)] for an integer. *)
Definition str_of_Z (n : Z) : str := py (NilEmpty.string_of_int (Z.to_int n)).

(** ** Exceptions *)

(** The exceptions the handlers can see.  [KeyError] carries the repr of the
    missing key, [CalledProcessError] the exit status and the command line;
    the engines' own failures carry their message. *)
Inductive exn :=
| HTTPException (status_code : Z) (detail : str)
| TransportError (msg : str)
| HTTPStatusError (status_code : Z)
| JSONDecodeError
| KeyError (key : str)
| IndexError
| TypeError
| AttributeError
| FileExistsError
| FileNotFoundError (path : str)
| CalledProcessError (returncode : Z) (cmd : list str)
| OSError (msg : str)
| UnicodeDecodeError
| UnicodeEncodeError
| ValueError (msg : str)
| EngineError (msg : str).

Inductive result (A : Type) :=
| Raise (e : exn)
| Ok (a : A).
Arguments Raise {A} e.
Arguments Ok {A} a.

(** ** UTF-8: [s.encode("utf-8")] and the decoder of the receiving side *)

Definition byte_of_Z (z : Z) : Byte.byte :=
  default Byte.x00 (Byte.of_N (Z.to_N z)).

Definition Z_of_byte (x : Byte.byte) : Z := Z.of_N (Byte.to_N x).

(** The bytes of one code point; none for a surrogate (U+D800..U+DFFF), which
    the encoder refuses, and none outside U+0000..U+10FFFF, where there is
    no code point. *)
Definition utf8_char (c : Z) : option bytes :=
  (if c <? 0 then None
   else if c <? 128 then Some [byte_of_Z c]
   else if c <? 2048 then
     Some [byte_of_Z (192 + c / 64); byte_of_Z (128 + c mod 64)]
   else if (55296 <=? c) && (c <=? 57343) then None
   else if c <? 65536 then
     Some [byte_of_Z (224 + c / 4096); byte_of_Z (128 + (c / 64) mod 64);
           byte_of_Z (128 + c mod 64)]
   else if c <? 1114112 then
     Some [byte_of_Z (240 + c / 262144); byte_of_Z (128 + (c / 4096) mod 64);
           byte_of_Z (128 + (c / 64) mod 64); byte_of_Z (128 + c mod 64)]
   else None)%Z.

(** [s.encode("utf-8")] *)
Fixpoint encode_utf8 (s : str) : result bytes :=
  match s with
  | [] => Ok []
  | c :: rest =>
      match utf8_char c, encode_utf8 rest with
      | Some b, Ok bs => Ok (b ++ bs)
      | _, _ => Raise UnicodeEncodeError
      end
  end.

(** The receiving side: a UTF-8 decoder that puts U+FFFD for a byte it cannot
    place. *)
Definition is_cont (x : Byte.byte) : bool :=
  ((128 <=? Z_of_byte x) && (Z_of_byte x <? 192))%Z.

Fixpoint decode_utf8 (b : bytes) : str :=
  match b with
  | [] => []
  | x :: rest =>
      let n := Z_of_byte x in
      if (n <? 128)%Z then n :: decode_utf8 rest
      else if ((192 <=? n) && (n <? 224))%Z then
        match rest with
        | y :: rest1 =>
            if is_cont y
            then ((n - 192) * 64 + (Z_of_byte y - 128))%Z :: decode_utf8 rest1
            else 65533%Z :: decode_utf8 rest
        | _ => 65533%Z :: decode_utf8 rest
        end
      else if ((224 <=? n) && (n <? 240))%Z then
        match rest with
        | y :: z :: rest2 =>
            if is_cont y && is_cont z
            then ((n - 224) * 4096 + (Z_of_byte y - 128) * 64
                  + (Z_of_byte z - 128))%Z :: decode_utf8 rest2
            else 65533%Z :: decode_utf8 rest
        | _ => 65533%Z :: decode_utf8 rest
        end
      else if ((240 <=? n) && (n <? 248))%Z then
        match rest with
        | y :: z :: u :: rest3 =>
            if is_cont y && is_cont z && is_cont u
            then ((n - 240) * 262144 + (Z_of_byte y - 128) * 4096
                  + (Z_of_byte z - 128) * 64 + (Z_of_byte u - 128))%Z
                 :: decode_utf8 rest3
            else 65533%Z :: decode_utf8 rest
        | _ => 65533%Z :: decode_utf8 rest
        end
      else 65533%Z :: decode_utf8 rest
  end.

(** A text that the encoder accepts, and its bytes. *)
Definition encodable (s : str) : bool :=
  forallb (fun c => bool_decide (is_Some (utf8_char c))) s.

Definition utf8 (s : str) : bytes :=
  match encode_utf8 s with Ok b => b | Raise _ => [] end.

(** ** Server-sent events *)

(** The text that [_sse_format(event, data)] builds,
    ["\n".join(out) + "\n"]. *)
Definition sse_text (event : option str) (data : str) : str :=
  let out := [] in
  let out :=
    match event with
    | Some ((_ :: _) as e) => out ++ [py "event: " ++ e]
    | _ => out
    end in
  let lines := match splitlines data with [] => [[]] | ls => ls end in
  let out := out ++ map (fun line => py "data: " ++ line) lines in
  let out := out ++ [[]] in
  join LF out ++ LF.

(** [_sse_format(event, data)]: that text, encoded. *)
Definition _sse_format (event : option str) (data : str) : result bytes :=
  encode_utf8 (sse_text event data).

(** The consumer's side of a frame, as the EventSource format reads the
    decoded text: lines end at LF, CR or CR LF; the lines before the first blank line make
    the event; a line [name: value] is a field (one space after the colon is
    dropped); the payload is the [data] values joined by newlines. *)
Fixpoint sse_lines_from (cur : str) (s : str) : list str :=
  match s with
  | [] => []
  | c :: rest =>
      if (c =? 10)%Z then cur :: sse_lines_from [] rest
      else if (c =? 13)%Z then
        match rest with
        | c' :: rest' =>
            if (c' =? 10)%Z
            then cur :: sse_lines_from [] rest'
            else cur :: sse_lines_from [] rest
        | [] => cur :: sse_lines_from [] rest
        end
      else sse_lines_from (cur ++ [c]) rest
  end.

Definition sse_lines (frame : str) : list str := sse_lines_from [] frame.

Fixpoint sse_block (lines : list str) : list str :=
  match lines with
  | [] => []
  | [] :: _ => []
  | l :: rest => l :: sse_block rest
  end.

Fixpoint strip_prefix (p s : str) : option str :=
  match p, s with
  | [], _ => Some s
  | a :: p', b :: s' => if (a =? b)%Z then strip_prefix p' s' else None
  | _ :: _, [] => None
  end.

Definition sse_field (name : str) (line : str) : option str :=
  match strip_prefix (name ++ py ":") line with
  | Some (32%Z :: value) => Some value
  | Some value => Some value
  | None => None
  end.

Definition sse_data (frame : str) : str :=
  join LF
       (omap (sse_field (py "data")) (sse_block (sse_lines frame))).

Definition sse_event (frame : str) : option str :=
  last (omap (sse_field (py "event")) (sse_block (sse_lines frame))).

(** ** JSON values and the world *)

(** A decoded JSON document; an object is the list of its members (keys are
    unique, as in the dict that [json.loads] builds). *)
Inductive json :=
| JNull
| JBool (b : bool)
| JNum (x : Q)
| JStr (s : str)
| JArr (items : list json)
| JObj (members : list (str * json)).

Fixpoint assoc (k : str) (members : list (str * json)) : option json :=
  match members with
  | [] => None
  | (k', v) :: rest => if str_eqb k k' then Some v else assoc k rest
  end.

(** [x[k]] for a string key [k]. *)
Definition getitem_key (x : json) (k : str) : result json :=
  match x with
  | JObj members =>
      match assoc k members with
      | Some v => Ok v
      | None => Raise (KeyError (py "'" ++ k ++ py "'"))
      end
  | _ => Raise TypeError
  end.

(** [x[0]] *)
Definition getitem_0 (x : json) : result json :=
  match x with
  | JArr (v :: _) => Ok v
  | JArr [] => Raise IndexError
  | JStr (c :: _) => Ok (JStr [c])
  | JStr [] => Raise IndexError
  | JObj _ => Raise (KeyError (py "0"))
  | _ => Raise TypeError
  end.

(** [x.strip()] *)
Definition strip_method (x : json) : result str :=
  match x with
  | JStr s => Ok (strip s)
  | _ => Raise AttributeError
  end.

Record message := { role : str; content : str }.

(** The JSON body of a chat-completion request. *)
Record chat_payload := {
  payload_model : str;
  messages : list message;
  temperature : Q;
  stream : bool
}.

(** What an HTTP call gives back: an exception, or a response with its
    status code and, when the body parses as JSON, the parsed body. *)
Inductive http_result :=
| HttpRaises (e : exn)
| HttpResponse (status_code : Z) (body : option json).

Record TranscriptionInfo := { info_language : str; info_duration : Q }.

(** [whisper.transcribe] either raises or returns the segments and the
    info.  The segments are a lazy generator: iterating it produces the
    texts in [seg_texts] and then, when [seg_failure] is set, raises. *)
Record segment_stream := { seg_texts : list str; seg_failure : option exn }.

Inductive transcription :=
| TranscribeRaises (e : exn)
| Transcribed (segments : segment_stream) (info : TranscriptionInfo).

(** [subprocess.run]: the process cannot be started, or it runs, leaves the
    file system in some state and exits with a return code. *)
Inductive process_result :=
| SpawnFails (e : exn)
| Exits (returncode : Z) (files_after : gmap str bytes).

(** The effects a handler performs, in the order it performs them. *)
Inductive action :=
| HttpGet (url : str) (timeout : Z)
| HttpPost (url : str) (payload : chat_payload) (timeout : Z)
| Transcribe (path : str) (language : str) (vad_filter : bool)
| RunProcess (argv : list str)
| MkTemp (path : str)
| WriteFile (path : str) (data : bytes)
| ReadFile (path : str)
| Unlink (path : str)
| Yield (frame : bytes).

Record world := {
  files : gmap str bytes;     (* the file system: path -> content *)
  names : list str;           (* the random names tempfile will draw *)
  trace : list action         (* the effects so far, oldest first *)
}.

(** Module-level configuration, read from the environment at start-up. *)
Record config := {
  LMSTUDIO_URL : str;
  LMSTUDIO_MODEL_DEFAULT : str;
  WHISPER_MODEL_NAME : str;
  WHISPER_COMPUTE_TYPE : str;
  PIPER_BIN : option str;     (* [shutil.which(...)]: [None] when not found *)
  PIPER_VOICE : str
}.

(** The engines and the runtime around the handlers.  An engine is a
    function of the arguments of the call: its value is the answer to the
    one call that a run makes with these arguments, and nothing is said
    about the answers to the calls of two different requests.
    [os_open_error] is what the operating system objects to when a file is
    created at a path that is not a file yet: a directory of the path that
    is missing, a name that is too long or cannot be encoded, an embedded
    NUL, a directory that cannot be written ([None] when the file can be
    created). *)
Record runtime := {
  httpx_get : str -> Z -> http_result;
  httpx_post : str -> chat_payload -> Z -> http_result;
  whisper_transcribe : str -> option bytes -> str -> bool -> transcription;
  subprocess_exec : list str -> gmap str bytes -> process_result;
  os_open_error : str -> gmap str bytes -> option exn;
  exn_str : exn -> str;       (* [str(e)] *)
  tempdir : str               (* [tempfile.gettempdir()] *)
}.

(** ** The monad of handlers: state and exceptions over the world *)

Definition M (A : Type) : Type := world -> result A * world.

Definition ret {A} (a : A) : M A := fun w => (Ok a, w).
Definition raise {A} (e : exn) : M A := fun w => (Raise e, w).
Definition bind {A B} (m : M A) (k : A -> M B) : M B :=
  fun w => match m w with
           | (Ok a, w') => k a w'
           | (Raise e, w') => (Raise e, w')
           end.
(** [try: m  except Exception as e: h e] *)
Definition try_except {A} (m : M A) (h : exn -> M A) : M A :=
  fun w => match m w with
           | (Ok a, w') => (Ok a, w')
           | (Raise e, w') => h e w'
           end.
Definition lift {A} (r : result A) : M A := fun w => (r, w).

Notation "x <- m ;; k" := (bind m (fun x => k))
  (at level 100, m at next level, right associativity).
Notation "m ;; k" := (bind m (fun _ => k))
  (at level 100, right associativity).

Definition log (a : action) : M unit :=
  fun w => (Ok tt, {| files := files w; names := names w; trace := trace w ++ [a] |}).

Definition set_files (fs : gmap str bytes) : M unit :=
  fun w => (Ok tt, {| files := fs; names := names w; trace := trace w |}).

Definition get_files : M (gmap str bytes) := fun w => (Ok (files w), w).

(** [for x in xs: body x] *)
Fixpoint for_each {A} (xs : list A) (body : A -> M unit) : M unit :=
  match xs with
  | [] => ret tt
  | x :: rest => body x ;; for_each rest body
  end.

(** Truthiness of a string and of an optional string. *)
Definition truthy (s : str) : bool := match s with [] => false | _ => true end.
Definition truthy_opt (o : option str) : bool :=
  match o with Some s => truthy s | None => false end.

(** ** Base64 (RFC 4648, standard alphabet, padded): [base64.b64encode] *)

Definition b64_alphabet : bytes :=
  list_byte_of_string
    "ABCDEFGHIJKLMNOPQRSTUVWXYZabcdefghijklmnopqrstuvwxyz0123456789+/".

Definition b64_char (sextet : N) : Byte.byte :=
  nth (N.to_nat sextet) b64_alphabet Byte.x00.

(** The four 6-bit groups of three bytes. *)
Definition b64_sextets (a b c : N) : list N :=
  [a / 4; (a mod 4) * 16 + b / 16; (b mod 16) * 4 + c / 64; c mod 64]%N.

Definition b64_pad : Byte.byte := Byte.x3d.

Fixpoint b64encode (data : bytes) : bytes :=
  match data with
  | [] => []
  | [a] =>
      take 2 (map b64_char (b64_sextets (Byte.to_N a) 0 0)) ++ [b64_pad; b64_pad]
  | [a; b] =>
      take 3 (map b64_char (b64_sextets (Byte.to_N a) (Byte.to_N b) 0))
      ++ [b64_pad]
  | a :: b :: c :: rest =>
      map b64_char (b64_sextets (Byte.to_N a) (Byte.to_N b) (Byte.to_N c))
      ++ b64encode rest
  end.

(** The text whose code points are the given bytes. *)
Definition ascii_str (b : bytes) : str := map (fun x => Z.of_N (Byte.to_N x)) b.

(** [b.decode("ascii")] *)
Definition decode_ascii (b : bytes) : result str :=
  if forallb (fun x => (Byte.to_N x <? 128)%N) b
  then Ok (ascii_str b)
  else Raise UnicodeDecodeError.

(** The receiving side: a strict RFC 4648 decoder.  It reads four characters
    at a time; padding is accepted in the last group only. *)
Definition b64_value (c : Z) : option N :=
  if ((65 <=? c) && (c <=? 90))%Z then Some (Z.to_N (c - 65))
  else if ((97 <=? c) && (c <=? 122))%Z then Some (Z.to_N (c - 71))
  else if ((48 <=? c) && (c <=? 57))%Z then Some (Z.to_N (c + 4))
  else if (c =? 43)%Z then Some 62%N
  else if (c =? 47)%Z then Some 63%N
  else None.

Definition bytes_of_N (ns : list N) : option bytes := mapM Byte.of_N ns.

Definition b64_group (c1 c2 c3 c4 : Z) (last : bool) : option bytes :=
  match b64_value c1, b64_value c2 with
  | Some s1, Some s2 =>
      if (c3 =? 61)%Z then
        if (c4 =? 61)%Z && last then bytes_of_N [s1 * 4 + s2 / 16]%N else None
      else
        match b64_value c3 with
        | Some s3 =>
            if (c4 =? 61)%Z then
              if last
              then bytes_of_N [s1 * 4 + s2 / 16; (s2 mod 16) * 16 + s3 / 4]%N
              else None
            else
              match b64_value c4 with
              | Some s4 =>
                  bytes_of_N [s1 * 4 + s2 / 16; (s2 mod 16) * 16 + s3 / 4;
                              (s3 mod 4) * 64 + s4]%N
              | None => None
              end
        | None => None
        end
  | _, _ => None
  end.

Fixpoint b64decode (s : str) : option bytes :=
  match s with
  | [] => Some []
  | c1 :: c2 :: c3 :: c4 :: rest =>
      match b64_group c1 c2 c3 c4 (bool_decide (rest = [])), b64decode rest with
      | Some head, Some tail => Some (head ++ tail)
      | _, _ => None
      end
  | _ => None
  end.

(** ** The requests' and responses' records *)

Record UploadFile := { filename : option str; upload : bytes }.

Record response := { status_code : Z; body : option json }.

Record lm_studio_report := {
  lm_url : str; lm_ok : bool; lm_note : str; lm_default_model : str
}.
Record whisper_report := {
  whisper_model : str; whisper_compute : str; whisper_ok : bool
}.
Record piper_report := { piper_bin : str; piper_voice : str; piper_ok : bool }.
Record health_report := {
  mode : str;
  lm_studio : lm_studio_report;
  whisper : whisper_report;
  piper : piper_report
}.

Record chat_response := { provider : str; model : str; text : str }.

Record stt_response := { stt_text : str; stt_language : str; stt_duration : Q }.

Record voice_chat_response := {
  vc_text : str; vc_mime : str; vc_audio_base64 : str; vc_prompt : str
}.

(** The generator [wav_iter] between two [next] calls: not started, inside
    the [with open(...)] block at an offset of the file it opened, or
    finished. *)
Inductive wav_iter_state :=
| WavNew
| WavOpen (data : bytes) (pos : nat)
| WavDone.

(** [StreamingResponse(wav_iter(), media_type=...)]: the generator, ready to
    be started, over the path it closes over. *)
Record wav_response := { wav_path : str; wav_state : wav_iter_state; media_type : str }.

(** [StreamingResponse(gen(), media_type=...)]: the generator as the body of
    the response. *)
Record sse_response := { sse_body : M unit; sse_media_type : str }.

(** ['{"status":"v"}'] *)
Definition status_json (v : str) : str :=
  py "{" ++ DQ ++ py "status" ++ DQ ++ py ":" ++ DQ ++ v ++ DQ ++ py "}".

(** ** The handlers *)

Section Server.
Context (cfg : config) (rt : runtime).

(** *** The file system and the engines, as effects *)

(** [os.path.exists(p)] *)
Definition path_exists (p : str) : M bool :=
  fun w => (Ok (bool_decide (is_Some (files w !! p))), w).

(** [os.open(file, O_RDWR | O_CREAT | O_EXCL)]: the error it raises, if
    any. *)
Definition os_open_excl (file : str) (fs : gmap str bytes) : option exn :=
  match fs !! file with
  | Some _ => Some FileExistsError
  | None => os_open_error rt file fs
  end.

(** [tempfile._mkstemp_inner]: the search for an unused name
    [dir/tmp<name><suffix>].  The candidates are tried in turn; one that
    exists is skipped, any other error of [os.open] ends the search and is
    raised; when no candidate is left, [FileExistsError] is raised.  The
    result comes with the candidates that were not drawn. *)
Fixpoint mkstemp_inner (candidates : list str) (fs : gmap str bytes)
         (suffix : str) : result str * list str :=
  match candidates with
  | [] => (Raise FileExistsError, [])
  | name :: rest =>
      let file := tempdir rt ++ py "/" ++ py "tmp" ++ name ++ suffix in
      match os_open_excl file fs with
      | None => (Ok file, rest)
      | Some FileExistsError => mkstemp_inner rest fs suffix
      | Some e => (Raise e, rest)
      end
  end.

(** [NamedTemporaryFile(suffix=suffix, delete=False)]: creates the (empty)
    file and gives its name. *)
Definition NamedTemporaryFile (suffix : option str) : M str :=
  fun w =>
    match mkstemp_inner (names w) (files w) (default [] suffix) with
    | (Raise e, rest) =>
        (Raise e, {| files := files w; names := rest; trace := trace w |})
    | (Ok file, rest) =>
        (Ok file,
         {| files := <[file := []]> (files w); names := rest;
            trace := trace w ++ [MkTemp file] |})
    end.

(** [tmp.write(data)], flushed when the [with] block closes the file. *)
Definition write_file (path : str) (data : bytes) : M unit :=
  fs <- get_files ;;
  set_files (<[path := data]> fs) ;;
  log (WriteFile path data).

(** [open(path, "rb").read()] *)
Definition read_file (path : str) : M bytes :=
  log (ReadFile path) ;;
  fs <- get_files ;;
  match fs !! path with
  | Some data => ret data
  | None => raise (FileNotFoundError path)
  end.

(** [os.unlink(path)] *)
Definition unlink (path : str) : M unit :=
  log (Unlink path) ;;
  fs <- get_files ;;
  match fs !! path with
  | Some _ => set_files (delete path fs)
  | None => raise (FileNotFoundError path)
  end.

Definition get (url : str) (timeout : Z) : M response :=
  log (HttpGet url timeout) ;;
  match httpx_get rt url timeout with
  | HttpRaises e => raise e
  | HttpResponse st b => ret {| status_code := st; body := b |}
  end.

Definition post (url : str) (payload : chat_payload) (timeout : Z) : M response :=
  log (HttpPost url payload timeout) ;;
  match httpx_post rt url payload timeout with
  | HttpRaises e => raise e
  | HttpResponse st b => ret {| status_code := st; body := b |}
  end.

(** [r.raise_for_status()]: anything but a 2xx status raises. *)
Definition raise_for_status (r : response) : M unit :=
  if ((200 <=? status_code r) && (status_code r <=? 299))%Z
  then ret tt
  else raise (HTTPStatusError (status_code r)).

(** [r.json()] *)
Definition response_json (r : response) : M json :=
  match body r with
  | Some data => ret data
  | None => raise JSONDecodeError
  end.

(** [whisper.transcribe(path, language=language, vad_filter=vad_filter)] *)
Definition transcribe (path language : str) (vad_filter : bool)
  : M (segment_stream * TranscriptionInfo) :=
  log (Transcribe path language vad_filter) ;;
  fs <- get_files ;;
  match whisper_transcribe rt path (fs !! path) language vad_filter with
  | TranscribeRaises e => raise e
  | Transcribed segments info => ret (segments, info)
  end.

(** [str.join] over [seg.text for seg in segments], with the empty
    separator: runs the lazy generator. *)
Definition join_segments (segments : segment_stream) : M str :=
  match seg_failure segments with
  | Some e => raise e
  | None => ret (join [] (seg_texts segments))
  end.

(** [subprocess.run(argv, check=True)] *)
Definition subprocess_run (argv : list str) : M unit :=
  log (RunProcess argv) ;;
  fs <- get_files ;;
  match subprocess_exec rt argv fs with
  | SpawnFails e => raise e
  | Exits returncode fs' =>
      set_files fs' ;;
      if (returncode =? 0)%Z then ret tt
      else raise (CalledProcessError returncode argv)
  end.

(** [yield e]: the operand is evaluated, which can raise, and its value is
    handed to the consumer. *)
Definition yield (frame : result bytes) : M unit :=
  f <- lift frame ;; log (Yield f).

(** [bool(PIPER_BIN) and bool(PIPER_VOICE) and os.path.exists(PIPER_VOICE)],
    the test that [/health], [/tts] and [/voice-chat] each spell out. *)
Definition piper_configured : M bool :=
  if truthy_opt (PIPER_BIN cfg) && truthy (PIPER_VOICE cfg)
  then path_exists (PIPER_VOICE cfg)
  else ret false.

(** The body of the [try] block that [/chat], [gen] and [/voice-chat] each
    spell out: one completion request and the text of its first choice. *)
Definition lm_completion (prompt model : str) : M str :=
  let payload :=
    {| payload_model := model;
       messages := [ {| role := py "user"; content := prompt |} ];
       temperature := 2 # 10;
       stream := false |} in
  r <- post (LMSTUDIO_URL cfg ++ py "/v1/chat/completions") payload 120 ;;
  raise_for_status r ;;
  data <- response_json r ;;
  choices <- lift (getitem_key data (py "choices")) ;;
  choice <- lift (getitem_0 choices) ;;
  msg <- lift (getitem_key choice (py "message")) ;;
  c <- lift (getitem_key msg (py "content")) ;;
  lift (strip_method c).

(** *** [GET /health] *)
Definition health : M health_report :=
  lm <- try_except
          (r <- get (LMSTUDIO_URL cfg ++ py "/v1/models") 3 ;;
           let lm_ok := (status_code r =? 200)%Z in
           let lm_msg :=
             if lm_ok then py "ok" else py "HTTP " ++ str_of_Z (status_code r) in
           ret (lm_ok, lm_msg))
          (fun e => ret (false, py "error: " ++ exn_str rt e)) ;;
  piper_ok <- piper_configured ;;
  let whisper_ok := true in
  ret {| mode := py "offline";
         lm_studio := {| lm_url := LMSTUDIO_URL cfg; lm_ok := fst lm;
                         lm_note := snd lm;
                         lm_default_model := LMSTUDIO_MODEL_DEFAULT cfg |};
         whisper := {| whisper_model := WHISPER_MODEL_NAME cfg;
                       whisper_compute := WHISPER_COMPUTE_TYPE cfg;
                       whisper_ok := whisper_ok |};
         piper := {| piper_bin := default [] (PIPER_BIN cfg);
                     piper_voice := PIPER_VOICE cfg;
                     piper_ok := piper_ok |} |}.

(** *** [POST /chat] *)
Definition chat (prompt model : str) : M chat_response :=
  try_except
    (text <- lm_completion prompt model ;;
     ret {| provider := py "lmstudio"; model := model; text := text |})
    (fun e => raise (HTTPException 500 (py "LM Studio error: " ++ exn_str rt e))).

(** *** [GET /chat_stream]: the generator [gen], run to its end *)
Definition gen (prompt model : str) : M unit :=
  yield (_sse_format (Some (py "start")) (status_json (py "starting"))) ;;
  r <- try_except
         (text <- lm_completion prompt model ;; ret (Some text))
         (fun e =>
            yield (_sse_format (Some (py "error"))
                     (py "{" ++ DQ ++ py "message" ++ DQ ++ py ": " ++ DQ
                      ++ py "LM Studio error: " ++ exn_str rt e ++ DQ ++ py "}")) ;;
            yield (_sse_format (Some (py "end")) (status_json (py "error"))) ;;
            ret None) ;;
  match r with
  | None => ret tt
  | Some text =>
      let CHUNK := 40 in
      for_each (range 0 (length text) CHUNK)
        (fun i =>
           let piece := slice text i (i + CHUNK) in
           yield (_sse_format (Some (py "token")) piece)) ;;
      yield (_sse_format (Some (py "done")) (status_json (py "ok"))) ;;
      yield (_sse_format (Some (py "end")) (status_json (py "complete")))
  end.

Definition chat_stream (prompt model : str) : sse_response :=
  {| sse_body := gen prompt model; sse_media_type := py "text/event-stream" |}.

(** *** [POST /stt] *)
Definition stt (file : UploadFile) (language : str) : M stt_response :=
  path <- (tmp <- NamedTemporaryFile (filename file) ;;
           let raw := upload file in
           write_file tmp raw ;;
           ret tmp) ;;
  t <- transcribe path language true ;;
  unlink path ;;
  joined <- join_segments (fst t) ;;
  ret {| stt_text := strip joined;
         stt_language := info_language (snd t);
         stt_duration := info_duration (snd t) |}.

(** *** [POST /tts] *)

(** One [next] on [wav_iter]: the first one opens the file; each one reads
    up to 8192 bytes and yields them, or, at the end of the file, leaves
    the [with] block, unlinks the file and stops ([None]). *)
Definition wav_iter_next (wav_path : str) (st : wav_iter_state)
  : M (option bytes * wav_iter_state) :=
  let read_step (data : bytes) (pos : nat) :=
    log (ReadFile wav_path) ;;
    let chunk := take 8192 (drop pos data) in
    match chunk with
    | [] => unlink wav_path ;; ret (None, WavDone)
    | _ => ret (Some chunk, WavOpen data (pos + length chunk))
    end in
  match st with
  | WavNew =>
      fs <- get_files ;;
      match fs !! wav_path with
      | Some data => read_step data 0
      | None => raise (FileNotFoundError wav_path)
      end
  | WavOpen data pos => read_step data pos
  | WavDone => ret (None, WavDone)
  end.

Definition tts (text : str) : M wav_response :=
  ready <- piper_configured ;;
  if negb ready then
    raise (HTTPException 501
             (py "Piper TTS not configured. Set PIPER_BIN and PIPER_VOICE."))
  else
    wav_path <- NamedTemporaryFile (Some (py ".wav")) ;;
    try_except
      (subprocess_run [default [] (PIPER_BIN cfg); py "-m"; PIPER_VOICE cfg;
                       py "-f"; wav_path; py "-t"; text])
      (fun e =>
         match e with
         | CalledProcessError _ _ =>
             raise (HTTPException 500 (py "Piper failed: " ++ exn_str rt e))
         | _ => raise e
         end) ;;
    ret {| wav_path := wav_path; wav_state := WavNew;
           media_type := py "audio/wav" |}.

(** *** [POST /voice-chat] *)

(** [JSONResponse(content)]: the body is rendered when the response is
    built, [json.dumps(content, ensure_ascii=False, ...).encode("utf-8")],
    which raises when a string of the content cannot be encoded.  The
    response is kept as its content. *)
Definition JSONResponse (content : voice_chat_response) : M voice_chat_response :=
  if encodable (vc_text content) && encodable (vc_mime content)
     && encodable (vc_audio_base64 content) && encodable (vc_prompt content)
  then ret content
  else raise UnicodeEncodeError.

Definition voice_chat (file : UploadFile) (model language : str)
  : M voice_chat_response :=
  apath <- (tmp <- NamedTemporaryFile (filename file) ;;
            let raw := upload file in
            write_file tmp raw ;;
            ret tmp) ;;
  t <- transcribe apath language true ;;
  unlink apath ;;
  joined <- join_segments (fst t) ;;
  let user_text := strip joined in
  reply <- try_except
             (lm_completion user_text model)
             (fun e =>
                raise (HTTPException 500
                         (py "LM Studio error: " ++ exn_str rt e))) ;;
  ready <- piper_configured ;;
  if negb ready then
    raise (HTTPException 501 (py "Piper TTS not configured for /voice-chat."))
  else
    wav_path <- NamedTemporaryFile (Some (py ".wav")) ;;
    b64 <- try_except
             (subprocess_run [default [] (PIPER_BIN cfg); py "-m";
                              PIPER_VOICE cfg; py "-f"; wav_path;
                              py "-t"; reply] ;;
              data <- read_file wav_path ;;
              b64 <- lift (decode_ascii (b64encode data)) ;;
              unlink wav_path ;;
              ret b64)
             (fun e =>
                raise (HTTPException 500
                         (py "Piper TTS error: " ++ exn_str rt e))) ;;
    JSONResponse {| vc_text := reply; vc_mime := py "audio/wav";
                    vc_audio_base64 := b64; vc_prompt := user_text |}.

End Server.

(** ** Vocabulary of the properties *)

(** The world after some more effects. *)
Definition add_trace (w : world) (acts : list action) : world :=
  {| files := files w; names := names w; trace := trace w ++ acts |}.

(** The frames a generator yielded, read off a trace. *)
Definition emitted (tr : list action) : list bytes :=
  omap (fun a => match a with Yield f => Some f | _ => None end) tr.

(** The frames that the body of a [/chat_stream] response sends when it is
    run from world [w]. *)
Definition stream_frames (cfg : config) (rt : runtime) (prompt model : str)
           (w : world) : list bytes :=
  emitted (drop (length (trace w))
                (trace (snd (sse_body (chat_stream cfg rt prompt model) w)))).

(** The consumer's reading of one frame as it arrives: the bytes are
    decoded, then read as an event. *)
Definition frame_event (frame : bytes) : option str :=
  sse_event (decode_utf8 frame).

Definition frame_data (frame : bytes) : str := sse_data (decode_utf8 frame).

(** The consumer's view of a stream: the event names, and the payloads of
    the [token] events. *)
Definition event_names (frames : list bytes) : list (option str) :=
  map frame_event frames.

Definition is_token (frame : bytes) : bool :=
  bool_decide (frame_event frame = Some (py "token")).

Definition token_payloads (frames : list bytes) : list str :=
  map frame_data (List.filter is_token frames).

(** The pieces [text[i : i + n]] for [i] in [range(0, len(text), n)]. *)
Definition chunks_of {A} (n : nat) (text : list A) : list (list A) :=
  map (fun i => slice text i (i + n)) (range 0 (length text) n).

Definition pieces (text : str) : list str := chunks_of 40 text.

(** The request that [lm_completion] posts, and what it makes of the
    backend's answer. *)
Definition completion_url (cfg : config) : str :=
  LMSTUDIO_URL cfg ++ py "/v1/chat/completions".

Definition completion_payload (prompt model : str) : chat_payload :=
  {| payload_model := model;
     messages := [ {| role := py "user"; content := prompt |} ];
     temperature := 2 # 10;
     stream := false |}.

(** [data["choices"][0]["message"]["content"]], when it is there and is a
    string. *)
Definition first_choice_content (data : json) : option str :=
  match data with
  | JObj top =>
      match assoc (py "choices") top with
      | Some (JArr (JObj choice :: _)) =>
          match assoc (py "message") choice with
          | Some (JObj msg) =>
              match assoc (py "content") msg with
              | Some (JStr s) => Some s
              | _ => None
              end
          | _ => None
          end
      | _ => None
      end
  | _ => None
  end.

(** The reply of the backend to a prompt: the trimmed content of the first
    choice of a 2xx JSON answer. *)
Definition backend_reply (cfg : config) (rt : runtime) (prompt model : str)
  : option str :=
  match httpx_post rt (completion_url cfg) (completion_payload prompt model) 120 with
  | HttpResponse st (Some data) =>
      if ((200 <=? st) && (st <=? 299))%Z
      then option_map strip (first_choice_content data)
      else None
  | _ => None
  end.

(** A text whose only line boundaries are LF. *)
Definition only_lf_breaks (s : str) : bool :=
  forallb (fun c => negb (is_linebreak c) || (c =? 10)%Z) s.

Definition ends_with_lf (s : str) : bool :=
  match last s with Some c => (c =? 10)%Z | None => false end.

(** A text free of line boundaries. *)
Definition no_breaks (s : str) : bool :=
  forallb (fun c => negb (is_linebreak c)) s.

(** A text free of CR and LF. *)
Definition no_crlf (s : str) : bool :=
  forallb (fun c => negb ((c =? 10) || (c =? 13))%Z) s.

(** What [lm_completion] makes of the backend's answer: the exception of the
    first step that fails, or the trimmed text. *)
Definition completion_of (r : http_result) : result str :=
  match r with
  | HttpRaises e => Raise e
  | HttpResponse st b =>
      if ((200 <=? st) && (st <=? 299))%Z then
        match b with
        | None => Raise JSONDecodeError
        | Some data =>
            match getitem_key data (py "choices") with
            | Raise e => Raise e
            | Ok choices =>
                match getitem_0 choices with
                | Raise e => Raise e
                | Ok choice =>
                    match getitem_key choice (py "message") with
                    | Raise e => Raise e
                    | Ok msg =>
                        match getitem_key msg (py "content") with
                        | Raise e => Raise e
                        | Ok c => strip_method c
                        end
                    end
                end
            end
        end
      else Raise (HTTPStatusError st)
  end.

(** The errors of the look-ups [data["choices"][0]["message"]["content"]]
    and of [.strip()]. *)
Definition lookup_error (e : exn) : Prop :=
  match e with
  | KeyError _ | IndexError | TypeError | AttributeError => True
  | _ => False
  end.

(** The JSON text of the [error] event. *)
Definition error_json (msg : str) : str :=
  py "{" ++ DQ ++ py "message" ++ DQ ++ py ": " ++ DQ
  ++ py "LM Studio error: " ++ msg ++ DQ ++ py "}".

(** The frames of [gen], by name: the bytes of the text of each. *)
Definition start_frame : bytes :=
  utf8 (sse_text (Some (py "start")) (status_json (py "starting"))).
Definition error_frame (rt : runtime) (e : exn) : bytes :=
  utf8 (sse_text (Some (py "error")) (error_json (exn_str rt e))).
Definition token_frame (piece : str) : bytes :=
  utf8 (sse_text (Some (py "token")) piece).
Definition done_frame : bytes :=
  utf8 (sse_text (Some (py "done")) (status_json (py "ok"))).
Definition end_frame (status : str) : bytes :=
  utf8 (sse_text (Some (py "end")) (status_json status)).

(** Yielding frames one after the other: the run stops at the first frame
    that cannot be made, with its exception. *)
Fixpoint yield_all (frames : list (result bytes)) : result unit * list action :=
  match frames with
  | [] => (Ok tt, [])
  | Ok f :: rest => (fst (yield_all rest), Yield f :: snd (yield_all rest))
  | Raise e :: _ => (Raise e, [])
  end.

(** The frames that [gen] goes on to make once the backend has answered. *)
Definition gen_frames (cfg : config) (rt : runtime) (prompt model : str)
  : list (result bytes) :=
  match completion_of (httpx_post rt (completion_url cfg)
                         (completion_payload prompt model) 120) with
  | Raise e =>
      [_sse_format (Some (py "error")) (error_json (exn_str rt e));
       _sse_format (Some (py "end")) (status_json (py "error"))]
  | Ok text =>
      map (fun piece => _sse_format (Some (py "token")) piece) (pieces text)
      ++ [_sse_format (Some (py "done")) (status_json (py "ok"));
          _sse_format (Some (py "end")) (status_json (py "complete"))]
  end.

(** The text that [gen] has to send once the backend has answered, the
    reply or the message of the error, can be encoded. *)
Definition reply_encodable (cfg : config) (rt : runtime) (prompt model : str)
  : bool :=
  match completion_of (httpx_post rt (completion_url cfg)
                         (completion_payload prompt model) 120) with
  | Raise e => encodable (exn_str rt e)
  | Ok text => encodable text
  end.

(** The effects of one run of [gen], given the backend's answer. *)
Definition gen_effects (cfg : config) (rt : runtime) (prompt model : str)
  : list action :=
  Yield start_frame
  :: HttpPost (completion_url cfg) (completion_payload prompt model) 120
  :: snd (yield_all (gen_frames cfg rt prompt model)).

(** The consumer of [wav_iter]: up to [k] calls of [next], stopping at the
    first one that finds the generator exhausted; it gives the chunks it
    received and the state of the generator. *)
Fixpoint consume (wav_path : str) (k : nat) (st : wav_iter_state)
  : M (list bytes * wav_iter_state) :=
  match k with
  | 0 => ret ([], st)
  | S k' =>
      r <- wav_iter_next wav_path st ;;
      match fst r with
      | None => ret ([], snd r)
      | Some chunk =>
          r' <- consume wav_path k' (snd r) ;;
          ret (chunk :: fst r', snd r')
      end
  end.

(** The readiness test of [piper_configured], on a file system. *)
Definition piper_ready (cfg : config) (fs : gmap str bytes) : bool :=
  truthy_opt (PIPER_BIN cfg) && truthy (PIPER_VOICE cfg)
  && bool_decide (is_Some (fs !! PIPER_VOICE cfg)).

(** The command line that [/tts] and [/voice-chat] run. *)
Definition piper_argv (cfg : config) (wav_path text : str) : list str :=
  [default [] (PIPER_BIN cfg); py "-m"; PIPER_VOICE cfg; py "-f"; wav_path;
   py "-t"; text].

(** The calls to the engines among the effects of a handler that started in
    world [w] and ended in world [w']. *)
Definition is_engine_call (a : action) : bool :=
  match a with
  | HttpGet _ _ | HttpPost _ _ _ | Transcribe _ _ _ | RunProcess _ => true
  | _ => false
  end.

Definition engine_calls (w w' : world) : list action :=
  List.filter is_engine_call (drop (length (trace w)) (trace w')).

(** The effects of a handler that started in [w] and ended in [w']. *)
Definition effects (w w' : world) : list action :=
  drop (length (trace w)) (trace w').

(** A 6-bit value whose character is ASCII, is not the padding character
    and is read back as the same value. *)
Definition sextet_ok (n : N) : bool :=
  match b64_value (Z.of_N (Byte.to_N (b64_char n))) with
  | Some m => (m =? n)%N
  | None => false
  end
  && negb (Z.of_N (Byte.to_N (b64_char n)) =? 61)%Z
  && (Byte.to_N (b64_char n) <? 128)%N.

(** ** Vocabulary of the further properties *)

(** The lines that [_sse_format] makes of [data]: those of
    [data.splitlines()], or one empty line. *)
Definition data_lines (data : str) : list str :=
  match splitlines data with [] => [[]] | ls => ls end.

(** The [event:] line of a frame, when the event name is truthy. *)
Definition event_lines (event : option str) : list str :=
  match event with
  | Some ((_ :: _) as e) => [py "event: " ++ e]
  | _ => []
  end.

(** An event name that can stand on a line. *)
Definition event_ok (event : option str) : bool :=
  match event with Some e => no_crlf e | None => true end.

(** The consumer's reading of a whole stream of text: the lines are cut into events
    at the blank lines (lines after the last blank line are an unfinished
    event and are dropped); an event without a [data] field is not
    dispatched; the others give their name and their payload. *)
Fixpoint sse_blocks_from (cur : list str) (lines : list str) : list (list str) :=
  match lines with
  | [] => []
  | [] :: rest => cur :: sse_blocks_from [] rest
  | l :: rest => sse_blocks_from (cur ++ [l]) rest
  end.

Definition sse_dispatch (block : list str) : option (option str * str) :=
  match omap (sse_field (py "data")) block with
  | [] => None
  | values => Some (last (omap (sse_field (py "event")) block), join LF values)
  end.

Definition sse_events (stream : str) : list (option str * str) :=
  omap sse_dispatch (sse_blocks_from [] (sse_lines stream)).

(** The consumer's reading of the bytes of a whole stream. *)
Definition stream_events (stream : bytes) : list (option str * str) :=
  sse_events (decode_utf8 stream).

(** The text of a frame that [_sse_format] makes with a usable event name,
    and the bytes of such a frame. *)
Definition well_framed (frame : str) : Prop :=
  exists ev data, ev <> [] /\ no_crlf ev = true /\ frame = sse_text (Some ev) data.

Definition well_framed_bytes (frame : bytes) : Prop :=
  exists t, well_framed t /\ encodable t = true /\ frame = utf8 t.

Definition is_yield (a : action) : bool :=
  match a with Yield _ => true | _ => false end.

(** A character of the base64 alphabet, or the padding character. *)
Definition is_b64_byte (x : Byte.byte) : bool :=
  existsb (fun y => (Byte.to_N x =? Byte.to_N y)%N) (b64_pad :: b64_alphabet).

(** The temporary files that a run creates, and the files it unlinks, in
    order. *)
Definition created (acts : list action) : list str :=
  omap (fun a => match a with MkTemp p => Some p | _ => None end) acts.

Definition unlinked (acts : list action) : list str :=
  omap (fun a => match a with Unlink p => Some p | _ => None end) acts.

(** ** A sample deployment, for the examples *)

Definition sample_cfg (bin : option str) (voice : str) : config :=
  {| LMSTUDIO_URL := py "http://127.0.0.1:1234";
     LMSTUDIO_MODEL_DEFAULT := py "default";
     WHISPER_MODEL_NAME := py "base";
     WHISPER_COMPUTE_TYPE := py "auto";
     PIPER_BIN := bin;
     PIPER_VOICE := voice |}.

(** A chat-completion answer whose first choice has the given content. *)
Definition reply_body (c : str) : json :=
  JObj [ (py "object", JStr (py "chat.completion"));
         (py "choices",
          JArr [ JObj [ (py "index", JNum 0);
                        (py "message",
                         JObj [ (py "role", JStr (py "assistant"));
                                (py "content", JStr c) ]) ] ]) ].

(** [repr] of a list of plain strings (printable ASCII without quote or
    backslash, the only ones the examples use): each between single quotes. *)
Definition repr_list (l : list str) : str :=
  py "[" ++ join (py ", ") (map (fun x => py "'" ++ x ++ py "'") l) ++ py "]".

(** [str(e)] for the exceptions of the examples. *)
Definition sample_str (e : exn) : str :=
  match e with
  | HTTPException _ detail => detail
  | TransportError msg => msg
  | OSError msg => msg
  | EngineError msg => msg
  | CalledProcessError returncode cmd =>
      py "Command '" ++ repr_list cmd ++ py "' returned non-zero exit status "
      ++ str_of_Z returncode ++ py "."
  | _ => py "error"
  end.

(** A temporary directory without subdirectories: a name with a further
    [/] names a file in a directory that is not there, and a name with a
    NUL is refused. *)
Definition sample_open_error (file : str) (fs : gmap str bytes) : option exn :=
  if existsb (Z.eqb 0) file then Some (ValueError (py "embedded null byte"))
  else if existsb (Z.eqb 47) (drop 5 file) then Some (FileNotFoundError file)
  else None.

Definition sample_rt (answer : http_result) (heard : transcription)
           (synth : list str -> gmap str bytes -> process_result) : runtime :=
  {| httpx_get := fun _ _ => answer;
     httpx_post := fun _ _ _ => answer;
     whisper_transcribe := fun _ _ _ _ => heard;
     subprocess_exec := synth;
     os_open_error := sample_open_error;
     exn_str := sample_str;
     tempdir := py "/tmp" |}.

(** A synthesizer that writes the given WAV bytes to the path after [-f]. *)
Definition piper_writes (wav : bytes) (argv : list str) (fs : gmap str bytes)
  : process_result :=
  Exits 0 (<[nth 4 argv [] := wav]> fs).

Definition heard_text (t : str) : transcription :=
  Transcribed {| seg_texts := [t]; seg_failure := None |}
              {| info_language := py "en"; info_duration := 3 # 2 |}.

Definition sample_world (fs : gmap str bytes) : world :=
  {| files := fs; names := [py "k3x9ab12"; py "q7w1zz00"]; trace := [] |}.

Definition hello_reply : str := py "Hi there, how can I help you today?".

(** A reply of three lines, one of them blank. *)
Definition steps_reply : str :=
  py "Sure:" ++ LF ++ py "1. stage the upload" ++ LF ++ LF ++ py "2. transcribe it".

(** A reply of 41 characters whose last is a lone surrogate (the JSON escape
    \ud83d on its own). *)
Definition surrogate_reply : str := repeat 97%Z 40 ++ [55357%Z].

(** A reply of 41 characters whose 40th is a newline. *)
Definition boundary_reply : str := repeat 97%Z 39 ++ LF ++ py "b".

(** Engines whose chat backend answers 200 with the given content, whose
    transcriber hears " Hello " and whose synthesizer writes four bytes. *)
Definition answering (c : str) : runtime :=
  sample_rt (HttpResponse 200 (Some (reply_body c)))
            (heard_text (py " Hello "))
            (piper_writes [Byte.x52; Byte.x49; Byte.x46; Byte.x46]).

(** Engines whose chat backend cannot be reached. *)
Definition unreachable : runtime :=
  sample_rt (HttpRaises (TransportError (py "All connection attempts failed")))
            (heard_text (py " Hello "))
            (piper_writes [Byte.x52; Byte.x49; Byte.x46; Byte.x46]).

Definition voice_path : str := py "/voices/en_US.onnx".

(** Piper installed and its voice file on disk. *)
Definition cfg_piper : config := sample_cfg (Some (py "/usr/bin/piper")) voice_path.
Definition world_piper : world := sample_world {[ voice_path := [Byte.x01] ]}.

(** Piper not installed. *)
Definition cfg_bare : config := sample_cfg None [].
Definition world_bare : world := sample_world ∅.

(** Engines whose transcriber rejects the audio. *)
Definition deaf : runtime :=
  sample_rt (HttpResponse 200 (Some (reply_body hello_reply)))
            (TranscribeRaises (EngineError (py "Invalid data found when processing input")))
            (piper_writes [Byte.x52; Byte.x49; Byte.x46; Byte.x46]).

Definition clip : UploadFile :=
  {| filename := Some (py "clip.webm"); upload := [Byte.x1a; Byte.x45; Byte.xdf] |}.

(** An upload whose file name names a directory. *)
Definition clip_in_directory : UploadFile :=
  {| filename := Some (py "up/clip.webm");
     upload := [Byte.x1a; Byte.x45; Byte.xdf] |}.

(** The world once the file at [p] has been removed by someone else. *)
Definition without_file (p : str) (w : world) : world :=
  {| files := delete p (files w); names := names w; trace := trace w |}.

(** A synthesizer that cannot be started. *)
Definition piper_missing (argv : list str) (fs : gmap str bytes) : process_result :=
  SpawnFails (FileNotFoundError (py "/usr/bin/piper")).

(** A synthesizer that exits with status 2 and writes nothing. *)
Definition piper_exits_2 (argv : list str) (fs : gmap str bytes) : process_result :=
  Exits 2 fs.

Definition with_synth (synth : list str -> gmap str bytes -> process_result)
  : runtime :=
  sample_rt (HttpResponse 200 (Some (reply_body hello_reply)))
            (heard_text (py " Hello ")) synth.

(* ===================================================================== *)
(** * Part II. Properties                                                 *)
(* ===================================================================== *)

(** ** Trimming *)

Lemma lstrip_spec (s : str) :
  exists l, s = l ++ lstrip s /\ forallb is_space l = true
            /\ match lstrip s with c :: _ => is_space c = false | [] => True end.
Proof.
  induction s as [|c s (l & Hs & Hl & Hhead)].
  - exists []. repeat split.
  - cbn [lstrip]. destruct (is_space c) eqn:Hc.
    + exists (c :: l). cbn [app forallb]. rewrite Hc, Hl.
      split; [f_equal; exact Hs|]. split; [reflexivity | exact Hhead].
    + exists []. split; [reflexivity|]. split; [reflexivity | exact Hc].
Qed.

(** [strip] removes a run of white space at each end, and what is left
    neither starts nor ends with white space. *)
Lemma strip_spec (s : str) :
  exists l r,
    s = l ++ strip s ++ r
    /\ forallb is_space l = true /\ forallb is_space r = true
    /\ match strip s with c :: _ => is_space c = false | [] => True end
    /\ match last (strip s) with Some c => is_space c = false | None => True end.
Proof.
  unfold strip, rstrip.
  destruct (lstrip_spec s) as (l & Hs & Hl & Hhead).
  destruct (lstrip_spec (rev (lstrip s))) as (r & Hr & Hrs & Hlast).
  set (t := lstrip (rev (lstrip s))) in *.
  assert (Hmid : lstrip s = rev t ++ rev r).
  { rewrite <- rev_app_distr, <- Hr, rev_involutive. reflexivity. }
  exists l, (rev r). split; [rewrite <- Hmid; exact Hs|].
  split; [exact Hl|]. split.
  { rewrite forallb_forall in *. intros c Hc. apply Hrs, in_rev, Hc. }
  split.
  - destruct (rev t) as [|c u] eqn:Hu; [exact I|].
    rewrite Hmid in Hhead. exact Hhead.
  - destruct t as [|c t']; [exact I|].
    cbn [rev]. rewrite last_snoc. exact Hlast.
Qed.

(** ** Slicing a text into pieces *)

Section Chunks.
Context {A : Type}.
Variable n : nat.
Hypothesis n_pos : 0 < n.

Lemma range_len_0 (L : nat) : L = 0 -> range_len 0 L n = 0.
Proof.
  intros ->. unfold range_len. simpl. apply Nat.div_small. lia.
Qed.

Lemma range_len_S (L : nat) :
  0 < L -> range_len 0 L n = S (range_len 0 (L - n) n).
Proof.
  intros HL. unfold range_len. rewrite !Nat.sub_0_r.
  destruct (le_lt_dec n L) as [Hle|Hlt].
  - replace (L + (n - 1)) with ((L - n + (n - 1)) + 1 * n) by lia.
    rewrite Nat.div_add by lia. lia.
  - replace (L - n) with 0 by lia. simpl.
    rewrite (Nat.div_small (n - 1)) by lia.
    replace (L + (n - 1)) with ((L - 1) + 1 * n) by lia.
    rewrite Nat.div_add by lia. rewrite Nat.div_small by lia. reflexivity.
Qed.

Lemma chunks_of_nil : chunks_of n (@nil A) = [].
Proof.
  unfold chunks_of, range. rewrite range_len_0 by reflexivity. reflexivity.
Qed.

Lemma chunks_of_cons (text : list A) :
  text <> [] ->
  chunks_of n text = take n text :: chunks_of n (drop n text).
Proof.
  intros Hne. unfold chunks_of, range.
  assert (0 < length text) by (destruct text; simpl; [congruence|lia]).
  rewrite range_len_S by assumption.
  rewrite length_drop. simpl seq. rewrite <- seq_shift.
  rewrite map_map. simpl. f_equal.
  - unfold slice. rewrite drop_0. f_equal. lia.
  - rewrite !map_map. apply map_ext. intros k. unfold slice.
    rewrite drop_drop.
    replace (k * n + n - k * n) with n by lia.
    replace (S k * n + n - S k * n) with n by lia.
    reflexivity.
Qed.

(** Strong induction along the pieces. *)
Lemma chunks_ind (P : list A -> Prop) :
  P [] ->
  (forall text, text <> [] -> P (drop n text) -> P text) ->
  forall text, P text.
Proof.
  intros Hnil Hstep text.
  remember (length text) as m eqn:Hm.
  revert text Hm. induction m as [m IH] using lt_wf_ind.
  intros text Hm. destruct text as [|c rest].
  - exact Hnil.
  - apply Hstep; [congruence|].
    apply (IH (length (drop n (c :: rest)))); [|reflexivity].
    rewrite length_drop. subst m. simpl. lia.
Qed.

Lemma chunks_of_concat (text : list A) : concat (chunks_of n text) = text.
Proof.
  induction text as [|text Hne IH] using chunks_ind.
  - rewrite chunks_of_nil. reflexivity.
  - rewrite chunks_of_cons by assumption. simpl. rewrite IH.
    apply take_drop.
Qed.

Lemma chunks_of_length (text : list A) :
  length (chunks_of n text) = (length text + (n - 1)) / n.
Proof.
  unfold chunks_of, range. rewrite !length_map, length_seq.
  unfold range_len. rewrite Nat.sub_0_r. reflexivity.
Qed.

(** Every piece is non-empty and has at most [n] characters; every piece
    but the last has exactly [n]. *)
Lemma chunks_of_sizes (text : list A) (i : nat) (p : list A) :
  chunks_of n text !! i = Some p ->
  0 < length p <= n /\ (S i < length (chunks_of n text) -> length p = n).
Proof.
  revert i p. induction text as [|text Hne IH] using chunks_ind; intros i p.
  - rewrite chunks_of_nil. intros H. discriminate.
  - rewrite chunks_of_cons by assumption. destruct i as [|i]; simpl.
    + intros [= <-]. rewrite length_take.
      assert (0 < length text) by (destruct text; simpl; [congruence|lia]).
      split; [lia|]. intros Hlt.
      destruct (decide (drop n text = [])) as [Hd|Hd].
      * rewrite Hd, chunks_of_nil in Hlt. simpl in Hlt. lia.
      * assert (0 < length (drop n text))
          by (destruct (drop n text); simpl; [congruence|lia]).
        rewrite length_drop in *. lia.
    + intros Hp. destruct (IH _ _ Hp) as [Hsz Hfull]. split; [exact Hsz|].
      intros Hlt. apply Hfull. lia.
Qed.

(** The number of pieces is the ceiling of [len(text) / n]. *)
Lemma chunks_of_count_ceil (text : list A) :
  let k := length (chunks_of n text) in
  length text <= k * n < length text + n.
Proof.
  simpl. rewrite chunks_of_length.
  pose proof (Nat.div_mod_eq (length text + (n - 1)) n) as Hd.
  pose proof (Nat.mod_upper_bound (length text + (n - 1)) n ltac:(lia)) as Hm.
  nia.
Qed.
End Chunks.

(** ** Lines: [splitlines] and the consumer's line reader *)

(** Induction that looks two characters ahead, as both line readers do. *)
Lemma list_pair_ind {A} (P : list A -> Prop) :
  P [] ->
  (forall a, P [a]) ->
  (forall a b l, P l -> P (b :: l) -> P (a :: b :: l)) ->
  forall l, P l.
Proof.
  intros Hnil Hone Hstep l.
  assert (H : P l /\ forall a, P (a :: l)).
  { induction l as [|b l [IH1 IH2]].
    - split; [exact Hnil | exact Hone].
    - split; [apply IH2 |]. intros a. apply Hstep; [exact IH1 | apply IH2]. }
  exact (proj1 H).
Qed.

Lemma no_breaks_snoc (cur : str) (c : Z) :
  no_breaks cur = true -> is_linebreak c = false -> no_breaks (cur ++ [c]) = true.
Proof.
  intros Hcur Hc. unfold no_breaks in *. rewrite forallb_app, Hcur. simpl.
  rewrite Hc. reflexivity.
Qed.

Lemma no_breaks_no_crlf (s : str) : no_breaks s = true -> no_crlf s = true.
Proof.
  unfold no_breaks, no_crlf. rewrite !forallb_forall. intros H c Hc.
  specialize (H c Hc). unfold is_linebreak in H.
  destruct (c =? 10)%Z, (c =? 13)%Z; simpl in *;
    rewrite ?orb_true_r in H; simpl in H; congruence.
Qed.

(** No line that [splitlines] returns contains a line boundary. *)
Lemma splitlines_from_no_breaks (s cur : str) :
  no_breaks cur = true ->
  Forall (fun l => no_breaks l = true) (splitlines_from cur s).
Proof.
  revert cur. induction s as [|a|a b l IHl IHbl] using list_pair_ind; intros cur Hcur.
  - simpl. destruct cur; constructor; [assumption | constructor].
  - simpl. destruct (is_linebreak a) eqn:Ha.
    + constructor; [assumption | constructor].
    + simpl. pose proof (no_breaks_snoc _ _ Hcur Ha) as Hs.
      destruct (cur ++ [a]) eqn:E; [constructor|].
      constructor; [assumption | constructor].
  - cbn [splitlines_from]. destruct (is_linebreak a) eqn:Ha.
    + destruct ((a =? 13)%Z && (b =? 10)%Z).
      * constructor; [assumption | apply IHl; reflexivity].
      * constructor; [assumption | apply IHbl; reflexivity].
    + apply IHbl. apply no_breaks_snoc; assumption.
Qed.

Lemma splitlines_no_breaks (s : str) :
  Forall (fun l => no_breaks l = true) (splitlines s).
Proof. apply splitlines_from_no_breaks. reflexivity. Qed.

(** [splitlines] returns no line only for the empty text. *)
Lemma splitlines_from_nonempty (s cur : str) :
  cur <> [] \/ s <> [] -> splitlines_from cur s <> [].
Proof.
  revert cur. induction s as [|c rest IH]; intros cur [H|H].
  - simpl. destruct cur; congruence.
  - congruence.
  - simpl. destruct (is_linebreak c).
    + destruct rest as [|c' rest']; [discriminate|].
      destruct ((c =? 13)%Z && (c' =? 10)%Z); discriminate.
    + apply IH. left. destruct cur; discriminate.
  - simpl. destruct (is_linebreak c).
    + destruct rest as [|c' rest']; [discriminate|].
      destruct ((c =? 13)%Z && (c' =? 10)%Z); discriminate.
    + apply IH. left. destruct cur; discriminate.
Qed.

(** The consumer reads a line free of CR and LF back as it was sent. *)
Lemma sse_lines_from_line (l cur rest : str) :
  no_crlf l = true ->
  sse_lines_from cur (l ++ 10%Z :: rest) = (cur ++ l) :: sse_lines_from [] rest.
Proof.
  revert cur. induction l as [|c l IH]; intros cur Hl.
  - simpl. rewrite app_nil_r. reflexivity.
  - simpl in Hl. apply andb_true_iff in Hl as [Hc Hl].
    apply negb_true_iff, orb_false_iff in Hc as [Hc10 Hc13].
    simpl. rewrite Hc10, Hc13. rewrite IH by assumption.
    rewrite <- app_assoc. reflexivity.
Qed.

Lemma sse_lines_join (l : str) (ls : list str) :
  Forall (fun x => no_crlf x = true) (l :: ls) ->
  sse_lines (join LF (l :: ls) ++ LF) = l :: ls.
Proof.
  unfold sse_lines. revert l. induction ls as [|l' ls IH]; intros l Hall.
  - simpl. inversion Hall; subst. unfold LF.
    rewrite sse_lines_from_line by assumption. reflexivity.
  - inversion Hall; subst.
    change (join LF (l :: l' :: ls)) with (l ++ LF ++ join LF (l' :: ls)).
    unfold LF at 1. rewrite <- !app_assoc. simpl app at 2.
    rewrite sse_lines_from_line by assumption. simpl. f_equal.
    apply IH. assumption.
Qed.

(** ** Frames: what the consumer reads back *)

Lemma sse_block_stop (ls rest : list str) :
  Forall (fun l => l <> []) ls -> sse_block (ls ++ [] :: rest) = ls.
Proof.
  induction ls as [|l ls IH]; intros Hall.
  - reflexivity.
  - inversion Hall; subst. destruct l as [|c l]; [congruence|].
    simpl. f_equal. apply IH. assumption.
Qed.

Lemma omap_step {A B} (f : A -> option B) (x : A) (l : list A) :
  omap f (x :: l) =
  match f x with Some y => y :: omap f l | None => omap f l end.
Proof. reflexivity. Qed.

Lemma omap_data_lines (lines : list str) :
  omap (sse_field (py "data")) (map (fun line => py "data: " ++ line) lines) = lines.
Proof.
  induction lines as [|l ls IH]; [reflexivity|].
  rewrite map_cons, omap_step, IH. reflexivity.
Qed.

Lemma omap_event_lines (lines : list str) :
  omap (sse_field (py "event")) (map (fun line => py "data: " ++ line) lines) = [].
Proof.
  induction lines as [|l ls IH]; [reflexivity|].
  rewrite map_cons, omap_step, IH. reflexivity.
Qed.

Lemma no_crlf_app (a b : str) :
  no_crlf a = true -> no_crlf b = true -> no_crlf (a ++ b) = true.
Proof. intros Ha Hb. unfold no_crlf in *. rewrite forallb_app, Ha, Hb. reflexivity. Qed.

(** The lines of a frame: the [event:] line, the [data:] lines, a blank. *)
Lemma sse_format_lines (c : Z) (ev data : str) :
  no_crlf (c :: ev) = true ->
  sse_block (sse_lines (sse_text (Some (c :: ev)) data)) =
  (py "event: " ++ c :: ev)
    :: map (fun line => py "data: " ++ line)
         (match splitlines data with [] => [[]] | ls => ls end).
Proof.
  intros Hev. unfold sse_text.
  set (lines := match splitlines data with [] => [[]] | ls => ls end).
  assert (Hlines : Forall (fun l => no_crlf l = true) lines).
  { subst lines. pose proof (splitlines_no_breaks data) as H.
    destruct (splitlines data).
    - repeat constructor.
    - eapply Forall_impl; [exact H|]. intros x. apply no_breaks_no_crlf. }
  cbv zeta.
  change ((([] ++ [py "event: " ++ c :: ev])
             ++ map (fun line => py "data: " ++ line) lines) ++ [[]])
    with ((py "event: " ++ c :: ev)
            :: (map (fun line => py "data: " ++ line) lines ++ [[]])).
  rewrite sse_lines_join.
  - rewrite app_comm_cons. apply sse_block_stop.
    constructor; [discriminate|].
    apply List.Forall_map, List.Forall_forall. intros x _. discriminate.
  - constructor.
    + apply no_crlf_app; [reflexivity | assumption].
    + apply Forall_app. split.
      * apply List.Forall_map. eapply Forall_impl; [exact Hlines|].
        intros x Hx. apply no_crlf_app; [reflexivity | exact Hx].
      * repeat constructor.
Qed.

(** The payload the consumer recovers: the lines of [data.splitlines()]
    joined by newlines. *)
Lemma sse_data_format (c : Z) (ev data : str) :
  no_crlf (c :: ev) = true ->
  sse_data (sse_text (Some (c :: ev)) data) =
  join LF (match splitlines data with [] => [[]] | ls => ls end).
Proof.
  intros Hev. unfold sse_data. rewrite sse_format_lines by assumption.
  rewrite omap_step.
  replace (sse_field (py "data") (py "event: " ++ c :: ev)) with (@None str)
    by reflexivity.
  rewrite omap_data_lines. reflexivity.
Qed.

(** The event name the consumer recovers. *)
Lemma sse_event_format (c : Z) (ev data : str) :
  no_crlf (c :: ev) = true ->
  sse_event (sse_text (Some (c :: ev)) data) = Some (c :: ev).
Proof.
  intros Hev. unfold sse_event. rewrite sse_format_lines by assumption.
  rewrite omap_step.
  replace (sse_field (py "event") (py "event: " ++ c :: ev)) with (Some (c :: ev)).
  - rewrite omap_event_lines. reflexivity.
  - reflexivity.
Qed.

Lemma splitlines_from_plain (c : Z) (cur rest : str) :
  is_linebreak c = false ->
  splitlines_from cur (c :: rest) = splitlines_from (cur ++ [c]) rest.
Proof. intros H. cbn [splitlines_from]. rewrite H. reflexivity. Qed.

Lemma splitlines_from_lf (c : Z) (cur rest : str) :
  splitlines_from cur (10%Z :: c :: rest) = cur :: splitlines_from [] (c :: rest).
Proof. reflexivity. Qed.

(** A piece whose only line boundaries are LF and that does not end in one
    is recovered unchanged. *)
Lemma join_splitlines_from (s cur : str) :
  only_lf_breaks s = true -> ends_with_lf s = false ->
  join LF (match splitlines_from cur s with [] => [[]] | ls => ls end) = cur ++ s.
Proof.
  revert cur. induction s as [|c rest IH]; intros cur Hlf Hend.
  - simpl. rewrite app_nil_r. destruct cur; reflexivity.
  - simpl in Hlf. apply andb_true_iff in Hlf as [Hc Hlf].
    assert (Hrest : ends_with_lf rest = false).
    { destruct rest as [|c' rest']; [reflexivity|].
      unfold ends_with_lf in *. rewrite last_cons in Hend.
      destruct (last (c' :: rest')) eqn:E; [exact Hend|].
      apply last_None in E. discriminate. }
    destruct (is_linebreak c) eqn:Hb.
    + simpl in Hc. apply Z.eqb_eq in Hc. subst c.
      destruct rest as [|c' rest']; [discriminate Hend|].
      rewrite splitlines_from_lf.
      assert (Hne : splitlines_from [] (c' :: rest') <> [])
        by (apply splitlines_from_nonempty; right; discriminate).
      specialize (IH [] Hlf Hrest).
      destruct (splitlines_from [] (c' :: rest')) as [|l ls]; [congruence|].
      change (join LF (cur :: l :: ls)) with (cur ++ LF ++ join LF (l :: ls)).
      rewrite IH. reflexivity.
    + rewrite splitlines_from_plain by assumption.
      rewrite IH by assumption. rewrite <- app_assoc. reflexivity.
Qed.

Lemma sse_data_token_exact (piece : str) :
  only_lf_breaks piece = true -> ends_with_lf piece = false ->
  sse_data (sse_text (Some (py "token")) piece) = piece.
Proof.
  intros Hlf Hend.
  change (py "token") with (116%Z :: py "oken").
  rewrite sse_data_format by reflexivity.
  apply (join_splitlines_from piece [] Hlf Hend).
Qed.

Ltac euclid := Z.to_euclidean_division_equations; lia.

(** ** UTF-8: what is encoded is read back *)

Lemma Z_of_byte_of_Z (z : Z) : (0 <= z < 256)%Z -> Z_of_byte (byte_of_Z z) = z.
Proof.
  intros Hz. unfold Z_of_byte, byte_of_Z.
  destruct (Byte.of_N (Z.to_N z)) as [x|] eqn:Hx.
  - apply Byte.to_of_N in Hx. change (default Byte.x00 (Some x)) with x.
    rewrite Hx. lia.
  - apply Byte.of_N_None_iff in Hx. lia.
Qed.

Ltac byte_values :=
  repeat match goal with
         | |- context [Z_of_byte (byte_of_Z ?z)] =>
             rewrite (Z_of_byte_of_Z z) by euclid
         end.

Ltac decide_tests :=
  repeat match goal with
         | |- context [(?a <? ?b)%Z] =>
             first [ replace (a <? b)%Z with true by (symmetry; apply Z.ltb_lt; euclid)
                   | replace (a <? b)%Z with false by (symmetry; apply Z.ltb_ge; euclid) ]
         | |- context [(?a <=? ?b)%Z] =>
             first [ replace (a <=? b)%Z with true by (symmetry; apply Z.leb_le; euclid)
                   | replace (a <=? b)%Z with false by (symmetry; apply Z.leb_gt; euclid) ]
         end.

(** The decoder reads one encoded code point back and goes on after it. *)
Lemma decode_utf8_char (c : Z) (b rest : bytes) :
  utf8_char c = Some b -> decode_utf8 (b ++ rest) = c :: decode_utf8 rest.
Proof.
  unfold utf8_char.
  destruct (c <? 0)%Z eqn:H0; [discriminate|]. apply Z.ltb_ge in H0.
  destruct (c <? 128)%Z eqn:H1.
  { apply Z.ltb_lt in H1. intros [= <-]. cbn [app decode_utf8].
    byte_values. decide_tests. reflexivity. }
  apply Z.ltb_ge in H1.
  destruct (c <? 2048)%Z eqn:H2.
  { apply Z.ltb_lt in H2. intros [= <-]. cbn [app decode_utf8]. unfold is_cont.
    byte_values. decide_tests. cbn [andb]. f_equal. euclid. }
  apply Z.ltb_ge in H2.
  destruct ((55296 <=? c) && (c <=? 57343))%Z eqn:Hs; [discriminate|].
  destruct (c <? 65536)%Z eqn:H3.
  { apply Z.ltb_lt in H3. intros [= <-]. cbn [app decode_utf8]. unfold is_cont.
    byte_values. decide_tests. cbn [andb]. f_equal. euclid. }
  apply Z.ltb_ge in H3.
  destruct (c <? 1114112)%Z eqn:H4; [|discriminate].
  apply Z.ltb_lt in H4. intros [= <-]. cbn [app decode_utf8]. unfold is_cont.
  byte_values. decide_tests. cbn [andb]. f_equal. euclid.
Qed.

Lemma decode_utf8_encoded (s : str) (b rest : bytes) :
  encode_utf8 s = Ok b -> decode_utf8 (b ++ rest) = s ++ decode_utf8 rest.
Proof.
  revert b. induction s as [|c s IH]; intros b.
  - intros [= <-]. reflexivity.
  - cbn [encode_utf8].
    destruct (utf8_char c) as [bc|] eqn:Hc; [|discriminate].
    destruct (encode_utf8 s) as [e|bs]; [discriminate|].
    intros [= <-]. rewrite <- app_assoc, (decode_utf8_char c bc _ Hc).
    rewrite (IH bs eq_refl). reflexivity.
Qed.

(** The encoder succeeds exactly on the texts without a surrogate (and
    without a number that is no code point). *)
Lemma encode_utf8_encodable (s : str) :
  encode_utf8 s = if encodable s then Ok (utf8 s) else Raise UnicodeEncodeError.
Proof.
  unfold utf8. induction s as [|c s IH]; [reflexivity|].
  cbn [encode_utf8 encodable forallb]. fold (encodable s).
  destruct (utf8_char c) as [bc|]; [|reflexivity].
  rewrite bool_decide_eq_true_2 by (eexists; reflexivity). cbn [andb].
  rewrite IH. destruct (encodable s); reflexivity.
Qed.

Lemma encode_utf8_ok (s : str) : encodable s = true -> encode_utf8 s = Ok (utf8 s).
Proof. intros H. rewrite encode_utf8_encodable, H. reflexivity. Qed.

Lemma encode_utf8_raises (s : str) :
  encodable s = false -> encode_utf8 s = Raise UnicodeEncodeError.
Proof. intros H. rewrite encode_utf8_encodable, H. reflexivity. Qed.

Lemma encode_utf8_inv (s : str) (b : bytes) :
  encode_utf8 s = Ok b -> encodable s = true /\ b = utf8 s.
Proof.
  rewrite encode_utf8_encodable. destruct (encodable s); [|discriminate].
  intros [= <-]. split; reflexivity.
Qed.

Lemma decode_utf8_utf8_app (s : str) (rest : bytes) :
  encodable s = true -> decode_utf8 (utf8 s ++ rest) = s ++ decode_utf8 rest.
Proof. intros H. apply decode_utf8_encoded, encode_utf8_ok, H. Qed.

Lemma decode_utf8_utf8 (s : str) : encodable s = true -> decode_utf8 (utf8 s) = s.
Proof.
  intros H. rewrite <- (app_nil_r (utf8 s)), (decode_utf8_utf8_app s [] H).
  apply app_nil_r.
Qed.

Lemma encodable_app (a b : str) :
  encodable (a ++ b) = encodable a && encodable b.
Proof. apply forallb_app. Qed.

Lemma linebreak_encodable (c : Z) :
  is_linebreak c = true -> bool_decide (is_Some (utf8_char c)) = true.
Proof.
  unfold is_linebreak. rewrite !orb_true_iff, !Z.eqb_eq.
  intros H. apply bool_decide_eq_true.
  repeat destruct H as [H|H]; subst c; eexists; reflexivity.
Qed.

(** ** Which frames can be encoded *)

Lemma frame_text (event : option str) (data : str) :
  sse_text event data =
  join LF (event_lines event
           ++ map (fun line => py "data: " ++ line) (data_lines data) ++ [[]])
  ++ LF.
Proof.
  unfold sse_text, data_lines, event_lines. cbv zeta.
  destruct event as [[|c e]|]; rewrite <- ?app_assoc; reflexivity.
Qed.

Section CharsOfLines.
Variable P : Z -> bool.

Lemma forallb_snoc (cur : str) (c : Z) :
  forallb P (cur ++ [c]) = forallb P cur && P c.
Proof. rewrite forallb_app. cbn [forallb]. rewrite andb_true_r. reflexivity. Qed.

(** The lines of a text hold only characters of the text. *)
Lemma splitlines_from_all (s cur : str) :
  forallb P cur = true -> forallb P s = true ->
  Forall (fun l => forallb P l = true) (splitlines_from cur s).
Proof.
  revert cur. induction s as [|a|a b l IHl IHbl] using list_pair_ind;
    intros cur Hcur Hs.
  - simpl. destruct cur; constructor; [assumption | constructor].
  - cbn [forallb] in Hs. apply andb_true_iff in Hs as [Ha _].
    simpl. destruct (is_linebreak a).
    + constructor; [assumption | constructor].
    + simpl. assert (Hs : forallb P (cur ++ [a]) = true)
        by (rewrite forallb_snoc, Hcur, Ha; reflexivity).
      destruct (cur ++ [a]); constructor; [assumption | constructor].
  - cbn [forallb] in Hs. apply andb_true_iff in Hs as [Ha Hbl].
    assert (Hl : forallb P l = true)
      by (cbn [forallb] in Hbl; apply andb_true_iff in Hbl; tauto).
    cbn [splitlines_from]. destruct (is_linebreak a).
    + destruct ((a =? 13)%Z && (b =? 10)%Z).
      * constructor; [assumption | apply IHl; [reflexivity | assumption]].
      * constructor; [assumption | apply IHbl; [reflexivity | assumption]].
    + apply IHbl; [|assumption]. rewrite forallb_snoc, Hcur, Ha. reflexivity.
Qed.

(** Every character of a text is a line boundary or is in one of its lines. *)
Lemma splitlines_from_all_inv (s cur : str) :
  (forall c, is_linebreak c = true -> P c = true) ->
  Forall (fun l => forallb P l = true) (splitlines_from cur s) ->
  forallb P cur = true /\ forallb P s = true.
Proof.
  intros Hbreak. revert cur.
  induction s as [|a|a b l IHl IHbl] using list_pair_ind; intros cur Hall.
  - split; [|reflexivity]. simpl in Hall. destruct cur; [reflexivity|].
    inversion Hall; assumption.
  - simpl in Hall. destruct (is_linebreak a) eqn:Ha.
    + inversion Hall; subst. split; [assumption|].
      cbn [forallb]. rewrite (Hbreak a Ha). reflexivity.
    + simpl in Hall.
      assert (Hs : forallb P (cur ++ [a]) = true).
      { destruct (cur ++ [a]) eqn:E; [destruct cur; discriminate|].
        inversion Hall; assumption. }
      rewrite forallb_snoc in Hs. apply andb_true_iff in Hs as [Hcur Hpa].
      split; [assumption|]. cbn [forallb]. rewrite Hpa. reflexivity.
  - cbn [splitlines_from] in Hall. destruct (is_linebreak a) eqn:Ha.
    + assert (Hb : (a =? 13)%Z && (b =? 10)%Z = true -> P b = true).
      { intros Hab. apply andb_true_iff in Hab as [_ Hb10].
        apply Z.eqb_eq in Hb10. subst b. apply Hbreak. reflexivity. }
      destruct ((a =? 13)%Z && (b =? 10)%Z).
      * inversion Hall; subst. split; [assumption|].
        destruct (IHl [] ltac:(assumption)) as [_ Hl].
        cbn [forallb]. rewrite (Hbreak a Ha), (Hb eq_refl), Hl. reflexivity.
      * inversion Hall; subst. split; [assumption|].
        destruct (IHbl [] ltac:(assumption)) as [_ Hbl].
        change (forallb P (a :: b :: l)) with (P a && forallb P (b :: l)).
        rewrite (Hbreak a Ha), Hbl. reflexivity.
    + destruct (IHbl _ Hall) as [Hs Hbl].
      rewrite forallb_snoc in Hs. apply andb_true_iff in Hs as [Hcur Hpa].
      split; [assumption|].
      change (forallb P (a :: b :: l)) with (P a && forallb P (b :: l)).
      rewrite Hpa, Hbl. reflexivity.
Qed.

Lemma forallb_join (sep : str) (ls : list str) :
  forallb P sep = true ->
  forallb P (join sep ls) = forallb (forallb P) ls.
Proof.
  intros Hsep. induction ls as [|l ls IH]; [reflexivity|].
  destruct ls as [|l' ls].
  - cbn [join forallb]. rewrite andb_true_r. reflexivity.
  - change (join sep (l :: l' :: ls)) with (l ++ sep ++ join sep (l' :: ls)).
    rewrite !forallb_app, Hsep, IH. reflexivity.
Qed.

Lemma forallb_data_lines (data : str) :
  (forall c, is_linebreak c = true -> P c = true) ->
  forallb (forallb P) (data_lines data) = forallb P data.
Proof.
  intros Hbreak. unfold data_lines, splitlines.
  destruct (forallb P data) eqn:Hdata.
  - pose proof (splitlines_from_all data [] eq_refl Hdata) as Hall.
    destruct (splitlines_from [] data); [reflexivity|].
    apply forallb_forall. rewrite List.Forall_forall in Hall. exact Hall.
  - destruct (forallb (forallb P) _) eqn:Hlines; [|reflexivity].
    assert (Hall : Forall (fun l => forallb P l = true) (splitlines_from [] data)).
    { destruct (splitlines_from [] data); [constructor|].
      apply List.Forall_forall. apply forallb_forall. exact Hlines. }
    destruct (splitlines_from_all_inv data [] Hbreak Hall) as [_ H]. congruence.
Qed.
End CharsOfLines.

(** A frame can be encoded exactly when its event name and its data can. *)
Lemma encodable_sse_text (event : option str) (data : str) :
  encodable (sse_text event data)
  = encodable (default [] event) && encodable data.
Proof.
  rewrite frame_text. unfold encodable.
  rewrite forallb_app, forallb_join by reflexivity.
  rewrite !forallb_app. cbn [forallb]. rewrite !andb_true_r.
  rewrite <- (forallb_data_lines _ data linebreak_encodable).
  f_equal.
  - destruct event as [[|c e]|]; try reflexivity.
    cbn [event_lines forallb]. rewrite andb_true_r, forallb_app. reflexivity.
  - induction (data_lines data) as [|l ls IH]; [reflexivity|].
    cbn [map forallb]. rewrite forallb_app, IH. reflexivity.
Qed.

Lemma sse_format_ok (event : option str) (data : str) :
  encodable (default [] event) = true -> encodable data = true ->
  _sse_format event data = Ok (utf8 (sse_text event data)).
Proof.
  intros He Hd. unfold _sse_format. apply encode_utf8_ok.
  rewrite encodable_sse_text, He, Hd. reflexivity.
Qed.

Lemma sse_format_raises (event : option str) (data : str) :
  encodable data = false -> _sse_format event data = Raise UnicodeEncodeError.
Proof.
  intros Hd. unfold _sse_format. apply encode_utf8_raises.
  rewrite encodable_sse_text, Hd. apply andb_false_r.
Qed.

(** What [_sse_format] returns is the encoding of the text of the frame, and
    the consumer decodes it to that text. *)
Lemma sse_format_inv (event : option str) (data : str) (frame : bytes) :
  _sse_format event data = Ok frame ->
  frame = utf8 (sse_text event data)
  /\ encodable (sse_text event data) = true
  /\ decode_utf8 frame = sse_text event data.
Proof.
  unfold _sse_format. intros H. destruct (encode_utf8_inv _ _ H) as [Henc ->].
  split; [reflexivity|]. split; [exact Henc|]. apply decode_utf8_utf8, Henc.
Qed.

(** ** Running the monad *)

Lemma add_trace_nil (w : world) : add_trace w [] = w.
Proof. destruct w. unfold add_trace. simpl. rewrite app_nil_r. reflexivity. Qed.

Lemma add_trace_app (w : world) (a b : list action) :
  add_trace (add_trace w a) b = add_trace w (a ++ b).
Proof. unfold add_trace. simpl. rewrite app_assoc. reflexivity. Qed.

Lemma log_run (a : action) (w : world) : log a w = (Ok tt, add_trace w [a]).
Proof. reflexivity. Qed.

Lemma bind_run {A B} (m : M A) (k : A -> M B) (w : world) :
  bind m k w =
  match m w with (Ok a, w') => k a w' | (Raise e, w') => (Raise e, w') end.
Proof. reflexivity. Qed.

Lemma yield_run (r : result bytes) (w : world) :
  yield r w =
  match r with
  | Ok f => (Ok tt, add_trace w [Yield f])
  | Raise e => (Raise e, w)
  end.
Proof. unfold yield. rewrite bind_run. unfold lift. destruct r; reflexivity. Qed.

(** A loop of [yield]s stops at the first frame that cannot be made. *)
Lemma for_each_yield_run {A} (f : A -> result bytes) (xs : list A) (w : world) :
  for_each xs (fun x => yield (f x)) w =
  (fst (yield_all (map f xs)), add_trace w (snd (yield_all (map f xs)))).
Proof.
  revert w. induction xs as [|x xs IH]; intros w.
  - simpl. rewrite add_trace_nil. reflexivity.
  - cbn [for_each map yield_all]. rewrite bind_run, yield_run.
    destruct (f x) as [e|frame].
    + cbn [fst snd]. rewrite add_trace_nil. reflexivity.
    + rewrite IH, add_trace_app. reflexivity.
Qed.

Lemma yield_all_app (a b : list (result bytes)) :
  yield_all (a ++ b) =
  match fst (yield_all a) with
  | Ok _ => (fst (yield_all b), snd (yield_all a) ++ snd (yield_all b))
  | Raise e => yield_all a
  end.
Proof.
  induction a as [|[e|f] a IH]; cbn [app yield_all fst snd].
  - destruct (yield_all b); reflexivity.
  - reflexivity.
  - rewrite IH. destruct (yield_all a) as [[e|u] acts]; reflexivity.
Qed.

Lemma yield_all_ok (frames : list bytes) :
  yield_all (map Ok frames) = (Ok tt, map Yield frames).
Proof.
  induction frames as [|f frames IH]; [reflexivity|].
  cbn [map yield_all]. rewrite IH. reflexivity.
Qed.

(** Whatever is yielded, only frames are added to the trace. *)
Lemma yield_all_yields (frames : list (result bytes)) :
  forallb is_yield (snd (yield_all frames)) = true.
Proof.
  induction frames as [|[e|f] frames IH]; [reflexivity | reflexivity | exact IH].
Qed.

(** A run of [yield]s ends normally or with the encoding error of a frame. *)
Lemma yield_all_result (frames : list (result bytes)) :
  Forall (fun r => forall e, r = Raise e -> e = UnicodeEncodeError) frames ->
  fst (yield_all frames) = Ok tt \/ fst (yield_all frames) = Raise UnicodeEncodeError.
Proof.
  induction 1 as [|[e|f] frames Hr Hall IH]; cbn [yield_all fst].
  - left. reflexivity.
  - right. rewrite (Hr e eq_refl). reflexivity.
  - exact IH.
Qed.

Section Completion.
Context (cfg : config) (rt : runtime).

(** One completion is one POST, whatever comes back. *)
Lemma lm_completion_run (prompt model : str) (w : world) :
  lm_completion cfg rt prompt model w =
  (completion_of (httpx_post rt (completion_url cfg)
                    (completion_payload prompt model) 120),
   add_trace w [HttpPost (completion_url cfg)
                  (completion_payload prompt model) 120]).
Proof.
  unfold lm_completion, post. fold (completion_url cfg).
  fold (completion_payload prompt model).
  rewrite !bind_run, log_run.
  unfold completion_of.
  destruct (httpx_post rt _ _ _) as [e|st b]; [reflexivity|].
  unfold ret at 1. rewrite bind_run. unfold raise_for_status. cbn [status_code].
  destruct ((200 <=? st)%Z && (st <=? 299)%Z); [|reflexivity].
  unfold ret at 1. rewrite bind_run. unfold response_json. cbn [body].
  destruct b as [data|]; [|reflexivity].
  unfold ret at 1. rewrite bind_run. unfold lift at 1.
  destruct (getitem_key data _) as [e|choices]; [reflexivity|].
  rewrite bind_run. unfold lift at 1.
  destruct (getitem_0 choices) as [e|choice]; [reflexivity|].
  rewrite bind_run. unfold lift at 1.
  destruct (getitem_key choice _) as [e|msg]; [reflexivity|].
  rewrite bind_run. unfold lift at 1.
  destruct (getitem_key msg _) as [e|c]; reflexivity.
Qed.

(** The backend's reply is what the completion returns. *)
Ltac no_reply := split; intros Habs; cbn in Habs; discriminate Habs.

Lemma completion_of_reply (prompt model t : str) :
  completion_of (httpx_post rt (completion_url cfg)
                   (completion_payload prompt model) 120) = Ok t
  <-> backend_reply cfg rt prompt model = Some t.
Proof.
  unfold backend_reply, completion_of.
  destruct (httpx_post rt _ _ _) as [e|st b]; [no_reply|].
  destruct b as [data|];
    (destruct ((200 <=? st)%Z && (st <=? 299)%Z); [|no_reply]); [|no_reply].
  unfold first_choice_content, getitem_key.
  destruct data as [| | | | |top]; try (no_reply).
  destruct (assoc (py "choices") top) as [choices|]; [|no_reply].
  destruct choices as [| | |s|items|m]; try (no_reply).
  - destruct s; no_reply.
  - destruct items as [|choice items]; [no_reply|].
    cbn [getitem_0].
    destruct choice as [| | | | |cm]; try (no_reply).
    destruct (assoc (py "message") cm) as [msg|]; [|no_reply].
    destruct msg as [| | | | |mm]; try (no_reply).
    destruct (assoc (py "content") mm) as [c|]; [|no_reply].
    destruct c; try (no_reply).
    simpl. split; intros [= <-]; reflexivity.
Qed.

Lemma start_frame_ok :
  _sse_format (Some (py "start")) (status_json (py "starting")) = Ok start_frame.
Proof. apply sse_format_ok; vm_compute; reflexivity. Qed.

(** One run of [gen]: the [start] frame, the call to the backend, then the
    frames of [gen_frames] up to the first that cannot be encoded. *)
Lemma gen_run (prompt model : str) (w : world) :
  gen cfg rt prompt model w =
  (fst (yield_all (gen_frames cfg rt prompt model)),
   add_trace w (gen_effects cfg rt prompt model)).
Proof.
  unfold gen, gen_effects, gen_frames.
  rewrite bind_run, yield_run, start_frame_ok. cbv beta iota.
  rewrite bind_run. unfold try_except. rewrite bind_run, lm_completion_run.
  destruct (completion_of _) as [e|text]; cbv beta iota.
  - rewrite bind_run, yield_run. cbn [yield_all].
    change (py "{" ++ DQ ++ py "message" ++ DQ ++ py ": " ++ DQ
            ++ py "LM Studio error: " ++ exn_str rt e ++ DQ ++ py "}")
      with (error_json (exn_str rt e)).
    destruct (_sse_format (Some (py "error")) _) as [x|f]; cbv beta iota.
    + cbn [fst snd]. rewrite !add_trace_app. reflexivity.
    + rewrite bind_run, yield_run.
      replace (_sse_format (Some (py "end")) (status_json (py "error")))
        with (Ok (A:=bytes) (end_frame (py "error")))
        by (symmetry; apply sse_format_ok; vm_compute; reflexivity).
      cbv beta iota. unfold ret. cbn [yield_all fst snd].
      rewrite !add_trace_app. reflexivity.
  - unfold ret at 1. cbv beta iota zeta.
    rewrite bind_run, for_each_yield_run.
    replace (_sse_format (Some (py "done")) (status_json (py "ok")))
      with (Ok (A:=bytes) done_frame)
      by (symmetry; apply sse_format_ok; vm_compute; reflexivity).
    replace (_sse_format (Some (py "end")) (status_json (py "complete")))
      with (Ok (A:=bytes) (end_frame (py "complete")))
      by (symmetry; apply sse_format_ok; vm_compute; reflexivity).
    rewrite yield_all_app. unfold pieces, chunks_of. rewrite map_map.
    destruct (yield_all _) as [[x|[]] acts]; cbn [fst snd];
      [rewrite !add_trace_app; reflexivity|].
    rewrite bind_run, yield_run. cbv beta iota.
    rewrite yield_run. cbn [yield_all fst snd].
    rewrite !add_trace_app, <- ?app_assoc. reflexivity.
Qed.

Lemma stream_frames_eq (prompt model : str) (w : world) :
  stream_frames cfg rt prompt model w = emitted (gen_effects cfg rt prompt model).
Proof.
  unfold stream_frames. cbn [chat_stream sse_body]. rewrite gen_run. simpl.
  rewrite drop_app_length. reflexivity.
Qed.
End Completion.

(** ** The stream of [/chat_stream] *)

Lemma emitted_app (a b : list action) : emitted (a ++ b) = emitted a ++ emitted b.
Proof.
  unfold emitted. induction a as [|x a IH]; [reflexivity|].
  rewrite <- app_comm_cons, !omap_step, IH. destruct x; reflexivity.
Qed.

Lemma emitted_yields (frames : list bytes) : emitted (map Yield frames) = frames.
Proof.
  unfold emitted. induction frames as [|f frames IH]; [reflexivity|].
  rewrite !map_cons, omap_step, IH. reflexivity.
Qed.

(** The consumer reads the text of a frame off its bytes. *)
Lemma frame_event_utf8 (t : str) :
  encodable t = true -> frame_event (utf8 t) = sse_event t.
Proof. intros H. unfold frame_event. rewrite decode_utf8_utf8 by exact H. reflexivity. Qed.

Lemma frame_data_utf8 (t : str) :
  encodable t = true -> frame_data (utf8 t) = sse_data t.
Proof. intros H. unfold frame_data. rewrite decode_utf8_utf8 by exact H. reflexivity. Qed.

Lemma sse_event_named (ev data : str) :
  ev <> [] -> no_crlf ev = true ->
  sse_event (sse_text (Some ev) data) = Some ev.
Proof. destruct ev; [congruence|]. intros _. apply sse_event_format. Qed.

Lemma sse_data_named (ev data : str) :
  ev <> [] -> no_crlf ev = true ->
  sse_data (sse_text (Some ev) data) =
  join LF (match splitlines data with [] => [[]] | ls => ls end).
Proof. destruct ev; [congruence|]. intros _. apply sse_data_format. Qed.

Lemma token_text_encodable (piece : str) :
  encodable piece = true -> encodable (sse_text (Some (py "token")) piece) = true.
Proof. intros H. rewrite encodable_sse_text, H. reflexivity. Qed.

Lemma token_frame_ok (piece : str) :
  encodable piece = true ->
  _sse_format (Some (py "token")) piece = Ok (token_frame piece).
Proof. intros H. apply sse_format_ok; [reflexivity | exact H]. Qed.

Lemma is_token_token_frame (piece : str) :
  encodable piece = true -> is_token (token_frame piece) = true.
Proof.
  intros H. unfold is_token, token_frame.
  rewrite frame_event_utf8 by (apply token_text_encodable, H).
  rewrite sse_event_named by (discriminate || reflexivity).
  apply bool_decide_eq_true. reflexivity.
Qed.

Lemma filter_token_frames (ps : list str) (rest : list bytes) :
  Forall (fun p => encodable p = true) ps ->
  List.filter is_token (map token_frame ps ++ rest) =
  map token_frame ps ++ List.filter is_token rest.
Proof.
  induction 1 as [|p ps Hp Hps IH]; [reflexivity|].
  rewrite map_cons, <- app_comm_cons. cbn [List.filter].
  rewrite (is_token_token_frame p Hp), IH. reflexivity.
Qed.

Lemma event_names_token_frames (ps : list str) :
  Forall (fun p => encodable p = true) ps ->
  event_names (map token_frame ps) = repeat (Some (py "token")) (length ps).
Proof.
  unfold event_names. induction 1 as [|p ps Hp Hps IH]; [reflexivity|].
  rewrite !map_cons, IH. cbn [length repeat]. f_equal.
  unfold token_frame. rewrite frame_event_utf8 by (apply token_text_encodable, Hp).
  apply sse_event_named; [discriminate | reflexivity].
Qed.

Lemma forallb_take {A} (f : A -> bool) (k : nat) (l : list A) :
  forallb f l = true -> forallb f (take k l) = true.
Proof.
  revert k. induction l as [|x l IH]; intros [|k] H; try reflexivity.
  simpl in *. apply andb_true_iff in H as [Hx Hl]. rewrite Hx. simpl. auto.
Qed.

Lemma forallb_drop {A} (f : A -> bool) (k : nat) (l : list A) :
  forallb f l = true -> forallb f (drop k l) = true.
Proof.
  revert k. induction l as [|x l IH]; intros [|k] H; try reflexivity.
  - exact H.
  - simpl in *. apply andb_true_iff in H as [Hx Hl]. auto.
Qed.

(** The pieces of a text that can be encoded can be encoded. *)
Lemma pieces_encodable (text : str) :
  encodable text = true -> Forall (fun p => encodable p = true) (pieces text).
Proof.
  intros H. unfold pieces, chunks_of. apply List.Forall_map.
  apply List.Forall_forall. intros i _. unfold slice, encodable.
  apply forallb_take, forallb_drop, H.
Qed.

Lemma error_json_encodable (msg : str) :
  encodable (error_json msg) = encodable msg.
Proof.
  unfold error_json. rewrite !encodable_app.
  replace (encodable (py "{")) with true by reflexivity.
  replace (encodable DQ) with true by reflexivity.
  replace (encodable (py "message")) with true by reflexivity.
  replace (encodable (py ": ")) with true by reflexivity.
  replace (encodable (py "LM Studio error: ")) with true by reflexivity.
  replace (encodable (py "}")) with true by reflexivity.
  cbn [andb]. apply andb_true_r.
Qed.

Section Stream.
Context (cfg : config) (rt : runtime).

(** The frames of a successful run whose reply can be encoded. *)
Lemma gen_frames_ok (prompt model text : str) :
  backend_reply cfg rt prompt model = Some text ->
  encodable text = true ->
  gen_frames cfg rt prompt model =
  map Ok (map token_frame (pieces text) ++ [done_frame; end_frame (py "complete")]).
Proof.
  intros Hreply Henc. apply completion_of_reply in Hreply.
  unfold gen_frames. rewrite Hreply, map_app.
  assert (Htokens : map (fun piece => _sse_format (Some (py "token")) piece)
                        (pieces text)
                    = map Ok (map token_frame (pieces text))).
  { rewrite map_map. apply map_ext_in. intros piece Hin. apply token_frame_ok.
    pose proof (pieces_encodable text Henc) as Hall.
    rewrite List.Forall_forall in Hall. apply Hall, Hin. }
  rewrite Htokens. reflexivity.
Qed.

(** The frames of a failed run whose error message can be encoded. *)
Lemma gen_frames_fail (prompt model : str) (e : exn) :
  completion_of (httpx_post rt (completion_url cfg)
                   (completion_payload prompt model) 120) = Raise e ->
  encodable (exn_str rt e) = true ->
  gen_frames cfg rt prompt model =
  map Ok [error_frame rt e; end_frame (py "error")].
Proof.
  intros Hfail Henc. unfold gen_frames. rewrite Hfail. cbn [map].
  rewrite (sse_format_ok (Some (py "error")) (error_json (exn_str rt e)))
    by (first [reflexivity | rewrite error_json_encodable; exact Henc]).
  reflexivity.
Qed.

(** A successful run: [start], one [token] per piece, [done], [end]. *)
Lemma stream_frames_ok (prompt model text : str) (w : world) :
  backend_reply cfg rt prompt model = Some text ->
  encodable text = true ->
  stream_frames cfg rt prompt model w =
  start_frame :: map token_frame (pieces text)
    ++ [done_frame; end_frame (py "complete")].
Proof.
  intros Hreply Henc.
  rewrite stream_frames_eq. unfold gen_effects.
  rewrite (gen_frames_ok _ _ _ Hreply Henc), yield_all_ok. cbn [snd].
  change (emitted (Yield start_frame :: ?a :: ?l)) with (start_frame :: emitted l).
  rewrite emitted_yields. reflexivity.
Qed.

(** A failed run: [start], [error], [end]. *)
Lemma stream_frames_fail (prompt model : str) (w : world) (e : exn) :
  completion_of (httpx_post rt (completion_url cfg)
                   (completion_payload prompt model) 120) = Raise e ->
  encodable (exn_str rt e) = true ->
  stream_frames cfg rt prompt model w =
  [start_frame; error_frame rt e; end_frame (py "error")].
Proof.
  intros Hfail Henc. rewrite stream_frames_eq. unfold gen_effects.
  rewrite (gen_frames_fail _ _ _ Hfail Henc). reflexivity.
Qed.

(** A run whose frames can all be encoded ends normally. *)
Lemma gen_ends_normally (prompt model : str) (w : world) :
  reply_encodable cfg rt prompt model = true ->
  fst (gen cfg rt prompt model w) = Ok tt.
Proof.
  unfold reply_encodable. rewrite gen_run. cbn [fst].
  destruct (completion_of _) as [e|text] eqn:Hc; intros Henc.
  - rewrite (gen_frames_fail _ _ _ Hc Henc). reflexivity.
  - apply completion_of_reply in Hc.
    rewrite (gen_frames_ok _ _ _ Hc Henc), yield_all_ok. reflexivity.
Qed.

Lemma token_payloads_ok (prompt model text : str) (w : world) :
  backend_reply cfg rt prompt model = Some text ->
  encodable text = true ->
  token_payloads (stream_frames cfg rt prompt model w) =
  map (fun piece => sse_data (sse_text (Some (py "token")) piece)) (pieces text).
Proof.
  intros Hreply Henc. unfold token_payloads.
  rewrite (stream_frames_ok _ _ _ _ Hreply Henc).
  cbn [List.filter].
  replace (is_token start_frame) with false by (vm_compute; reflexivity).
  rewrite filter_token_frames by (apply pieces_encodable, Henc).
  cbn [List.filter].
  replace (is_token done_frame) with false by (vm_compute; reflexivity).
  replace (is_token (end_frame (py "complete"))) with false
    by (vm_compute; reflexivity).
  rewrite app_nil_r, map_map. apply map_ext_in. intros piece Hin.
  unfold token_frame. apply frame_data_utf8, token_text_encodable.
  pose proof (pieces_encodable text Henc) as Hall.
  rewrite List.Forall_forall in Hall. apply Hall, Hin.
Qed.
End Stream.

(** The pieces of a text whose line boundaries are all LF, none of them at
    the end of a piece, come back from their frames unchanged. *)
Lemma recovered_pieces (text : str) :
  only_lf_breaks text = true ->
  forallb (fun piece => negb (ends_with_lf piece)) (pieces text) = true ->
  map (fun piece => sse_data (sse_text (Some (py "token")) piece)) (pieces text)
  = pieces text.
Proof.
  intros Hlf Hend. rewrite <- (map_id (pieces text)) at 2.
  apply map_ext_in. intros piece Hin.
  apply sse_data_token_exact.
  - unfold pieces, chunks_of in Hin. apply in_map_iff in Hin as (i & <- & _).
    unfold slice. apply forallb_take, forallb_drop, Hlf.
  - rewrite forallb_forall in Hend. specialize (Hend piece Hin).
    apply negb_true_iff in Hend. exact Hend.
Qed.

Section StreamClaims.
Context (cfg : config) (rt : runtime).

(** X6.  What does hold of the recovered payloads.  For every reply R of the
    streaming endpoint that can be encoded (no surrogate), whose line
    boundaries are all LF and none of whose 40-character pieces ends in LF,
    the payloads that a consumer recovers from the [token] frames (the bytes
    decoded, the [data:] lines joined by newlines), concatenated in emission
    order, are R exactly; every payload has at most 40 characters and every
    payload but the last has exactly 40. *)
Theorem chat_stream_tokens_reassemble (prompt model R : str) (w : world) :
  backend_reply cfg rt prompt model = Some R ->
  encodable R = true ->
  only_lf_breaks R = true ->
  forallb (fun piece => negb (ends_with_lf piece)) (pieces R) = true ->
  let payloads := token_payloads (stream_frames cfg rt prompt model w) in
  concat payloads = R /\
  forall i p, payloads !! i = Some p ->
              length p <= 40 /\ (S i < length payloads -> length p = 40).
Proof.
  intros Hreply Henc Hlf Hend payloads. subst payloads.
  rewrite (token_payloads_ok cfg rt _ _ _ w Hreply Henc).
  rewrite (recovered_pieces R Hlf Hend). split.
  - apply chunks_of_concat. lia.
  - intros i p Hp. unfold pieces in *.
    destruct (chunks_of_sizes 40 ltac:(lia) R i p Hp) as [Hsz Hfull].
    split; [lia | exact Hfull].
Qed.

(** C2 (as amended).  Every run of the streaming endpoint in which the text
    to send can be encoded (the reply, or the message of the error, holds no
    surrogate) ends normally and sends exactly one of two sequences: when
    the backend call fails, [start], [error] (carrying the cause), [end]
    with status "error", and no [token]; when it succeeds with the trimmed
    text [text], [start], one [token] per 40-character piece of [text]
    (none when [text] is empty), [done], [end] with status "complete". *)
Theorem chat_stream_event_order (prompt model : str) (w : world) :
  reply_encodable cfg rt prompt model = true ->
  let frames := stream_frames cfg rt prompt model w in
  fst (gen cfg rt prompt model w) = Ok tt /\
  match backend_reply cfg rt prompt model with
  | None =>
      (exists e, frames = [start_frame; error_frame rt e; end_frame (py "error")])
      /\ event_names frames = [Some (py "start"); Some (py "error"); Some (py "end")]
      /\ option_map frame_data (last frames) = Some (status_json (py "error"))
      /\ List.filter is_token frames = []
  | Some text =>
      frames = start_frame :: map token_frame (pieces text)
                 ++ [done_frame; end_frame (py "complete")]
      /\ event_names frames =
         Some (py "start") :: repeat (Some (py "token")) (length (pieces text))
           ++ [Some (py "done"); Some (py "end")]
      /\ option_map frame_data (last frames) = Some (status_json (py "complete"))
      /\ (length (pieces text) = 0 <-> text = [])
  end.
Proof.
  intros Henc frames. split; [apply gen_ends_normally, Henc|].
  subst frames. unfold reply_encodable in Henc.
  destruct (backend_reply cfg rt prompt model) as [text|] eqn:Hreply.
  - pose proof Hreply as Hc. apply completion_of_reply in Hc. rewrite Hc in Henc.
    rewrite (stream_frames_ok cfg rt _ _ _ w Hreply Henc). split; [reflexivity|].
    split; [|split].
    + unfold event_names. rewrite map_cons, map_app.
      fold (event_names (map token_frame (pieces text))).
      rewrite event_names_token_frames by (apply pieces_encodable, Henc).
      reflexivity.
    + rewrite last_cons, last_app. reflexivity.
    + unfold pieces. rewrite chunks_of_length.
      split.
      * intros H0. destruct text as [|c text]; [reflexivity|].
        exfalso. cbn [length] in H0.
        pose proof (Nat.div_mod_eq (S (length text) + (40 - 1)) 40) as Hd.
        pose proof (Nat.mod_upper_bound (S (length text) + (40 - 1)) 40 ltac:(lia)).
        lia.
      * intros ->. reflexivity.
  - destruct (completion_of _) as [e|text] eqn:Hc;
      [|apply completion_of_reply in Hc; congruence].
    rewrite (stream_frames_fail cfg rt _ _ w e Hc Henc).
    assert (Herr : frame_event (error_frame rt e) = Some (py "error")).
    { unfold error_frame. rewrite frame_event_utf8.
      - apply sse_event_named; [discriminate | reflexivity].
      - rewrite encodable_sse_text, error_json_encodable, Henc. reflexivity. }
    split; [exists e; reflexivity|]. split; [|split].
    + unfold event_names. cbn [map]. rewrite Herr.
      replace (frame_event start_frame) with (Some (py "start"))
        by (vm_compute; reflexivity).
      replace (frame_event (end_frame (py "error"))) with (Some (py "end"))
        by (vm_compute; reflexivity).
      reflexivity.
    + vm_compute. reflexivity.
    + cbn [List.filter].
      replace (is_token start_frame) with false by (vm_compute; reflexivity).
      replace (is_token (end_frame (py "error"))) with false by (vm_compute; reflexivity).
      unfold is_token at 1. rewrite Herr. reflexivity.
Qed.
End StreamClaims.

(** *** Examples of streams *)

Lemma chat_stream_event_order_witness :
  reply_encodable cfg_bare (answering hello_reply) (py "Hello") (py "default") = true
  /\ fst (gen cfg_bare (answering hello_reply) (py "Hello") (py "default") world_bare)
     = Ok tt
  /\ event_names (stream_frames cfg_bare (answering hello_reply) (py "Hello")
                                (py "default") world_bare)
     = [Some (py "start"); Some (py "token"); Some (py "done"); Some (py "end")].
Proof.
  assert (H : reply_encodable cfg_bare (answering hello_reply) (py "Hello")
                              (py "default") = true) by (vm_compute; reflexivity).
  split; [exact H|].
  pose proof (chat_stream_event_order cfg_bare (answering hello_reply) (py "Hello")
                (py "default") world_bare H) as [Hok Hseq].
  split; [exact Hok|].
  replace (backend_reply cfg_bare (answering hello_reply) (py "Hello") (py "default"))
    with (Some hello_reply) in Hseq by (vm_compute; reflexivity).
  destruct Hseq as (_ & Hnames & _). exact Hnames.
Defined.

Lemma chat_stream_tokens_reassemble_witness :
  backend_reply cfg_bare (answering (py "  " ++ steps_reply ++ LF))
                (py "How?") (py "default") = Some steps_reply
  /\ encodable steps_reply = true
  /\ only_lf_breaks steps_reply = true
  /\ forallb (fun piece => negb (ends_with_lf piece)) (pieces steps_reply) = true
  /\ concat (token_payloads
               (stream_frames cfg_bare (answering (py "  " ++ steps_reply ++ LF))
                              (py "How?") (py "default") world_bare))
     = steps_reply.
Proof.
  assert (H1 : backend_reply cfg_bare (answering (py "  " ++ steps_reply ++ LF))
                             (py "How?") (py "default") = Some steps_reply)
    by (vm_compute; reflexivity).
  assert (H0 : encodable steps_reply = true) by (vm_compute; reflexivity).
  assert (H2 : only_lf_breaks steps_reply = true) by (vm_compute; reflexivity).
  assert (H3 : forallb (fun piece => negb (ends_with_lf piece)) (pieces steps_reply)
               = true) by (vm_compute; reflexivity).
  split; [exact H1|]. split; [exact H0|]. split; [exact H2|]. split; [exact H3|].
  exact (proj1 (chat_stream_tokens_reassemble cfg_bare _ _ _ _ world_bare
                  H1 H0 H2 H3)).
Defined.

(** C1.  The claim is that the payloads a consumer recovers from the [token]
    frames, concatenated, are the reply.  The code loses a line boundary that
    is the last character of a piece ([splitlines] drops it): for the reply
    of 39 letters, a newline and a letter, the payloads are the 39 letters
    and the letter, 40 characters in all for a reply of 41, and the first
    payload is shorter than 40 though it is not the last.  It also turns a
    CR into an LF. *)
Lemma chat_stream_newline_at_piece_end_lost :
  let frames := stream_frames cfg_bare (answering boundary_reply)
                              (py "Hello") (py "default") world_bare in
  let frames_cr := stream_frames cfg_bare (answering [97; 13; 98]%Z)
                                 (py "Hello") (py "default") world_bare in
  backend_reply cfg_bare (answering boundary_reply) (py "Hello") (py "default")
  = Some boundary_reply
  /\ map token_frame (pieces boundary_reply) = List.filter is_token frames
  /\ pieces boundary_reply = [repeat 97%Z 39 ++ LF; py "b"]
  /\ token_payloads frames = [repeat 97%Z 39; py "b"]
  /\ concat (token_payloads frames) <> boundary_reply
  /\ backend_reply cfg_bare (answering [97; 13; 98]%Z) (py "Hello") (py "default")
     = Some [97; 13; 98]%Z
  /\ token_payloads frames_cr = [[97; 10; 98]%Z].
Proof.
  assert (H : token_payloads
                (stream_frames cfg_bare (answering boundary_reply)
                               (py "Hello") (py "default") world_bare)
              = [repeat 97%Z 39; py "b"]) by (vm_compute; reflexivity).
  cbv zeta. rewrite H.
  split; [vm_compute; reflexivity|]. split; [vm_compute; reflexivity|].
  split; [vm_compute; reflexivity|]. split; [reflexivity|].
  split; [|split; vm_compute; reflexivity].
  intros Heq. apply (f_equal (@length Z)) in Heq. vm_compute in Heq. discriminate.
Qed.

(** C2, as stated, fails: a reply that is blank once trimmed gives a
    successful stream with no [token] event. *)
Lemma chat_stream_blank_reply_no_token :
  let names := event_names
                 (stream_frames cfg_bare (answering (py "   "))
                                (py "Hello") (py "default") world_bare) in
  backend_reply cfg_bare (answering (py "   ")) (py "Hello") (py "default") = Some []
  /\ names = [Some (py "start"); Some (py "done"); Some (py "end")]
  /\ names <> [Some (py "start"); Some (py "error"); Some (py "end")]
  /\ ~ (exists n, 0 < n /\
          names = Some (py "start") :: repeat (Some (py "token")) n
                    ++ [Some (py "done"); Some (py "end")]).
Proof.
  assert (H : event_names
                (stream_frames cfg_bare (answering (py "   "))
                               (py "Hello") (py "default") world_bare)
              = [Some (py "start"); Some (py "done"); Some (py "end")])
    by (vm_compute; reflexivity).
  cbv zeta. rewrite H. repeat split; try (vm_compute; reflexivity).
  - discriminate.
  - intros (n & Hn & Heq). destruct n as [|n]; [lia|].
    cbn [repeat] in Heq. discriminate.
Qed.

(** C10.  The claim is that every [token] but the last carries exactly 40
    characters.  The code sends the right number of [token] events, two for
    the reply of 41 characters made of 39 letters, a newline and a letter,
    but the first of them, which is not the last, carries 39 characters:
    its frame is [event: token], [data: ] and the 39 letters, the newline
    that ended the piece being dropped by [splitlines]. *)
Lemma chat_stream_token_shorter_than_40 :
  let frames := stream_frames cfg_bare (answering boundary_reply)
                              (py "Hello") (py "default") world_bare in
  backend_reply cfg_bare (answering boundary_reply) (py "Hello") (py "default")
  = Some boundary_reply
  /\ length boundary_reply = 41
  /\ length (List.filter is_token frames) = 2
  /\ map decode_utf8 (List.filter is_token frames)
     = [py "event: token" ++ LF ++ py "data: " ++ repeat 97%Z 39 ++ LF ++ LF;
        py "event: token" ++ LF ++ py "data: b" ++ LF ++ LF]
  /\ map length (token_payloads frames) = [39; 1].
Proof. repeat split; vm_compute; reflexivity. Qed.

(** ** [/chat] and [/health] *)

Lemma completion_of_content (st : Z) (data : json) :
  ((200 <=? st) && (st <=? 299))%Z = true ->
  match first_choice_content data with
  | Some c => completion_of (HttpResponse st (Some data)) = Ok (strip c)
  | None => exists e, completion_of (HttpResponse st (Some data)) = Raise e
                      /\ lookup_error e
  end.
Proof.
  intros Hst. unfold completion_of. rewrite Hst.
  unfold first_choice_content, getitem_key.
  destruct data as [| | | | |top]; try (eexists; split; [reflexivity|exact I]).
  destruct (assoc (py "choices") top) as [choices|];
    [|eexists; split; [reflexivity|exact I]].
  destruct choices as [| | |s|items|m]; try (eexists; split; [reflexivity|exact I]).
  - destruct s; eexists; (split; [reflexivity|exact I]).
  - destruct items as [|choice items]; [eexists; split; [reflexivity|exact I]|].
    cbn [getitem_0].
    destruct choice as [| | | | |cm]; try (eexists; split; [reflexivity|exact I]).
    destruct (assoc (py "message") cm) as [msg|];
      [|eexists; split; [reflexivity|exact I]].
    destruct msg as [| | | | |mm]; try (eexists; split; [reflexivity|exact I]).
    destruct (assoc (py "content") mm) as [c|];
      [|eexists; split; [reflexivity|exact I]].
    destruct c; try (eexists; split; [reflexivity|exact I]).
    reflexivity.
Qed.

Section ChatClaims.
Context (cfg : config) (rt : runtime).

Lemma chat_run (prompt model : str) (w : world) :
  chat cfg rt prompt model w =
  (match completion_of (httpx_post rt (completion_url cfg)
                          (completion_payload prompt model) 120) with
   | Ok t => Ok {| provider := py "lmstudio"; model := model; text := t |}
   | Raise e => Raise (HTTPException 500 (py "LM Studio error: " ++ exn_str rt e))
   end,
   add_trace w [HttpPost (completion_url cfg) (completion_payload prompt model) 120]).
Proof.
  unfold chat, try_except. rewrite bind_run, lm_completion_run.
  destruct (completion_of _); reflexivity.
Qed.

(** C3.  [/chat] makes exactly one upstream call: a POST of a non-streaming
    request at temperature 0.2 whose only message is the user's prompt.
    It then either returns [{provider, model, text}] with [text] the
    content of the first choice of the 2xx JSON answer without the white
    space at its two ends (the content is white space, then [text], then
    white space, and [text] neither starts nor ends with white space), or
    raises one backend error (status 500) carrying the cause: the
    transport's exception, the non-2xx status, the undecodable body, or the
    failed look-up in the answer.  Nothing else is called; there is no
    retry. *)
Theorem chat_one_call_or_error (prompt model : str) (w : world) :
  let url := LMSTUDIO_URL cfg ++ py "/v1/chat/completions" in
  let payload :=
    {| payload_model := model;
       messages := [ {| role := py "user"; content := prompt |} ];
       temperature := 2 # 10;
       stream := false |} in
  let backend_error e :=
    Raise (HTTPException 500 (py "LM Studio error: " ++ exn_str rt e)) in
  files (snd (chat cfg rt prompt model w)) = files w
  /\ trace (snd (chat cfg rt prompt model w)) = trace w ++ [HttpPost url payload 120]
  /\ match httpx_post rt url payload 120 with
     | HttpRaises e => fst (chat cfg rt prompt model w) = backend_error e
     | HttpResponse st b =>
         if ((200 <=? st) && (st <=? 299))%Z then
           match b with
           | None => fst (chat cfg rt prompt model w) = backend_error JSONDecodeError
           | Some data =>
               match first_choice_content data with
               | Some c =>
                   exists t l r,
                     fst (chat cfg rt prompt model w) =
                     Ok {| provider := py "lmstudio"; model := model; text := t |}
                     /\ c = l ++ t ++ r
                     /\ forallb is_space l = true /\ forallb is_space r = true
                     /\ match t with x :: _ => is_space x = false | [] => True end
                     /\ match last t with
                        | Some x => is_space x = false
                        | None => True
                        end
               | None =>
                   exists e, lookup_error e /\
                             fst (chat cfg rt prompt model w) = backend_error e
               end
           end
         else fst (chat cfg rt prompt model w) = backend_error (HTTPStatusError st)
     end.
Proof.
  intros url payload backend_error. rewrite chat_run.
  change (completion_url cfg) with url.
  change (completion_payload prompt model) with payload.
  split; [reflexivity|]. split; [reflexivity|]. cbn [fst].
  destruct (httpx_post rt url payload 120) as [e|st b] eqn:Hpost; [reflexivity|].
  destruct ((200 <=? st)%Z && (st <=? 299)%Z) eqn:Hst.
  - destruct b as [data|].
    + pose proof (completion_of_content st data Hst) as Hc.
      destruct (first_choice_content data) as [c|].
      * rewrite Hc. destruct (strip_spec c) as (l & r & Hsplit & Hl & Hr & Hhead & Hlast).
        exists (strip c), l, r. split; [reflexivity|]. split; [exact Hsplit|].
        split; [exact Hl|]. split; [exact Hr|]. split; [exact Hhead | exact Hlast].
      * destruct Hc as (e & -> & He). exists e. split; [exact He | reflexivity].
    + unfold completion_of. rewrite Hst. reflexivity.
  - unfold completion_of. rewrite Hst. reflexivity.
Qed.

Lemma piper_configured_run (w : world) :
  piper_configured cfg w =
  (Ok (truthy_opt (PIPER_BIN cfg) && truthy (PIPER_VOICE cfg)
       && bool_decide (is_Some (files w !! PIPER_VOICE cfg))), w).
Proof.
  unfold piper_configured, path_exists, ret.
  destruct (truthy_opt (PIPER_BIN cfg) && truthy (PIPER_VOICE cfg)); reflexivity.
Qed.

Lemma truthy_opt_true (o : option str) :
  truthy_opt o = true <-> exists p, o = Some p /\ p <> [].
Proof.
  destruct o as [[|c p]|]; simpl; split; try discriminate.
  - intros (p & [= <-] & Hp). congruence.
  - intros _. eexists. split; [reflexivity | discriminate].
  - intros (p' & [= <-] & _). reflexivity.
  - intros (p & Hp & _). discriminate.
Qed.

Lemma truthy_true (s : str) : truthy s = true <-> s <> [].
Proof. destruct s; simpl; split; congruence. Qed.

(** C6.  [/health] never raises.  It makes one GET to the model listing
    (timeout 3).  The chat backend is reported reachable exactly when the
    probe answered with status 200; an exception gives the note
    "error: ..." and another status the note "HTTP <status>".  Synthesis
    is reported ready exactly when the synthesizer was resolved, a voice
    path is configured and that path exists in the file system now.
    Transcription is always reported ready. *)
Theorem health_never_raises (w : world) :
  let url := LMSTUDIO_URL cfg ++ py "/v1/models" in
  exists report,
    health cfg rt w = (Ok report, add_trace w [HttpGet url 3])
    /\ (lm_ok (lm_studio report) = true <->
        exists b, httpx_get rt url 3 = HttpResponse 200 b)
    /\ lm_note (lm_studio report) =
       match httpx_get rt url 3 with
       | HttpRaises e => py "error: " ++ exn_str rt e
       | HttpResponse st _ =>
           if (st =? 200)%Z then py "ok" else py "HTTP " ++ str_of_Z st
       end
    /\ (piper_ok (piper report) = true <->
        (exists p, PIPER_BIN cfg = Some p /\ p <> [])
        /\ PIPER_VOICE cfg <> []
        /\ is_Some (files w !! PIPER_VOICE cfg))
    /\ whisper_ok (whisper report) = true.
Proof.
  intros url. unfold health, try_except, get. fold url.
  rewrite !bind_run, log_run.
  assert (Hpiper : forall w0,
    (truthy_opt (PIPER_BIN cfg) && truthy (PIPER_VOICE cfg)
     && bool_decide (is_Some (files w0 !! PIPER_VOICE cfg)) = true) <->
    ((exists p, PIPER_BIN cfg = Some p /\ p <> [])
     /\ PIPER_VOICE cfg <> [] /\ is_Some (files w0 !! PIPER_VOICE cfg))).
  { intros w0. rewrite !andb_true_iff, truthy_opt_true, truthy_true,
      bool_decide_eq_true. tauto. }
  destruct (httpx_get rt url 3) as [e|st b] eqn:Hget.
  - unfold raise, ret. cbv beta iota.
    rewrite bind_run, piper_configured_run. unfold ret. cbv beta iota.
    eexists. split; [reflexivity|].
    cbn [lm_ok lm_note lm_studio piper piper_ok whisper whisper_ok fst snd].
    split; [split; [discriminate | intros (b & Hb); discriminate]|].
    split; [reflexivity|]. split; [apply (Hpiper w) | reflexivity].
  - unfold ret. cbv beta iota. cbn [status_code].
    rewrite bind_run, piper_configured_run. unfold ret. cbv beta iota.
    eexists. split; [reflexivity|].
    cbn [lm_ok lm_note lm_studio piper piper_ok whisper whisper_ok fst snd].
    split; [|split; [reflexivity | split; [apply (Hpiper w) | reflexivity]]].
    split.
    + intros H200. apply Z.eqb_eq in H200. subst st. exists b. reflexivity.
    + intros (b' & [= -> _]). reflexivity.
Qed.
End ChatClaims.

(** ** Temporary files *)

(** The end of a run: reduce what is left and compare the worlds. *)
Ltac leaf :=
  cbv beta iota; unfold raise, ret, add_trace; cbn [files names trace];
  cbv beta iota; rewrite <- ?app_assoc; reflexivity.

(** One step of a handler: open a bind, record a logged effect, reduce. *)
Ltac run :=
  repeat (first [rewrite bind_run | rewrite log_run]; cbv beta iota).

Section Files.
Context (rt : runtime).

(** The name that [tempfile] settles on is not the name of a file, it ends
    with the requested suffix, and the operating system had no objection to
    it. *)
Lemma mkstemp_inner_fresh (candidates : list str) (fs : gmap str bytes)
      (suffix path : str) (rest : list str) :
  mkstemp_inner rt candidates fs suffix = (Ok path, rest) ->
  fs !! path = None /\ suffix `suffix_of` path
  /\ os_open_error rt path fs = None.
Proof.
  induction candidates as [|name more IH]; [discriminate|].
  cbn [mkstemp_inner]. unfold os_open_excl.
  destruct (fs !! (tempdir rt ++ py "/" ++ py "tmp" ++ name ++ suffix)) eqn:E.
  - exact IH.
  - destruct (os_open_error rt (tempdir rt ++ py "/" ++ py "tmp" ++ name ++ suffix)
                            fs) as [e|] eqn:Hopen.
    + destruct e; cbv beta iota; first [exact IH | intros H; discriminate H].
    + intros [= <- <-]. split; [exact E|]. split; [|exact Hopen].
      exists (tempdir rt ++ py "/" ++ py "tmp" ++ name).
      rewrite <- !app_assoc. reflexivity.
Qed.

Lemma NamedTemporaryFile_run (suffix : option str) (w : world) :
  NamedTemporaryFile rt suffix w =
  match mkstemp_inner rt (names w) (files w) (default [] suffix) with
  | (Raise e, rest) =>
      (Raise e, {| files := files w; names := rest; trace := trace w |})
  | (Ok file, rest) =>
      (Ok file, {| files := <[file := []]> (files w); names := rest;
                   trace := trace w ++ [MkTemp file] |})
  end.
Proof. reflexivity. Qed.

Lemma write_file_run (path : str) (data : bytes) (w : world) :
  write_file path data w =
  (Ok tt, {| files := <[path := data]> (files w); names := names w;
             trace := trace w ++ [WriteFile path data] |}).
Proof. reflexivity. Qed.

Lemma unlink_run (path : str) (w : world) :
  unlink path w =
  match files w !! path with
  | Some _ => (Ok tt, {| files := delete path (files w); names := names w;
                         trace := trace w ++ [Unlink path] |})
  | None => (Raise (FileNotFoundError path), add_trace w [Unlink path])
  end.
Proof.
  unfold unlink, get_files. run. cbn [add_trace files].
  destruct (files w !! path); reflexivity.
Qed.

Lemma read_file_run (path : str) (w : world) :
  read_file path w =
  (match files w !! path with
   | Some data => Ok data
   | None => Raise (FileNotFoundError path)
   end, add_trace w [ReadFile path]).
Proof.
  unfold read_file, get_files. run. cbn [add_trace files].
  destruct (files w !! path); reflexivity.
Qed.

Lemma transcribe_run (path language : str) (vad_filter : bool) (w : world) :
  transcribe rt path language vad_filter w =
  (match whisper_transcribe rt path (files w !! path) language vad_filter with
   | TranscribeRaises e => Raise e
   | Transcribed segments info => Ok (segments, info)
   end, add_trace w [Transcribe path language vad_filter]).
Proof.
  unfold transcribe, get_files. run. cbn [add_trace files].
  destruct (whisper_transcribe _ _ _ _ _); reflexivity.
Qed.

Lemma subprocess_run_run (argv : list str) (w : world) :
  subprocess_run rt argv w =
  match subprocess_exec rt argv (files w) with
  | SpawnFails e => (Raise e, add_trace w [RunProcess argv])
  | Exits returncode fs' =>
      (if (returncode =? 0)%Z then Ok tt
       else Raise (CalledProcessError returncode argv),
       {| files := fs'; names := names w; trace := trace w ++ [RunProcess argv] |})
  end.
Proof.
  unfold subprocess_run, get_files. run. cbn [add_trace files].
  destruct (subprocess_exec _ _ _) as [e|code fs']; [reflexivity|].
  unfold set_files. run. cbn [files names trace].
  destruct (code =? 0)%Z; reflexivity.
Qed.

(** Staging an upload: the [with NamedTemporaryFile(...)] block of [/stt]
    and [/voice-chat]. *)
Lemma staging_run (file : UploadFile) (w : world) :
  (tmp <- NamedTemporaryFile rt (filename file) ;;
   let raw := upload file in
   write_file tmp raw ;;
   ret tmp) w =
  match mkstemp_inner rt (names w) (files w) (default [] (filename file)) with
  | (Raise e, rest) =>
      (Raise e, {| files := files w; names := rest; trace := trace w |})
  | (Ok path, rest) =>
      (Ok path, {| files := <[path := upload file]> (files w); names := rest;
                   trace := trace w ++ [MkTemp path; WriteFile path (upload file)] |})
  end.
Proof.
  rewrite bind_run, NamedTemporaryFile_run.
  destruct (mkstemp_inner rt _ _ _) as [[e|path] rest]; [reflexivity|].
  cbv zeta. rewrite bind_run, write_file_run. unfold ret.
  cbn [files names trace]. rewrite insert_insert_eq, <- app_assoc. reflexivity.
Qed.

Lemma delete_staged (fs : gmap str bytes) (path : str) (data : bytes) :
  fs !! path = None -> delete path (<[path := data]> fs) = fs.
Proof. intros Hfresh. rewrite delete_insert_eq. apply delete_id. exact Hfresh. Qed.
End Files.

(** ** [/stt] *)

Section SttClaims.
Context (rt : runtime).

(** X20.  Once a name for the temporary file is settled, [/stt] stages the
    uploaded bytes in a new file whose name is the name of no existing file
    and ends with the upload's file name (hence with its extension), and
    calls the transcriber on it with the VAD filter on.  When that call
    returns, the file is deleted right after it, before the segments are
    read, so also when reading them fails; the answer is then the
    concatenated segment texts, trimmed, with the language and duration of
    the transcription.  When the call raises, the request fails with that
    exception and the [unlink] is not reached. *)
Theorem stt_staging_and_cleanup (file : UploadFile) (language : str) (w : world)
        (path : str) (rest : list str) :
  mkstemp_inner rt (names w) (files w) (default [] (filename file))
  = (Ok path, rest) ->
  files w !! path = None
  /\ default [] (filename file) `suffix_of` path
  /\ match whisper_transcribe rt path (Some (upload file)) language true with
     | Transcribed segments info =>
         snd (stt rt file language w) =
         {| files := files w; names := rest;
            trace := trace w ++ [MkTemp path; WriteFile path (upload file);
                                 Transcribe path language true; Unlink path] |}
         /\ fst (stt rt file language w) =
            match seg_failure segments with
            | Some e => Raise e
            | None =>
                Ok {| stt_text := strip (join [] (seg_texts segments));
                      stt_language := info_language info;
                      stt_duration := info_duration info |}
            end
     | TranscribeRaises e =>
         snd (stt rt file language w) =
         {| files := <[path := upload file]> (files w); names := rest;
            trace := trace w ++ [MkTemp path; WriteFile path (upload file);
                                 Transcribe path language true] |}
         /\ fst (stt rt file language w) = Raise e
     end.
Proof.
  intros Hmk.
  destruct (mkstemp_inner_fresh rt _ _ _ _ _ Hmk) as (Hfresh & Hsuffix & _).
  split; [exact Hfresh|]. split; [exact Hsuffix|].
  unfold stt. rewrite bind_run, staging_run, Hmk. cbv beta iota.
  rewrite bind_run, transcribe_run. cbn [files]. rewrite lookup_insert_eq.
  destruct (whisper_transcribe rt path (Some (upload file)) language true)
    as [e|segments info].
  - cbv beta iota. cbn [fst snd]. unfold add_trace. cbn [files names trace].
    rewrite <- app_assoc. split; reflexivity.
  - cbv beta iota. rewrite bind_run, unlink_run.
    unfold add_trace. cbn [files names trace]. rewrite lookup_insert_eq.
    cbv beta iota.
    rewrite (delete_staged _ _ _ Hfresh), <- !app_assoc.
    rewrite bind_run. unfold join_segments. cbn [fst snd].
    destruct (seg_failure segments); split; reflexivity.
Qed.
End SttClaims.

Lemma stt_staging_and_cleanup_witness :
  mkstemp_inner (answering hello_reply) (names world_bare) (files world_bare)
                (default [] (filename clip))
  = (Ok (py "/tmp/tmpk3x9ab12clip.webm"), [py "q7w1zz00"])
  /\ files (snd (stt (answering hello_reply) clip (py "en") world_bare))
     !! py "/tmp/tmpk3x9ab12clip.webm" = None
  /\ fst (stt (answering hello_reply) clip (py "en") world_bare)
     = Ok {| stt_text := py "Hello"; stt_language := py "en"; stt_duration := 3 # 2 |}.
Proof.
  assert (H : mkstemp_inner (answering hello_reply) (names world_bare)
                            (files world_bare) (default [] (filename clip))
              = (Ok (py "/tmp/tmpk3x9ab12clip.webm"), [py "q7w1zz00"]))
    by (vm_compute; reflexivity).
  destruct (stt_staging_and_cleanup (answering hello_reply) clip (py "en")
              world_bare _ _ H) as (_ & _ & Hrun).
  cbn [whisper_transcribe answering sample_rt heard_text] in Hrun.
  destruct Hrun as [Hw Hr].
  split; [exact H|]. split.
  - rewrite Hw. reflexivity.
  - rewrite Hr. reflexivity.
Defined.

(** C7.  The claim is that the staged file is deleted on every exit path.
    The code reaches [os.unlink] only when [whisper.transcribe] returns:
    for an upload that the transcriber rejects, the request fails with the
    transcriber's exception and the staged file, with the uploaded bytes,
    is still in the file system afterwards (nothing was unlinked). *)
Lemma stt_engine_failure_leaves_file :
  fst (stt deaf clip (py "en") world_bare)
  = Raise (EngineError (py "Invalid data found when processing input"))
  /\ files (snd (stt deaf clip (py "en") world_bare))
     !! py "/tmp/tmpk3x9ab12clip.webm" = Some (upload clip)
  /\ trace (snd (stt deaf clip (py "en") world_bare))
     = [MkTemp (py "/tmp/tmpk3x9ab12clip.webm");
        WriteFile (py "/tmp/tmpk3x9ab12clip.webm") (upload clip);
        Transcribe (py "/tmp/tmpk3x9ab12clip.webm") (py "en") true].
Proof. split; [|split]; vm_compute; reflexivity. Qed.

(** ** [/tts]: the streamed file *)

Lemma wav_chunk_pos : 0 < 8192.
Proof. apply Nat.ltb_lt. vm_compute. reflexivity. Qed.

Lemma take_nil_inv {A} (n : nat) (l : list A) : 0 < n -> take n l = [] -> l = [].
Proof. destruct n; [lia|]. destruct l; [reflexivity | discriminate]. Qed.

Lemma drop_past_chunk {A} (n pos : nat) (data : list A) :
  drop (pos + length (take n (drop pos data))) data = drop n (drop pos data).
Proof.
  rewrite drop_drop, length_take, length_drop.
  destruct (le_lt_dec n (length data - pos)) as [Hle|Hlt].
  - f_equal. lia.
  - rewrite !drop_ge by lia. reflexivity.
Qed.

Section WavIter.
Variable wav_path : str.
Variable data : bytes.

(** One [next] on the open file: the next 8192 bytes, or the end. *)
Lemma wav_iter_next_open (pos : nat) (w : world) (x : bytes) :
  files w !! wav_path = Some x ->
  wav_iter_next wav_path (WavOpen data pos) w =
  match drop pos data with
  | [] => (Ok (None, WavDone),
           {| files := delete wav_path (files w); names := names w;
              trace := trace w ++ [ReadFile wav_path; Unlink wav_path] |})
  | _ => (Ok (Some (take 8192 (drop pos data)),
              WavOpen data (pos + length (take 8192 (drop pos data)))),
          add_trace w [ReadFile wav_path])
  end.
Proof.
  intros Hfile. unfold wav_iter_next. run.
  destruct (drop pos data) as [|b rest] eqn:Hrest.
  - rewrite take_nil. run. rewrite unlink_run. unfold add_trace.
    cbn [files names trace]. rewrite Hfile. cbv beta iota.
    unfold ret. rewrite <- app_assoc. reflexivity.
  - destruct (take 8192 (b :: rest)) as [|b' chunk] eqn:Hchunk.
    + apply take_nil_inv in Hchunk; [discriminate | exact wav_chunk_pos].
    + reflexivity.
Qed.

Lemma wav_iter_next_new (w : world) :
  files w !! wav_path = Some data ->
  wav_iter_next wav_path WavNew w = wav_iter_next wav_path (WavOpen data 0) w.
Proof.
  intros Hfile. unfold wav_iter_next at 1. unfold get_files. run.
  rewrite Hfile. reflexivity.
Qed.

(** While chunks remain, [k] calls hand over the first [k] of them and leave
    the file system as it was. *)
Lemma consume_open_prefix (k pos : nat) (w : world) :
  is_Some (files w !! wav_path) ->
  k <= length (chunks_of 8192 (drop pos data)) ->
  exists st,
    consume wav_path k (WavOpen data pos) w =
    (Ok (take k (chunks_of 8192 (drop pos data)), st),
     {| files := files w; names := names w;
        trace := trace w ++ repeat (ReadFile wav_path) k |}).
Proof.
  revert pos w. induction k as [|k IH]; intros pos w [x Hfile] Hk.
  - exists (WavOpen data pos). cbn [consume repeat]. unfold ret.
    rewrite app_nil_r. destruct w; reflexivity.
  - cbn [consume]. rewrite bind_run, (wav_iter_next_open pos w x Hfile).
    destruct (drop pos data) as [|b rest] eqn:Hrest.
    + rewrite chunks_of_nil in Hk by exact wav_chunk_pos. cbn [length] in Hk. lia.
    + rewrite <- Hrest in *. cbv beta iota. cbn [fst snd].
      rewrite chunks_of_cons in Hk |- * by (exact wav_chunk_pos || (rewrite Hrest; discriminate)).
      cbn [length] in Hk.
      destruct (IH (pos + length (take 8192 (drop pos data)))
                   (add_trace w [ReadFile wav_path])) as [st Hst].
      * exists x. exact Hfile.
      * rewrite drop_past_chunk. lia.
      * rewrite drop_past_chunk in Hst.
        exists st. rewrite bind_run, Hst. unfold ret, add_trace.
        cbn [files names trace fst snd repeat].
        rewrite <- app_assoc. reflexivity.
Qed.

(** One call more than there are chunks hands over all of them, and that
    last call unlinks the file. *)
Lemma consume_open_all (k pos : nat) (w : world) (x : bytes) :
  files w !! wav_path = Some x ->
  length (chunks_of 8192 (drop pos data)) < k ->
  consume wav_path k (WavOpen data pos) w =
  (Ok (chunks_of 8192 (drop pos data), WavDone),
   {| files := delete wav_path (files w); names := names w;
      trace := trace w
               ++ repeat (ReadFile wav_path)
                         (S (length (chunks_of 8192 (drop pos data))))
               ++ [Unlink wav_path] |}).
Proof.
  revert pos w. induction k as [|k IH]; intros pos w Hfile Hk; [lia|].
  cbn [consume]. rewrite bind_run, (wav_iter_next_open pos w x Hfile).
  destruct (drop pos data) as [|b rest] eqn:Hrest.
  - rewrite chunks_of_nil by exact wav_chunk_pos. cbv beta iota. cbn [fst snd]. reflexivity.
  - rewrite <- Hrest in *. cbv beta iota. cbn [fst snd].
    rewrite chunks_of_cons in Hk |- * by (exact wav_chunk_pos || (rewrite Hrest; discriminate)).
    cbn [length] in Hk.
    rewrite bind_run.
    rewrite (IH (pos + length (take 8192 (drop pos data)))
                (add_trace w [ReadFile wav_path]) Hfile)
      by (rewrite drop_past_chunk; lia).
    rewrite drop_past_chunk.
    unfold ret, add_trace. cbn [files names trace fst snd length repeat].
    rewrite <- !app_assoc. reflexivity.
Qed.
End WavIter.

Lemma consume_new (wav_path : str) (data : bytes) (k : nat) (w : world) :
  files w !! wav_path = Some data ->
  consume wav_path (S k) WavNew w = consume wav_path (S k) (WavOpen data 0) w.
Proof.
  intros Hfile. cbn [consume]. rewrite !bind_run.
  rewrite (wav_iter_next_new wav_path data w Hfile). reflexivity.
Qed.

(** C8.  Let the synthesizer's output file hold [content], and let the
    consumer of [wav_iter] call [next] again and again.  The chunks it gets
    are the 8192-byte pieces of [content], in order: their concatenation is
    [content], there are ceil(len/8192) of them, none is empty and only the
    last may be shorter than 8192.  As long as the consumer has asked for no
    more than these chunks the file system is untouched, so the file is
    still there when the last byte is handed over; the call after that
    finds the end of the file, unlinks it and stops the generator. *)
Theorem wav_iter_streams_file (wav_path : str) (content : bytes) (w : world) :
  files w !! wav_path = Some content ->
  let chunks := chunks_of 8192 content in
  let n := length chunks in
  concat chunks = content
  /\ n = (length content + 8191) / 8192
  /\ (forall i c, chunks !! i = Some c ->
                  0 < length c <= 8192 /\ (S i < n -> length c = 8192))
  /\ (forall k, k <= n ->
        exists st,
          consume wav_path k WavNew w =
          (Ok (take k chunks, st),
           {| files := files w; names := names w;
              trace := trace w ++ repeat (ReadFile wav_path) k |}))
  /\ (forall k, n < k ->
        consume wav_path k WavNew w =
        (Ok (chunks, WavDone),
         {| files := delete wav_path (files w); names := names w;
            trace := trace w ++ repeat (ReadFile wav_path) (S n)
                     ++ [Unlink wav_path] |})).
Proof.
  intros Hfile chunks n. subst chunks n.
  split; [apply chunks_of_concat, wav_chunk_pos|].
  split; [apply chunks_of_length|].
  split; [intros i c Hc; apply (chunks_of_sizes 8192 wav_chunk_pos content i c Hc)|].
  split.
  - intros [|k] Hk.
    + exists WavNew. cbn [consume take repeat]. unfold ret.
      rewrite app_nil_r. destruct w; reflexivity.
    + rewrite (consume_new wav_path content k w Hfile).
      apply (consume_open_prefix wav_path content (S k) 0 w); [eauto|].
      rewrite drop_0. exact Hk.
  - intros [|k] Hk; [lia|].
    rewrite (consume_new wav_path content k w Hfile).
    rewrite (consume_open_all wav_path content (S k) 0 w content Hfile)
      by (rewrite drop_0; exact Hk).
    rewrite drop_0. reflexivity.
Qed.

Lemma wav_iter_streams_file_witness :
  files (sample_world {[ py "/tmp/tmpk3x9ab12.wav" := b64_alphabet ]})
  !! py "/tmp/tmpk3x9ab12.wav" = Some b64_alphabet
  /\ fst (consume (py "/tmp/tmpk3x9ab12.wav") 2 WavNew
            (sample_world {[ py "/tmp/tmpk3x9ab12.wav" := b64_alphabet ]}))
     = Ok ([b64_alphabet], WavDone).
Proof.
  assert (H : files (sample_world {[ py "/tmp/tmpk3x9ab12.wav" := b64_alphabet ]})
              !! py "/tmp/tmpk3x9ab12.wav" = Some b64_alphabet)
    by (vm_compute; reflexivity).
  split; [exact H|].
  destruct (wav_iter_streams_file _ _ _ H) as (_ & _ & _ & _ & Hall).
  rewrite (Hall 2) by (vm_compute; lia).
  vm_compute. reflexivity.
Defined.

Example wav_iter_two_chunks :
  map length (chunks_of 8192 (repeat Byte.x00 8193)) = [8192; 1].
Proof. vm_compute. reflexivity. Qed.

(** ** Base64 *)

Lemma list_triple_ind {A} (P : list A -> Prop) :
  P [] ->
  (forall a, P [a]) ->
  (forall a b, P [a; b]) ->
  (forall a b c l, P l -> P (a :: b :: c :: l)) ->
  forall l, P l.
Proof.
  intros H0 H1 H2 H3 l.
  assert (H : P l /\ (forall a, P (a :: l)) /\ (forall a b, P (a :: b :: l))).
  { induction l as [|x l (IH0 & IH1 & IH2)].
    - auto.
    - split; [apply IH1|]. split; [intros a; apply IH2|].
      intros a b. apply H3. exact IH0. }
  exact (proj1 H).
Qed.

Lemma sextets_ok : forallb sextet_ok (map N.of_nat (seq 0 64)) = true.
Proof. vm_compute. reflexivity. Qed.

(** Every 6-bit value has its own character, which is ASCII and is not the
    padding character. *)
Lemma b64_char_value (n : N) :
  (n < 64)%N ->
  b64_value (Z.of_N (Byte.to_N (b64_char n))) = Some n
  /\ (Z.of_N (Byte.to_N (b64_char n)) =? 61)%Z = false
  /\ (Byte.to_N (b64_char n) <? 128)%N = true.
Proof.
  intros Hn. pose proof sextets_ok as Hall.
  rewrite forallb_forall in Hall.
  assert (Hin : In n (map N.of_nat (seq 0 64))).
  { apply in_map_iff. exists (N.to_nat n). split; [apply N2Nat.id|].
    apply in_seq. lia. }
  specialize (Hall n Hin). unfold sextet_ok in Hall.
  apply andb_true_iff in Hall as [Hall Hascii].
  apply andb_true_iff in Hall as [Hval Hpad].
  destruct (b64_value _) as [m|]; [|discriminate].
  apply N.eqb_eq in Hval. subst m.
  apply negb_true_iff in Hpad. auto.
Qed.

Lemma bytes_of_to_N (l : bytes) : bytes_of_N (map Byte.to_N l) = Some l.
Proof.
  unfold bytes_of_N. induction l as [|x l IH]; [reflexivity|].
  cbn [map mapM]. rewrite Byte.of_to_N. cbn. rewrite IH. reflexivity.
Qed.

Lemma sextets_small (a b c : N) :
  (a < 256 -> b < 256 -> c < 256 ->
   a / 4 < 64 /\ (a mod 4) * 16 + b / 16 < 64
   /\ (b mod 16) * 4 + c / 64 < 64 /\ c mod 64 < 64)%N.
Proof. intros Ha Hb Hc. repeat split; zify; euclid. Qed.

Lemma sextets_first (a b : N) :
  (a < 256 -> b < 256 ->
   a / 4 * 4 + ((a mod 4) * 16 + b / 16) / 16 = a)%N.
Proof. intros Ha Hb. zify; euclid. Qed.

Lemma sextets_second (a b c : N) :
  (a < 256 -> b < 256 -> c < 256 ->
   (((a mod 4) * 16 + b / 16) mod 16) * 16 + ((b mod 16) * 4 + c / 64) / 4 = b)%N.
Proof. intros Ha Hb Hc. zify; euclid. Qed.

Lemma sextets_third (b c : N) :
  (b < 256 -> c < 256 ->
   (((b mod 16) * 4 + c / 64) mod 4) * 64 + c mod 64 = c)%N.
Proof. intros Hb Hc. zify; euclid. Qed.

Lemma to_N_small (x : Byte.byte) : (Byte.to_N x < 256)%N.
Proof. pose proof (Byte.to_N_bounded x). lia. Qed.

(** A full group of four characters decodes to its three bytes. *)
Lemma b64_group_full (x y z : Byte.byte) (last : bool) :
  match map (fun s => Z.of_N (Byte.to_N (b64_char s)))
            (b64_sextets (Byte.to_N x) (Byte.to_N y) (Byte.to_N z)) with
  | [c1; c2; c3; c4] => b64_group c1 c2 c3 c4 last = Some [x; y; z]
  | _ => False
  end.
Proof.
  unfold b64_sextets. cbn [map].
  destruct (sextets_small _ _ _ (to_N_small x) (to_N_small y) (to_N_small z))
    as (H1 & H2 & H3 & H4).
  destruct (b64_char_value _ H1) as (V1 & _ & _).
  destruct (b64_char_value _ H2) as (V2 & _ & _).
  destruct (b64_char_value _ H3) as (V3 & P3 & _).
  destruct (b64_char_value _ H4) as (V4 & P4 & _).
  unfold b64_group. rewrite V1, V2, P3, V3, P4, V4.
  rewrite (sextets_first _ _ (to_N_small x) (to_N_small y)).
  rewrite (sextets_second _ _ _ (to_N_small x) (to_N_small y) (to_N_small z)).
  rewrite (sextets_third _ _ (to_N_small y) (to_N_small z)).
  apply (bytes_of_to_N [x; y; z]).
Qed.

(** A last group with one padding character decodes to its two bytes. *)
Lemma b64_group_two (x y : Byte.byte) :
  match map (fun s => Z.of_N (Byte.to_N (b64_char s)))
            (take 3 (b64_sextets (Byte.to_N x) (Byte.to_N y) 0)) with
  | [c1; c2; c3] => b64_group c1 c2 c3 61 true = Some [x; y]
  | _ => False
  end.
Proof.
  unfold b64_sextets. cbn [map take].
  assert (H0 : (0 < 256)%N) by lia.
  destruct (sextets_small _ _ _ (to_N_small x) (to_N_small y) H0)
    as (H1 & H2 & H3 & _).
  destruct (b64_char_value _ H1) as (V1 & _ & _).
  destruct (b64_char_value _ H2) as (V2 & _ & _).
  destruct (b64_char_value _ H3) as (V3 & P3 & _).
  unfold b64_group. rewrite V1, V2, P3, V3. cbn [Z.eqb Pos.eqb].
  rewrite (sextets_first _ _ (to_N_small x) (to_N_small y)).
  rewrite (sextets_second _ _ _ (to_N_small x) (to_N_small y) H0).
  apply (bytes_of_to_N [x; y]).
Qed.

(** A last group with two padding characters decodes to its one byte. *)
Lemma b64_group_one (x : Byte.byte) :
  match map (fun s => Z.of_N (Byte.to_N (b64_char s)))
            (take 2 (b64_sextets (Byte.to_N x) 0 0)) with
  | [c1; c2] => b64_group c1 c2 61 61 true = Some [x]
  | _ => False
  end.
Proof.
  unfold b64_sextets. cbn [map take].
  assert (H0 : (0 < 256)%N) by lia.
  destruct (sextets_small _ _ _ (to_N_small x) H0 H0) as (H1 & H2 & _).
  destruct (b64_char_value _ H1) as (V1 & _ & _).
  destruct (b64_char_value _ H2) as (V2 & _ & _).
  unfold b64_group. rewrite V1, V2. cbn [Z.eqb Pos.eqb andb].
  rewrite (sextets_first _ _ (to_N_small x) H0).
  apply (bytes_of_to_N [x]).
Qed.

(** Decoding undoes encoding. *)
Lemma b64decode_b64encode (data : bytes) :
  b64decode (ascii_str (b64encode data)) = Some data.
Proof.
  induction data as [|x|x y|x y z rest IH] using list_triple_ind.
  - reflexivity.
  - pose proof (b64_group_one x) as H. cbn [b64encode].
    unfold ascii_str. rewrite map_app.
    destruct (map _ (take 2 _)) as [|c1 [|c2 [|]]]; try contradiction.
    cbn [map app b64decode].
    change (Z.of_N (Byte.to_N b64_pad)) with 61%Z.
    rewrite bool_decide_eq_true_2 by reflexivity. rewrite H. reflexivity.
  - pose proof (b64_group_two x y) as H. cbn [b64encode].
    unfold ascii_str. rewrite map_app.
    destruct (map _ (take 3 _)) as [|c1 [|c2 [|c3 [|]]]]; try contradiction.
    cbn [map app b64decode].
    change (Z.of_N (Byte.to_N b64_pad)) with 61%Z.
    rewrite bool_decide_eq_true_2 by reflexivity. rewrite H. reflexivity.
  - cbn [b64encode]. unfold ascii_str in *. rewrite map_app, map_map.
    pose proof (fun last => b64_group_full x y z last) as H.
    destruct (map _ (b64_sextets _ _ _)) as [|c1 [|c2 [|c3 [|c4 [|]]]]];
      try (exfalso; exact (H true)).
    cbn [app b64decode]. rewrite H, IH. reflexivity.
Qed.

(** The encoding is ASCII, so [.decode("ascii")] never raises on it. *)
Lemma b64encode_ascii (data : bytes) :
  forallb (fun x => (Byte.to_N x <? 128)%N) (b64encode data) = true.
Proof.
  assert (Hchar : forall s, (Byte.to_N (b64_char s) <? 128)%N = true).
  { intros s. unfold b64_char.
    destruct (nth_in_or_default (N.to_nat s) b64_alphabet Byte.x00) as [Hin| ->];
      [|reflexivity].
    assert (Hall : forallb (fun x => (Byte.to_N x <? 128)%N) b64_alphabet = true)
      by (vm_compute; reflexivity).
    rewrite forallb_forall in Hall. apply Hall, Hin. }
  induction data as [|x|x y|x y z rest IH] using list_triple_ind.
  - reflexivity.
  - cbn [b64encode b64_sextets map take]. unfold b64_sextets. cbn [map take app forallb].
    rewrite !Hchar. reflexivity.
  - cbn [b64encode]. unfold b64_sextets. cbn [map take app forallb].
    rewrite !Hchar. reflexivity.
  - cbn [b64encode]. unfold b64_sextets. cbn [map app forallb].
    rewrite !Hchar, IH. reflexivity.
Qed.

Lemma decode_ascii_b64encode (data : bytes) :
  decode_ascii (b64encode data) = Ok (ascii_str (b64encode data)).
Proof. unfold decode_ascii. rewrite b64encode_ascii. reflexivity. Qed.

(** ** [/voice-chat] and [/tts] *)

Lemma ceil_third_step (n : nat) : (S (S (S n)) + 2) / 3 = S ((n + 2) / 3).
Proof.
  replace (S (S (S n)) + 2) with ((n + 2) + 1 * 3) by lia.
  rewrite Nat.div_add by lia. lia.
Qed.

Lemma b64encode_length (data : bytes) :
  length (b64encode data) = 4 * ((length data + 2) / 3).
Proof.
  induction data as [|x|x y|x y z rest IH] using list_triple_ind;
    try reflexivity.
  cbn [b64encode]. rewrite length_app, IH. cbn [length].
  rewrite ceil_third_step. unfold b64_sextets. cbn [map length]. lia.
Qed.

Section VoiceChat.
Context (cfg : config) (rt : runtime).

Lemma piper_configured_ready (w : world) :
  piper_configured cfg w = (Ok (piper_ready cfg (files w)), w).
Proof. apply piper_configured_run. Qed.

(** The run of [/voice-chat], stage by stage. *)
Lemma JSONResponse_run (content : voice_chat_response) (w : world) :
  JSONResponse content w =
  (if encodable (vc_text content) && encodable (vc_mime content)
      && encodable (vc_audio_base64 content) && encodable (vc_prompt content)
   then Ok content else Raise UnicodeEncodeError, w).
Proof. unfold JSONResponse. destruct (_ && _); reflexivity. Qed.

(** Base64 text is ASCII, which the encoder accepts. *)
Lemma ascii_str_encodable (b : bytes) :
  forallb (fun x => (Byte.to_N x <? 128)%N) b = true ->
  encodable (ascii_str b) = true.
Proof.
  unfold encodable, ascii_str. induction b as [|x b IH]; [reflexivity|].
  cbn [forallb map]. intros H. apply andb_true_iff in H as [Hx Hb].
  apply N.ltb_lt in Hx. rewrite (IH Hb), andb_true_r.
  apply bool_decide_eq_true. unfold utf8_char.
  replace (Z.of_N (Byte.to_N x) <? 0)%Z with false by (symmetry; apply Z.ltb_ge; lia).
  replace (Z.of_N (Byte.to_N x) <? 128)%Z with true by (symmetry; apply Z.ltb_lt; lia).
  eexists. reflexivity.
Qed.

Lemma voice_chat_run (file : UploadFile) (model language : str) (w : world) :
  voice_chat cfg rt file model language w =
  match mkstemp_inner rt (names w) (files w) (default [] (filename file)) with
  | (Raise e, rest) =>
      (Raise e, {| files := files w; names := rest; trace := trace w |})
  | (Ok apath, rest) =>
      let staged := [MkTemp apath; WriteFile apath (upload file);
                     Transcribe apath language true] in
      match whisper_transcribe rt apath (Some (upload file)) language true with
      | TranscribeRaises e =>
          (Raise e, {| files := <[apath := upload file]> (files w); names := rest;
                       trace := trace w ++ staged |})
      | Transcribed segments info =>
          match seg_failure segments with
          | Some e =>
              (Raise e, {| files := files w; names := rest;
                           trace := trace w ++ staged ++ [Unlink apath] |})
          | None =>
              let user_text := strip (join [] (seg_texts segments)) in
              let asked :=
                staged ++ [Unlink apath;
                           HttpPost (completion_url cfg)
                                    (completion_payload user_text model) 120] in
              match completion_of (httpx_post rt (completion_url cfg)
                                     (completion_payload user_text model) 120) with
              | Raise e =>
                  (Raise (HTTPException 500
                            (py "LM Studio error: " ++ exn_str rt e)),
                   {| files := files w; names := rest; trace := trace w ++ asked |})
              | Ok reply =>
                  if piper_ready cfg (files w) then
                    match mkstemp_inner rt rest (files w) (py ".wav") with
                    | (Raise e, rest') =>
                        (Raise e,
                         {| files := files w; names := rest';
                            trace := trace w ++ asked |})
                    | (Ok wav, rest') =>
                        let argv := piper_argv cfg wav reply in
                        let spoken := asked ++ [MkTemp wav; RunProcess argv] in
                        match subprocess_exec rt argv (<[wav := []]> (files w)) with
                        | SpawnFails e =>
                            (Raise (HTTPException 500
                                      (py "Piper TTS error: " ++ exn_str rt e)),
                             {| files := <[wav := []]> (files w); names := rest';
                                trace := trace w ++ spoken |})
                        | Exits returncode fs' =>
                            if (returncode =? 0)%Z then
                              match fs' !! wav with
                              | Some data =>
                                  (if encodable reply && encodable user_text
                                   then Ok {| vc_text := reply;
                                              vc_mime := py "audio/wav";
                                              vc_audio_base64 :=
                                                ascii_str (b64encode data);
                                              vc_prompt := user_text |}
                                   else Raise UnicodeEncodeError,
                                   {| files := delete wav fs'; names := rest';
                                      trace := trace w ++ spoken
                                               ++ [ReadFile wav; Unlink wav] |})
                              | None =>
                                  (Raise (HTTPException 500
                                            (py "Piper TTS error: "
                                             ++ exn_str rt (FileNotFoundError wav))),
                                   {| files := fs'; names := rest';
                                      trace := trace w ++ spoken ++ [ReadFile wav] |})
                              end
                            else
                              (Raise (HTTPException 500
                                        (py "Piper TTS error: "
                                         ++ exn_str rt
                                              (CalledProcessError returncode argv))),
                               {| files := fs'; names := rest';
                                  trace := trace w ++ spoken |})
                        end
                    end
                  else
                    (Raise (HTTPException 501
                              (py "Piper TTS not configured for /voice-chat.")),
                     {| files := files w; names := rest; trace := trace w ++ asked |})
              end
          end
      end
  end.
Proof.
  unfold voice_chat. rewrite bind_run, staging_run.
  destruct (mkstemp_inner rt (names w) _ _) as [[e|apath] rest] eqn:Hmk;
    [reflexivity|].
  destruct (mkstemp_inner_fresh rt _ _ _ _ _ Hmk) as (Hfresh & _).
  cbv beta iota zeta. rewrite bind_run, transcribe_run. cbn [files].
  rewrite lookup_insert_eq.
  destruct (whisper_transcribe rt apath _ language true) as [e|segments info].
  { cbv beta iota. unfold add_trace. cbn [files names trace].
    rewrite <- app_assoc. reflexivity. }
  cbv beta iota. rewrite bind_run, unlink_run.
  unfold add_trace. cbn [files names trace]. rewrite lookup_insert_eq.
  cbv beta iota. rewrite (delete_staged _ _ _ Hfresh), <- !app_assoc.
  cbn [app]. rewrite bind_run. unfold join_segments. cbn [fst].
  destruct (seg_failure segments) as [e|]; [reflexivity|].
  unfold ret at 1. cbv beta iota.
  rewrite bind_run. unfold try_except. rewrite lm_completion_run.
  unfold add_trace. cbn [files names trace]. rewrite <- !app_assoc. cbn [app].
  destruct (completion_of _) as [e|reply]; [reflexivity|].
  cbv beta iota. rewrite bind_run, piper_configured_ready. cbn [files].
  cbv beta iota.
  destruct (piper_ready cfg (files w)); cbn [negb]; [|reflexivity].
  rewrite bind_run, NamedTemporaryFile_run. cbn [files names trace].
  change (default [] (Some (py ".wav"))) with (py ".wav").
  destruct (mkstemp_inner rt rest (files w) (py ".wav")) as [[e|wav] rest'] eqn:Hmk2;
    [reflexivity|].
  cbv beta iota. rewrite bind_run. unfold try_except.
  rewrite bind_run, subprocess_run_run. cbn [files names trace].
  fold (piper_argv cfg wav reply). rewrite <- !app_assoc. cbn [app].
  destruct (subprocess_exec rt _ _) as [e|code fs']; [leaf|].
  destruct (code =? 0)%Z; [|leaf].
  cbv beta iota. rewrite bind_run, read_file_run. unfold add_trace.
  cbn [files names trace]. rewrite <- !app_assoc. cbn [app].
  destruct (fs' !! wav) as [data|] eqn:Hwav; [|leaf].
  cbv beta iota. rewrite bind_run. unfold lift at 1.
  rewrite decode_ascii_b64encode. cbv beta iota.
  rewrite bind_run, unlink_run. cbn [files names trace]. rewrite Hwav.
  cbv beta iota. unfold ret at 1. cbv beta iota.
  rewrite JSONResponse_run. cbn [vc_text vc_mime vc_audio_base64 vc_prompt].
  rewrite (ascii_str_encodable _ (b64encode_ascii data)).
  replace (encodable (py "audio/wav")) with true by reflexivity.
  rewrite !andb_true_r, <- !app_assoc. reflexivity.
Qed.
End VoiceChat.

Lemma drop_own_trace (w : world) (acts : list action) :
  drop (length (trace w)) (trace w ++ acts) = acts.
Proof. apply drop_app_length. Qed.

Lemma piper_ready_false (cfg : config) (fs : gmap str bytes) :
  piper_ready cfg fs = false <->
  truthy_opt (PIPER_BIN cfg) = false \/ PIPER_VOICE cfg = []
  \/ fs !! PIPER_VOICE cfg = None.
Proof.
  unfold piper_ready. rewrite !andb_false_iff, bool_decide_eq_false.
  rewrite <- eq_None_not_Some.
  assert (Hv : truthy (PIPER_VOICE cfg) = false <-> PIPER_VOICE cfg = [])
    by (destruct (PIPER_VOICE cfg); simpl; split; congruence).
  rewrite Hv. tauto.
Qed.

(** The end of a case of [/voice-chat]: the result and the engine calls. *)
Ltac stage_done :=
  cbn [fst snd]; unfold engine_calls; cbn [trace];
  rewrite ?drop_own_trace, ?drop_all; repeat split; reflexivity.

Section Synthesis.
Context (cfg : config) (rt : runtime).

(** The run of [/tts]. *)
Lemma tts_run (text : str) (w : world) :
  tts cfg rt text w =
  if piper_ready cfg (files w) then
    match mkstemp_inner rt (names w) (files w) (py ".wav") with
    | (Raise e, rest) =>
        (Raise e, {| files := files w; names := rest; trace := trace w |})
    | (Ok wav, rest) =>
        let argv := piper_argv cfg wav text in
        match subprocess_exec rt argv (<[wav := []]> (files w)) with
        | SpawnFails e =>
            (match e with
             | CalledProcessError _ _ =>
                 Raise (HTTPException 500 (py "Piper failed: " ++ exn_str rt e))
             | _ => Raise e
             end,
             {| files := <[wav := []]> (files w); names := rest;
                trace := trace w ++ [MkTemp wav; RunProcess argv] |})
        | Exits returncode fs' =>
            (if (returncode =? 0)%Z
             then Ok {| wav_path := wav; wav_state := WavNew;
                        media_type := py "audio/wav" |}
             else Raise (HTTPException 500
                           (py "Piper failed: "
                            ++ exn_str rt (CalledProcessError returncode argv))),
             {| files := fs'; names := rest;
                trace := trace w ++ [MkTemp wav; RunProcess argv] |})
        end
    end
  else
    (Raise (HTTPException 501
              (py "Piper TTS not configured. Set PIPER_BIN and PIPER_VOICE.")), w).
Proof.
  unfold tts. rewrite bind_run, (piper_configured_ready cfg). cbv beta iota.
  destruct (piper_ready cfg (files w)); cbn [negb]; [|reflexivity].
  rewrite bind_run, NamedTemporaryFile_run.
  change (default [] (Some (py ".wav"))) with (py ".wav").
  destruct (mkstemp_inner rt (names w) (files w) (py ".wav")) as [[e|wav] rest];
    [reflexivity|].
  cbv beta iota zeta. rewrite bind_run. unfold try_except.
  rewrite subprocess_run_run. cbn [files names trace].
  fold (piper_argv cfg wav text).
  destruct (subprocess_exec rt _ _) as [e|code fs'].
  - destruct e; leaf.
  - destruct (code =? 0)%Z; leaf.
Qed.

(** C4 (as amended).  When the synthesizer is not resolved, or no voice path
    is configured, or the voice file is not in the file system at the time
    of the request: [/tts] is rejected with status 501 before anything else
    happens (the world is unchanged); [/voice-chat] never runs the
    synthesizer; it is rejected with status 501 at the start of the
    synthesis stage, once the upload has been staged and the transcriber and
    the chat backend have been called and have succeeded; and a failure of
    staging, of transcription (in the call or in reading the segments) or
    of chat ends the request with that stage's error instead, no later
    engine being called. *)
Theorem synthesis_gate (text : str) (file : UploadFile) (model language : str)
        (w : world) :
  truthy_opt (PIPER_BIN cfg) = false \/ PIPER_VOICE cfg = []
  \/ files w !! PIPER_VOICE cfg = None ->
  let r := voice_chat cfg rt file model language w in
  let calls := engine_calls w (snd r) in
  tts cfg rt text w =
  (Raise (HTTPException 501
            (py "Piper TTS not configured. Set PIPER_BIN and PIPER_VOICE.")), w)
  /\ (forall a, In a (effects w (snd r)) ->
                match a with RunProcess _ => False | _ => True end)
  /\ match mkstemp_inner rt (names w) (files w) (default [] (filename file)) with
     | (Raise e, _) => fst r = Raise e /\ calls = []
     | (Ok apath, _) =>
         let heard := Transcribe apath language true in
         match whisper_transcribe rt apath (Some (upload file)) language true with
         | TranscribeRaises e => fst r = Raise e /\ calls = [heard]
         | Transcribed segments info =>
             match seg_failure segments with
             | Some e => fst r = Raise e /\ calls = [heard]
             | None =>
                 let user_text := strip (join [] (seg_texts segments)) in
                 let answer :=
                   httpx_post rt (completion_url cfg)
                              (completion_payload user_text model) 120 in
                 calls = [heard;
                          HttpPost (completion_url cfg)
                                   (completion_payload user_text model) 120]
                 /\ fst r =
                    match completion_of answer with
                    | Raise e =>
                        Raise (HTTPException 500
                                 (py "LM Studio error: " ++ exn_str rt e))
                    | Ok _ =>
                        Raise (HTTPException 501
                                 (py "Piper TTS not configured for /voice-chat."))
                    end
             end
         end
     end.
Proof.
  intros Hgate r calls. subst r calls. apply piper_ready_false in Hgate.
  split; [rewrite tts_run, Hgate; reflexivity|].
  rewrite (voice_chat_run cfg rt). split.
  - intros a.
    destruct (mkstemp_inner rt (names w) _ _) as [[e|apath] rest];
      [cbn [snd]; unfold effects; cbn [trace];
       rewrite drop_all; intros []|].
    cbv zeta.
    destruct (whisper_transcribe rt apath _ language true) as [e|segments info];
      [|destruct (seg_failure segments) as [e|];
        [|destruct (completion_of _) as [e|reply]; [|rewrite Hgate]]];
      cbn [snd]; unfold effects; cbn [trace]; rewrite drop_own_trace;
      cbn [In app]; intros Hin;
      repeat (destruct Hin as [<-|Hin]; [exact I|]); destruct Hin.
  - destruct (mkstemp_inner rt (names w) _ _) as [[e|apath] rest]; [stage_done|].
    cbv zeta.
    destruct (whisper_transcribe rt apath _ language true) as [e|segments info];
      [stage_done|].
    destruct (seg_failure segments) as [e|]; [stage_done|].
    destruct (completion_of _) as [e|reply]; [stage_done|].
    rewrite Hgate. stage_done.
Qed.
End Synthesis.

Section Pipeline.
Context (cfg : config) (rt : runtime).


(** C9.  Whenever [/voice-chat] succeeds, the synthesizer had exited with
    status 0 and left a file with some bytes [data] at the path it was
    given; the [audio_base64] of the response is the base64 of [data] as
    ASCII text, and decoding it gives [data] back, byte for byte. *)
Theorem voice_chat_audio_round_trip (file : UploadFile) (model language : str)
        (w : world) (resp : voice_chat_response) :
  fst (voice_chat cfg rt file model language w) = Ok resp ->
  exists wav fs fs' data,
    subprocess_exec rt (piper_argv cfg wav (vc_text resp)) fs = Exits 0 fs'
    /\ fs' !! wav = Some data
    /\ decode_ascii (b64encode data) = Ok (vc_audio_base64 resp)
    /\ b64decode (vc_audio_base64 resp) = Some data.
Proof.
  rewrite (voice_chat_run cfg rt).
  destruct (mkstemp_inner rt (names w) _ _) as [[e|apath] rest]; [discriminate|].
  cbv zeta.
  destruct (whisper_transcribe rt apath _ language true) as [e|segments info];
    [discriminate|].
  destruct (seg_failure segments) as [e|]; [discriminate|].
  destruct (completion_of _) as [e|reply]; [discriminate|].
  destruct (piper_ready cfg (files w)); [|discriminate].
  destruct (mkstemp_inner rt rest (files w) (py ".wav")) as [[e|wav] rest'];
    [discriminate|].
  destruct (subprocess_exec rt _ _) as [e|code fs'] eqn:Hexec; [discriminate|].
  destruct (code =? 0)%Z eqn:Hcode; [|discriminate].
  destruct (fs' !! wav) as [data|] eqn:Hwav; [|discriminate].
  destruct (encodable reply && encodable _); [|discriminate].
  cbn [fst]. intros [= <-]. cbn [vc_text vc_audio_base64].
  apply Z.eqb_eq in Hcode. subst code.
  exists wav, (<[wav := []]> (files w)), fs', data.
  split; [exact Hexec|]. split; [exact Hwav|].
  split; [apply decode_ascii_b64encode | apply b64decode_b64encode].
Qed.
End Pipeline.

(** *** Examples of requests *)

Lemma synthesis_gate_witness :
  (truthy_opt (PIPER_BIN cfg_bare) = false \/ PIPER_VOICE cfg_bare = []
   \/ files world_bare !! PIPER_VOICE cfg_bare = None)
  /\ tts cfg_bare (answering hello_reply) (py "Good morning") world_bare
     = (Raise (HTTPException 501
                 (py "Piper TTS not configured. Set PIPER_BIN and PIPER_VOICE.")),
        world_bare).
Proof.
  assert (H : truthy_opt (PIPER_BIN cfg_bare) = false \/ PIPER_VOICE cfg_bare = []
              \/ files world_bare !! PIPER_VOICE cfg_bare = None)
    by (left; reflexivity).
  split; [exact H|].
  exact (proj1 (synthesis_gate cfg_bare (answering hello_reply)
                  (py "Good morning") clip (py "default") (py "en") world_bare H)).
Defined.

(** C4, as stated, fails for [/voice-chat]: with no synthesizer configured
    the request is rejected with 501 only after the upload was staged and
    the transcriber and the chat backend were called; and when the chat
    backend fails the request ends with its 500, not with 501. *)
Lemma voice_chat_gate_comes_last :
  truthy_opt (PIPER_BIN cfg_bare) = false
  /\ fst (voice_chat cfg_bare (answering hello_reply) clip (py "default") (py "en")
            world_bare)
     = Raise (HTTPException 501 (py "Piper TTS not configured for /voice-chat."))
  /\ engine_calls world_bare
       (snd (voice_chat cfg_bare (answering hello_reply) clip (py "default")
               (py "en") world_bare))
     = [Transcribe (py "/tmp/tmpk3x9ab12clip.webm") (py "en") true;
        HttpPost (py "http://127.0.0.1:1234/v1/chat/completions")
                 (completion_payload (py "Hello") (py "default")) 120]
  /\ fst (voice_chat cfg_bare unreachable clip (py "default") (py "en") world_bare)
     = Raise (HTTPException 500
                (py "LM Studio error: All connection attempts failed")).
Proof. repeat split; vm_compute; reflexivity. Qed.


Lemma voice_chat_audio_round_trip_witness :
  fst (voice_chat cfg_piper (answering hello_reply) clip (py "default") (py "en")
         world_piper)
  = Ok {| vc_text := hello_reply; vc_mime := py "audio/wav";
          vc_audio_base64 := py "UklGRg=="; vc_prompt := py "Hello" |}
  /\ b64decode (py "UklGRg==") = Some [Byte.x52; Byte.x49; Byte.x46; Byte.x46].
Proof.
  assert (H : fst (voice_chat cfg_piper (answering hello_reply) clip (py "default")
                     (py "en") world_piper)
              = Ok {| vc_text := hello_reply; vc_mime := py "audio/wav";
                      vc_audio_base64 := py "UklGRg=="; vc_prompt := py "Hello" |})
    by (vm_compute; reflexivity).
  split; [exact H|].
  destruct (voice_chat_audio_round_trip cfg_piper (answering hello_reply) clip
              (py "default") (py "en") world_piper _ H)
    as (wav & fs & fs' & data & _ & _ & _ & Hdecode).
  cbn [vc_audio_base64] in Hdecode.
  pose proof Hdecode as Hdata. vm_compute in Hdata. injection Hdata as <-.
  exact Hdecode.
Defined.

(** The readiness test is made anew by each request: [/tts] succeeds while
    the voice file is there, and is rejected once the file is gone. *)
Example tts_gate_is_rechecked :
  let first := tts cfg_piper (answering hello_reply) (py "Good morning") world_piper in
  fst first = Ok {| wav_path := py "/tmp/tmpk3x9ab12.wav"; wav_state := WavNew;
                    media_type := py "audio/wav" |}
  /\ fst (tts cfg_piper (answering hello_reply) (py "Good morning")
            (without_file voice_path (snd first)))
     = Raise (HTTPException 501
                (py "Piper TTS not configured. Set PIPER_BIN and PIPER_VOICE.")).
Proof. split; vm_compute; reflexivity. Qed.

(** The body of a [/tts] response, read to its end: the synthesizer's bytes,
    and the file is gone afterwards. *)
Example tts_then_stream :
  let first := tts cfg_piper (answering hello_reply) (py "Good morning") world_piper in
  let body := consume (py "/tmp/tmpk3x9ab12.wav") 2 WavNew (snd first) in
  fst body = Ok ([[Byte.x52; Byte.x49; Byte.x46; Byte.x46]], WavDone)
  /\ files (snd body) !! py "/tmp/tmpk3x9ab12.wav" = None
  /\ files (snd first) !! py "/tmp/tmpk3x9ab12.wav"
     = Some [Byte.x52; Byte.x49; Byte.x46; Byte.x46].
Proof. repeat split; vm_compute; reflexivity. Qed.

(* ===================================================================== *)
(** * Part III. Further properties of the code                            *)
(* ===================================================================== *)

(** ** Frames, whatever the event and the data *)

Lemma data_lines_nonempty (data : str) : data_lines data <> [].
Proof. unfold data_lines. destruct (splitlines data); discriminate. Qed.

Lemma data_lines_no_breaks (data : str) :
  Forall (fun l => no_breaks l = true) (data_lines data).
Proof.
  unfold data_lines. pose proof (splitlines_no_breaks data) as H.
  destruct (splitlines data); [repeat constructor | exact H].
Qed.

Lemma sse_lines_from_join_app (l : str) (ls : list str) (rest : str) :
  Forall (fun x => no_crlf x = true) (l :: ls) ->
  sse_lines_from [] (join LF (l :: ls) ++ LF ++ rest) = (l :: ls) ++ sse_lines_from [] rest.
Proof.
  revert l. induction ls as [|l' ls IH]; intros l Hall.
  - inversion Hall; subst. cbn [join]. unfold LF. cbn [app].
    rewrite sse_lines_from_line by assumption. reflexivity.
  - inversion Hall; subst.
    change (join LF (l :: l' :: ls)) with (l ++ LF ++ join LF (l' :: ls)).
    unfold LF at 1. rewrite <- !app_assoc. cbn [app].
    rewrite sse_lines_from_line by assumption. cbn [app]. f_equal.
    apply IH. assumption.
Qed.

Lemma event_lines_no_crlf (event : option str) :
  event_ok event = true ->
  Forall (fun x => no_crlf x = true) (event_lines event).
Proof.
  destruct event as [[|c e]|]; intros H; cbn [event_lines]; repeat constructor.
  apply no_crlf_app; [reflexivity | exact H].
Qed.

Lemma frame_lines_no_crlf (event : option str) (data : str) :
  event_ok event = true ->
  Forall (fun x => no_crlf x = true)
         (event_lines event
          ++ map (fun line => py "data: " ++ line) (data_lines data) ++ [[]]).
Proof.
  intros Hev. apply Forall_app. split; [apply event_lines_no_crlf, Hev|].
  apply Forall_app. split; [|repeat constructor].
  apply List.Forall_map. eapply Forall_impl; [apply data_lines_no_breaks|].
  intros x Hx. apply no_crlf_app; [reflexivity | apply no_breaks_no_crlf, Hx].
Qed.

Lemma frame_lines_cons (event : option str) (data : str) :
  exists l ls,
    event_lines event
    ++ map (fun line => py "data: " ++ line) (data_lines data) ++ [[]] = l :: ls.
Proof.
  destruct (event_lines event) as [|l ls]; [|eauto].
  pose proof (data_lines_nonempty data).
  destruct (data_lines data); [congruence|]. cbn [map app]. eauto.
Qed.

Lemma frame_lines_read (event : option str) (data : str) :
  event_ok event = true ->
  sse_lines (sse_text event data) =
  event_lines event
  ++ map (fun line => py "data: " ++ line) (data_lines data) ++ [[]].
Proof.
  intros Hev. rewrite frame_text. unfold sse_lines.
  destruct (frame_lines_cons event data) as (l & ls & Heq).
  pose proof (frame_lines_no_crlf event data Hev) as Hall.
  rewrite Heq in *.
  rewrite <- (app_nil_r LF), sse_lines_from_join_app by exact Hall.
  cbn [sse_lines_from]. rewrite app_nil_r. reflexivity.
Qed.

(** X1.  For every event name and every [data] that can be encoded, the
    event name free of CR and LF, [_sse_format] returns a frame, and the
    lines of that frame, once decoded, are: the [event:] line (when the name
    is not empty), then one [data: ] line for each line of [data] (at least
    one), none of which holds a line boundary, then the blank line that ends
    the event, and nothing else.  So no [data] can end the event early or
    add a field. *)
Theorem sse_format_frame_lines (event : option str) (data : str) :
  event_ok event = true ->
  encodable (default [] event) = true ->
  encodable data = true ->
  exists frame,
    _sse_format event data = Ok frame
    /\ sse_lines (decode_utf8 frame) =
       event_lines event
       ++ map (fun line => py "data: " ++ line) (data_lines data) ++ [[]]
    /\ data_lines data <> []
    /\ Forall (fun l => no_breaks l = true) (data_lines data).
Proof.
  intros Hev Henc Hdata. exists (utf8 (sse_text event data)).
  pose proof (sse_format_ok event data Henc Hdata) as Hframe.
  split; [exact Hframe|].
  destruct (sse_format_inv _ _ _ Hframe) as (_ & _ & ->).
  split; [apply frame_lines_read, Hev|].
  split; [apply data_lines_nonempty | apply data_lines_no_breaks].
Qed.

Lemma sse_format_frame_lines_witness :
  event_ok (Some (py "token")) = true
  /\ encodable (py "a" ++ LF ++ LF ++ py "event: end") = true
  /\ exists frame,
       _sse_format (Some (py "token")) (py "a" ++ LF ++ LF ++ py "event: end")
       = Ok frame
       /\ sse_lines (decode_utf8 frame)
          = [py "event: token"; py "data: a"; py "data: "; py "data: event: end"; []].
Proof.
  assert (H : event_ok (Some (py "token")) = true) by reflexivity.
  assert (H1 : encodable (default [] (Some (py "token"))) = true) by reflexivity.
  assert (H2 : encodable (py "a" ++ LF ++ LF ++ py "event: end") = true)
    by reflexivity.
  split; [exact H|]. split; [exact H2|].
  destruct (sse_format_frame_lines (Some (py "token"))
              (py "a" ++ LF ++ LF ++ py "event: end") H H1 H2)
    as (frame & Hframe & Hlines & _).
  exists frame. split; [exact Hframe|]. rewrite Hlines. vm_compute. reflexivity.
Defined.

Lemma join_cons_length (cur : str) (ls : list str) :
  length (join LF (cur :: ls))
  <= length cur + 1 + length (join LF (match ls with [] => [[]] | ls' => ls' end)).
Proof.
  destruct ls as [|l ls].
  - cbn [join length]. lia.
  - change (join LF (cur :: l :: ls)) with (cur ++ LF ++ join LF (l :: ls)).
    rewrite !length_app. cbn [LF length]. lia.
Qed.

Lemma splitlines_from_break (a b : Z) (cur l : str) :
  is_linebreak a = true ->
  splitlines_from cur (a :: b :: l) =
  cur :: splitlines_from [] (if ((a =? 13) && (b =? 10))%Z then l else b :: l).
Proof.
  intros H. cbn [splitlines_from]. rewrite H.
  destruct ((a =? 13)%Z && (b =? 10)%Z); reflexivity.
Qed.

(** What comes back from a frame is never longer than what went in. *)
Lemma join_splitlines_length (s cur : str) :
  length (join LF (match splitlines_from cur s with [] => [[]] | ls => ls end))
  <= length cur + length s.
Proof.
  revert cur. induction s as [|a|a b l IHl IHbl] using list_pair_ind; intros cur.
  - cbn [splitlines_from]. destruct cur; cbn [join length]; lia.
  - cbn [splitlines_from]. destruct (is_linebreak a).
    + cbn [join length]. lia.
    + destruct (cur ++ [a]) as [|c u] eqn:E; [destruct cur; discriminate|].
      rewrite <- E. cbn [join]. rewrite length_app. cbn [length]. lia.
  - destruct (is_linebreak a) eqn:Ha.
    + rewrite splitlines_from_break by exact Ha.
      set (tail := if ((a =? 13) && (b =? 10))%Z then l else b :: l).
      assert (Htail : length tail <= S (length l))
        by (subst tail; destruct ((a =? 13)%Z && (b =? 10)%Z); cbn [length]; lia).
      assert (IH : length (join LF (match splitlines_from [] tail with
                                    | [] => [[]] | ls => ls end))
                   <= length tail)
        by (subst tail; destruct ((a =? 13)%Z && (b =? 10)%Z);
            [apply (IHl []) | apply (IHbl [])]).
      pose proof (join_cons_length cur (splitlines_from [] tail)) as H1.
      destruct (splitlines_from [] tail); cbn [length] in *; lia.
    + rewrite splitlines_from_plain by exact Ha.
      specialize (IHbl (cur ++ [a])). rewrite length_app in IHbl.
      cbn [length] in *. lia.
Qed.

Lemma only_lf_breaks_app (a b : str) :
  only_lf_breaks a = true -> only_lf_breaks b = true ->
  only_lf_breaks (a ++ b) = true.
Proof.
  intros Ha Hb. unfold only_lf_breaks in *. rewrite forallb_app, Ha, Hb. reflexivity.
Qed.

Lemma no_breaks_only_lf (s : str) : no_breaks s = true -> only_lf_breaks s = true.
Proof.
  unfold no_breaks, only_lf_breaks. rewrite !forallb_forall. intros H c Hc.
  rewrite (H c Hc). reflexivity.
Qed.

Lemma join_only_lf (ls : list str) :
  Forall (fun l => no_breaks l = true) ls -> only_lf_breaks (join LF ls) = true.
Proof.
  induction ls as [|l ls IH]; intros Hall; [reflexivity|].
  inversion Hall; subst. destruct ls as [|l' ls].
  - apply no_breaks_only_lf. assumption.
  - change (join LF (l :: l' :: ls)) with (l ++ LF ++ join LF (l' :: ls)).
    apply only_lf_breaks_app; [apply no_breaks_only_lf; assumption|].
    apply only_lf_breaks_app; [reflexivity | apply IH; assumption].
Qed.

Lemma frame_block (event : option str) (data : str) :
  event_ok event = true ->
  sse_block (sse_lines (sse_text event data)) =
  event_lines event ++ map (fun line => py "data: " ++ line) (data_lines data).
Proof.
  intros Hev. rewrite (frame_lines_read event data Hev).
  rewrite app_assoc. apply sse_block_stop.
  apply Forall_app. split.
  - destruct event as [[|c e]|]; cbn [event_lines]; repeat constructor; discriminate.
  - apply List.Forall_map, List.Forall_forall. intros x _. discriminate.
Qed.

Lemma omap_data_block (event : option str) (lines : list str) :
  event_ok event = true ->
  omap (sse_field (py "data"))
       (event_lines event ++ map (fun line => py "data: " ++ line) lines) = lines.
Proof.
  intros _. destruct event as [[|c e]|]; cbn [event_lines app].
  - apply omap_data_lines.
  - rewrite omap_step.
    replace (sse_field (py "data") (py "event: " ++ c :: e)) with (@None str)
      by reflexivity.
    apply omap_data_lines.
  - apply omap_data_lines.
Qed.

Lemma omap_event_block (event : option str) (lines : list str) :
  omap (sse_field (py "event"))
       (event_lines event ++ map (fun line => py "data: " ++ line) lines) =
  match event with Some ((_ :: _) as e) => [e] | _ => [] end.
Proof.
  destruct event as [[|c e]|]; cbn [event_lines app].
  - apply omap_event_lines.
  - rewrite omap_step.
    replace (sse_field (py "event") (py "event: " ++ c :: e)) with (Some (c :: e))
      by reflexivity.
    rewrite omap_event_lines. reflexivity.
  - apply omap_event_lines.
Qed.

(** What is read back from the text of a frame. *)
Lemma frame_read_back (event : option str) (data : str) :
  event_ok event = true ->
  sse_event (sse_text event data)
  = match event with Some ((_ :: _) as e) => Some e | _ => None end
  /\ sse_data (sse_text event data) = join LF (data_lines data)
  /\ only_lf_breaks (sse_data (sse_text event data)) = true
  /\ length (sse_data (sse_text event data)) <= length data.
Proof.
  intros Hev.
  assert (Hdata : sse_data (sse_text event data) = join LF (data_lines data)).
  { unfold sse_data. rewrite (frame_block event data Hev).
    rewrite (omap_data_block event _ Hev). reflexivity. }
  split; [|split; [exact Hdata|split]].
  - unfold sse_event. rewrite (frame_block event data Hev), omap_event_block.
    destruct event as [[|c e]|]; reflexivity.
  - rewrite Hdata. apply join_only_lf, data_lines_no_breaks.
  - rewrite Hdata. apply (join_splitlines_length data []).
Qed.

(** X2.  For every event name and every [data] that can be encoded, the
    event name free of CR and LF, [_sse_format] returns a frame from which a
    consumer reads back: the event name when it is not empty, and no event
    name when [_sse_format] was given [None] or the empty string; as payload
    the lines of [data.splitlines()] joined by LF (the empty payload for
    empty [data]).  That payload has no line boundary but LF and is never
    longer than [data]. *)
Theorem sse_format_read_back (event : option str) (data : str) :
  event_ok event = true ->
  encodable (default [] event) = true ->
  encodable data = true ->
  exists frame,
    _sse_format event data = Ok frame
    /\ frame_event frame
       = match event with Some ((_ :: _) as e) => Some e | _ => None end
    /\ frame_data frame = join LF (data_lines data)
    /\ only_lf_breaks (frame_data frame) = true
    /\ length (frame_data frame) <= length data.
Proof.
  intros Hev Henc Hdata. exists (utf8 (sse_text event data)).
  pose proof (sse_format_ok event data Henc Hdata) as Hframe.
  split; [exact Hframe|]. unfold frame_event, frame_data.
  destruct (sse_format_inv _ _ _ Hframe) as (_ & _ & ->).
  apply frame_read_back, Hev.
Qed.

Lemma sse_format_read_back_witness :
  event_ok None = true
  /\ encodable [97; 13; 10; 98; 8232]%Z = true
  /\ exists frame,
       _sse_format None [97; 13; 10; 98; 8232]%Z = Ok frame
       /\ frame_event frame = None
       /\ frame_data frame = [97; 10; 98]%Z.
Proof.
  assert (H : event_ok None = true) by reflexivity.
  assert (H1 : encodable (default [] None) = true) by reflexivity.
  assert (H2 : encodable [97; 13; 10; 98; 8232]%Z = true) by reflexivity.
  split; [exact H|]. split; [exact H2|].
  destruct (sse_format_read_back None [97; 13; 10; 98; 8232]%Z H H1 H2)
    as (frame & Hframe & Hev & Hdata & _).
  exists frame. split; [exact Hframe|]. split; [exact Hev|].
  rewrite Hdata. reflexivity.
Defined.

(** ** The stream as a whole *)

Lemma sse_blocks_stop (cur ls : list str) (more : list str) :
  Forall (fun l => l <> []) ls ->
  sse_blocks_from cur (ls ++ [] :: more) = (cur ++ ls) :: sse_blocks_from [] more.
Proof.
  revert cur. induction ls as [|l ls IH]; intros cur Hall.
  - cbn [app sse_blocks_from]. rewrite app_nil_r. reflexivity.
  - inversion Hall; subst. destruct l as [|c l]; [congruence|].
    cbn [app sse_blocks_from]. rewrite IH by assumption.
    rewrite <- app_assoc. reflexivity.
Qed.

Lemma sse_lines_frame_app (event : option str) (data rest : str) :
  event_ok event = true ->
  sse_lines (sse_text event data ++ rest) =
  (event_lines event ++ map (fun line => py "data: " ++ line) (data_lines data))
  ++ [] :: sse_lines rest.
Proof.
  intros Hev. rewrite frame_text. unfold sse_lines.
  destruct (frame_lines_cons event data) as (l & ls & Heq).
  pose proof (frame_lines_no_crlf event data Hev) as Hall.
  rewrite <- app_assoc. rewrite Heq in *.
  rewrite sse_lines_from_join_app by exact Hall.
  rewrite <- Heq, <- !app_assoc. reflexivity.
Qed.

(** Frames sent one after the other are read as the events of each of them,
    in order. *)
Lemma sse_events_concat (frames : list str) :
  Forall well_framed frames ->
  sse_events (concat frames) = map (fun f => (sse_event f, sse_data f)) frames.
Proof.
  unfold sse_events. induction frames as [|f frames IH]; intros Hall; [reflexivity|].
  inversion Hall as [|? ? (ev & data & Hne & Hev & ->) Hrest]; subst.
  cbn [concat map].
  rewrite (sse_lines_frame_app (Some ev) data _ Hev).
  rewrite sse_blocks_stop.
  - rewrite omap_step, (IH Hrest). cbn [app].
    unfold sse_dispatch. rewrite (omap_data_block (Some ev) _ Hev).
    unfold sse_event, sse_data. rewrite (frame_block (Some ev) data Hev).
    rewrite (omap_data_block (Some ev) _ Hev).
    pose proof (data_lines_nonempty data) as Hd.
    destruct (data_lines data) as [|d ds] eqn:E; [congruence|]. reflexivity.
  - apply Forall_app. split.
    + destruct ev; [congruence|]. cbn [event_lines]. repeat constructor. discriminate.
    + apply List.Forall_map, List.Forall_forall. intros x _. discriminate.
Qed.

Lemma well_framed_named (ev data : str) :
  ev <> [] -> no_crlf ev = true -> well_framed (sse_text (Some ev) data).
Proof. intros Hne Hev. exists ev, data. auto. Qed.

(** The same for the bytes of the frames: the consumer decodes the stream
    and reads the events of each frame, in order. *)
Lemma stream_events_concat (frames : list bytes) :
  Forall well_framed_bytes frames ->
  stream_events (concat frames) = map (fun f => (frame_event f, frame_data f)) frames.
Proof.
  intros Hall. unfold stream_events.
  assert (Hdec : decode_utf8 (concat frames) = concat (map decode_utf8 frames)
                 /\ Forall well_framed (map decode_utf8 frames)).
  { induction Hall as [|f frames (t & Ht & Henc & ->) Hrest [IH1 IH2]].
    - split; [reflexivity | constructor].
    - cbn [concat map]. rewrite (decode_utf8_utf8_app t _ Henc), IH1.
      rewrite (decode_utf8_utf8 t Henc). split; [reflexivity|].
      constructor; assumption. }
  destruct Hdec as [-> Hframed]. rewrite (sse_events_concat _ Hframed), map_map.
  reflexivity.
Qed.

Lemma sse_format_well_framed (ev data : str) (frame : bytes) :
  ev <> [] -> no_crlf ev = true ->
  _sse_format (Some ev) data = Ok frame -> well_framed_bytes frame.
Proof.
  intros Hne Hev Hframe. destruct (sse_format_inv _ _ _ Hframe) as (-> & Henc & _).
  exists (sse_text (Some ev) data). split; [apply well_framed_named; assumption|].
  split; [exact Henc | reflexivity].
Qed.

(** What a run of [yield]s sends is what could be made. *)
Lemma yield_all_emitted (P : bytes -> Prop) (frames : list (result bytes)) :
  Forall (fun r => forall f, r = Ok f -> P f) frames ->
  Forall P (emitted (snd (yield_all frames))).
Proof.
  induction 1 as [|[e|f] frames Hr Hall IH]; cbn [yield_all snd emitted omap].
  - constructor.
  - constructor.
  - constructor; [apply Hr; reflexivity | exact IH].
Qed.

Section WholeStream.
Context (cfg : config) (rt : runtime).

Lemma gen_frames_well_framed (prompt model : str) :
  Forall (fun r => forall f, r = Ok f -> well_framed_bytes f)
         (gen_frames cfg rt prompt model).
Proof.
  unfold gen_frames. destruct (completion_of _) as [e|text].
  - apply List.Forall_cons; [|apply List.Forall_cons; [|apply List.Forall_nil]]; intros f Hf;
      (eapply sse_format_well_framed; [| |exact Hf]; [discriminate | reflexivity]).
  - apply Forall_app. split.
    + apply List.Forall_map, List.Forall_forall. intros piece _ f Hf.
      (eapply sse_format_well_framed; [| |exact Hf]; [discriminate | reflexivity]).
    + apply List.Forall_cons; [|apply List.Forall_cons; [|apply List.Forall_nil]]; intros f Hf;
        (eapply sse_format_well_framed; [| |exact Hf]; [discriminate | reflexivity]).
Qed.

Lemma stream_frames_well_framed (prompt model : str) (w : world) :
  Forall well_framed_bytes (stream_frames cfg rt prompt model w).
Proof.
  rewrite stream_frames_eq. unfold gen_effects.
  change (emitted (Yield start_frame :: ?a :: ?l)) with (start_frame :: emitted l).
  constructor.
  - eapply sse_format_well_framed; [| |exact start_frame_ok];
      [discriminate | reflexivity].
  - apply yield_all_emitted, gen_frames_well_framed.
Qed.

(** X3.  The body of a [/chat_stream] response, read as one stream (the
    bytes of the frames one after the other, decoded), gives the consumer
    exactly one event per frame, in the order of the frames, each with the
    name and payload of its frame: no payload, whatever the reply or the
    error message, merges two events or cuts one in two. *)
Theorem chat_stream_read_as_one_stream (prompt model : str) (w : world) :
  stream_events (concat (stream_frames cfg rt prompt model w)) =
  map (fun f => (frame_event f, frame_data f)) (stream_frames cfg rt prompt model w).
Proof. apply stream_events_concat, stream_frames_well_framed. Qed.
End WholeStream.

Example chat_stream_body_events :
  stream_events (concat (stream_frames cfg_bare (answering steps_reply) (py "How?")
                                       (py "default") world_bare))
  = [(Some (py "start"), status_json (py "starting"));
     (Some (py "token"), take 40 steps_reply);
     (Some (py "token"), drop 40 steps_reply);
     (Some (py "done"), status_json (py "ok"));
     (Some (py "end"), status_json (py "complete"))].
Proof. vm_compute. reflexivity. Qed.

(** ** More on [/chat_stream] *)

Lemma error_json_whole (msg : str) :
  only_lf_breaks msg = true ->
  join LF (data_lines (error_json msg)) = error_json msg.
Proof.
  intros Hmsg. unfold data_lines, splitlines.
  apply (join_splitlines_from (error_json msg) []).
  - unfold error_json.
    repeat (apply only_lf_breaks_app; [reflexivity|]).
    apply only_lf_breaks_app; [exact Hmsg|]. reflexivity.
  - unfold error_json, ends_with_lf.
    change (py "}") with ([125%Z] : str).
    rewrite !app_assoc, last_snoc. reflexivity.
Qed.

Section StreamMore.
Context (cfg : config) (rt : runtime).

Lemma gen_frames_results (prompt model : str) :
  Forall (fun r => forall e, r = Raise e -> e = UnicodeEncodeError)
         (gen_frames cfg rt prompt model).
Proof.
  assert (H : forall event data e,
             _sse_format event data = Raise e -> e = UnicodeEncodeError).
  { intros event data e. unfold _sse_format. rewrite encode_utf8_encodable.
    destruct (encodable _); [discriminate | intros [= <-]; reflexivity]. }
  unfold gen_frames. destruct (completion_of _) as [e|text].
  - apply List.Forall_cons; [|apply List.Forall_cons; [|apply List.Forall_nil]]; apply H.
  - apply Forall_app. split;
      [|apply List.Forall_cons; [|apply List.Forall_cons; [|apply List.Forall_nil]]; apply H].
    apply List.Forall_map, List.Forall_forall. intros piece _. apply H.
Qed.

(** X4.  Whatever the backend does, one run of [gen] sends the [start] frame
    first, then makes its single call to the backend (the POST of the
    prompt), and after that only sends frames; it leaves the files and the
    supply of temporary names as they were; and it ends normally or with
    the encoding error of a frame, never with an exception of the backend
    call. *)
Theorem gen_starts_then_asks_once (prompt model : str) (w : world) :
  exists rest,
    snd (gen cfg rt prompt model w) =
    {| files := files w; names := names w;
       trace := trace w
                ++ Yield start_frame
                :: HttpPost (completion_url cfg) (completion_payload prompt model) 120
                :: rest |}
    /\ forallb is_yield rest = true
    /\ (fst (gen cfg rt prompt model w) = Ok tt
        \/ fst (gen cfg rt prompt model w) = Raise UnicodeEncodeError).
Proof.
  rewrite gen_run. unfold gen_effects, add_trace. cbn [fst snd].
  eexists. split; [reflexivity|]. split; [apply yield_all_yields|].
  apply yield_all_result, gen_frames_results.
Qed.

(** X5.  When the backend call fails with an exception whose message can be
    encoded and has no line boundary but LF, the payload that the consumer
    reads from the [error] event is the text
    [{"message": "LM Studio error: <message>"}], the message copied as it is
    (quotes and backslashes are not escaped). *)
Theorem error_event_payload (prompt model : str) (w : world) (e : exn) :
  completion_of (httpx_post rt (completion_url cfg)
                   (completion_payload prompt model) 120) = Raise e ->
  encodable (exn_str rt e) = true ->
  only_lf_breaks (exn_str rt e) = true ->
  map (fun f => (frame_event f, frame_data f)) (stream_frames cfg rt prompt model w)
  = [(Some (py "start"), status_json (py "starting"));
     (Some (py "error"), error_json (exn_str rt e));
     (Some (py "end"), status_json (py "error"))].
Proof.
  intros Hfail Henc Hmsg. rewrite (stream_frames_fail cfg rt _ _ w e Hfail Henc).
  cbn [map].
  replace (frame_event start_frame, frame_data start_frame)
    with (Some (py "start"), status_json (py "starting"))
    by (vm_compute; reflexivity).
  replace (frame_event (end_frame (py "error")), frame_data (end_frame (py "error")))
    with (Some (py "end"), status_json (py "error"))
    by (vm_compute; reflexivity).
  assert (Htext : encodable (sse_text (Some (py "error"))
                               (error_json (exn_str rt e))) = true)
    by (rewrite encodable_sse_text, error_json_encodable, Henc; reflexivity).
  unfold error_frame.
  rewrite (frame_event_utf8 _ Htext), (frame_data_utf8 _ Htext).
  rewrite sse_event_named by (discriminate || reflexivity).
  rewrite sse_data_named by (discriminate || reflexivity).
  fold (data_lines (error_json (exn_str rt e))).
  rewrite (error_json_whole _ Hmsg). reflexivity.
Qed.

(** X7.  For every reply that can be encoded, also one with line boundaries
    anywhere: each payload that the consumer reads from a [token] event has
    at most 40 characters, there is one payload per 40-character piece of
    the reply, and together the payloads are not longer than the reply. *)
Theorem token_payloads_bounded (prompt model text : str) (w : world) :
  backend_reply cfg rt prompt model = Some text ->
  encodable text = true ->
  let payloads := token_payloads (stream_frames cfg rt prompt model w) in
  Forall (fun p => length p <= 40) payloads
  /\ length payloads = (length text + 39) / 40
  /\ length (concat payloads) <= length text.
Proof.
  intros Hreply Henc payloads. subst payloads.
  rewrite (token_payloads_ok cfg rt _ _ _ w Hreply Henc).
  assert (Hle : forall piece,
             length (sse_data (sse_text (Some (py "token")) piece)) <= length piece).
  { intros piece.
    rewrite sse_data_named by (discriminate || reflexivity).
    apply (join_splitlines_length piece []). }
  split; [|split].
  - apply List.Forall_map, List.Forall_forall. intros piece Hin.
    apply list_elem_of_In, list_elem_of_lookup in Hin as [i Hi].
    pose proof (chunks_of_sizes 40 ltac:(lia) text i piece Hi) as [Hsz _].
    specialize (Hle piece). lia.
  - rewrite length_map. unfold pieces. rewrite chunks_of_length. reflexivity.
  - rewrite <- (chunks_of_concat 40 ltac:(lia) text) at 2. fold (pieces text).
    induction (pieces text) as [|piece ps IH]; [reflexivity|].
    cbn [map concat]. rewrite !length_app. specialize (Hle piece). lia.
Qed.

(** X21.  A reply that cannot be encoded cuts the stream short: when the
    pieces of the reply up to some piece can be encoded and that piece
    cannot (it holds a surrogate), [gen] sends [start] and the [token]
    frames of the pieces before it and then ends with the encoding error;
    no further [token], no [done], no [error] and no [end] frame is sent. *)
Theorem gen_stops_at_unencodable_piece (prompt model text : str) (w : world)
        (good : list str) (bad : str) (more : list str) :
  backend_reply cfg rt prompt model = Some text ->
  pieces text = good ++ bad :: more ->
  Forall (fun p => encodable p = true) good ->
  encodable bad = false ->
  fst (gen cfg rt prompt model w) = Raise UnicodeEncodeError
  /\ stream_frames cfg rt prompt model w = start_frame :: map token_frame good
  /\ event_names (stream_frames cfg rt prompt model w)
     = Some (py "start") :: repeat (Some (py "token")) (length good).
Proof.
  intros Hreply Hpieces Hgood Hbad. apply completion_of_reply in Hreply.
  assert (Hrun : yield_all (gen_frames cfg rt prompt model)
                 = (Raise UnicodeEncodeError, map Yield (map token_frame good))).
  { unfold gen_frames. rewrite Hreply, Hpieces, map_app. cbn [map].
    rewrite <- app_assoc, yield_all_app.
    assert (Htokens : map (fun piece => _sse_format (Some (py "token")) piece) good
                      = map Ok (map token_frame good)).
    { rewrite map_map. apply map_ext_in. intros piece Hin. apply token_frame_ok.
      rewrite List.Forall_forall in Hgood. apply Hgood, Hin. }
    rewrite Htokens, yield_all_ok. cbn [fst snd app yield_all].
    rewrite (sse_format_raises _ _ Hbad). cbn [fst snd].
    rewrite app_nil_r. reflexivity. }
  assert (Hframes : stream_frames cfg rt prompt model w
                    = start_frame :: map token_frame good).
  { rewrite stream_frames_eq. unfold gen_effects. rewrite Hrun. cbn [snd].
    change (emitted (Yield start_frame :: ?a :: ?l)) with (start_frame :: emitted l).
    rewrite emitted_yields. reflexivity. }
  split; [rewrite gen_run, Hrun; reflexivity|]. split; [exact Hframes|].
  rewrite Hframes. unfold event_names. rewrite map_cons.
  fold (event_names (map token_frame good)).
  rewrite (event_names_token_frames _ Hgood). reflexivity.
Qed.
End StreamMore.

Lemma error_event_payload_witness :
  completion_of (httpx_post unreachable (completion_url cfg_bare)
                   (completion_payload (py "Hello") (py "default")) 120)
  = Raise (TransportError (py "All connection attempts failed"))
  /\ encodable
       (exn_str unreachable (TransportError (py "All connection attempts failed")))
     = true
  /\ only_lf_breaks
       (exn_str unreachable (TransportError (py "All connection attempts failed")))
     = true
  /\ map frame_data (stream_frames cfg_bare unreachable (py "Hello") (py "default")
                                   world_bare)
     = [status_json (py "starting");
        error_json (py "All connection attempts failed");
        status_json (py "error")].
Proof.
  assert (H1 : completion_of (httpx_post unreachable (completion_url cfg_bare)
                                (completion_payload (py "Hello") (py "default")) 120)
               = Raise (TransportError (py "All connection attempts failed")))
    by reflexivity.
  assert (H0 : encodable
                 (exn_str unreachable
                    (TransportError (py "All connection attempts failed"))) = true)
    by reflexivity.
  assert (H2 : only_lf_breaks
                 (exn_str unreachable
                    (TransportError (py "All connection attempts failed"))) = true)
    by reflexivity.
  split; [exact H1|]. split; [exact H0|]. split; [exact H2|].
  pose proof (error_event_payload cfg_bare unreachable _ _ world_bare _ H1 H0 H2) as H.
  apply (f_equal (map snd)) in H. rewrite map_map in H. cbn [map snd] in H.
  exact H.
Defined.

Lemma token_payloads_bounded_witness :
  backend_reply cfg_bare (answering boundary_reply) (py "Hello") (py "default")
  = Some boundary_reply
  /\ encodable boundary_reply = true
  /\ Forall (fun p => length p <= 40)
            (token_payloads (stream_frames cfg_bare (answering boundary_reply)
                                           (py "Hello") (py "default") world_bare))
  /\ length (token_payloads (stream_frames cfg_bare (answering boundary_reply)
                                           (py "Hello") (py "default") world_bare))
     = 2.
Proof.
  assert (H : backend_reply cfg_bare (answering boundary_reply) (py "Hello")
                            (py "default") = Some boundary_reply)
    by (vm_compute; reflexivity).
  assert (H0 : encodable boundary_reply = true) by (vm_compute; reflexivity).
  destruct (token_payloads_bounded cfg_bare _ _ _ _ world_bare H H0)
    as (Hall & Hlen & _).
  split; [exact H|]. split; [exact H0|]. split; [exact Hall | exact Hlen].
Defined.

Lemma gen_stops_at_unencodable_piece_witness :
  backend_reply cfg_bare (answering surrogate_reply) (py "Hello") (py "default")
  = Some surrogate_reply
  /\ pieces surrogate_reply = [repeat 97%Z 40] ++ [55357%Z] :: []
  /\ encodable [55357%Z] = false
  /\ fst (gen cfg_bare (answering surrogate_reply) (py "Hello") (py "default")
              world_bare)
     = Raise UnicodeEncodeError
  /\ event_names (stream_frames cfg_bare (answering surrogate_reply) (py "Hello")
                                (py "default") world_bare)
     = [Some (py "start"); Some (py "token")].
Proof.
  assert (H1 : backend_reply cfg_bare (answering surrogate_reply) (py "Hello")
                             (py "default") = Some surrogate_reply)
    by (vm_compute; reflexivity).
  assert (H2 : pieces surrogate_reply = [repeat 97%Z 40] ++ [55357%Z] :: [])
    by (vm_compute; reflexivity).
  assert (H3 : Forall (fun p => encodable p = true) [repeat 97%Z 40])
    by (repeat constructor).
  assert (H4 : encodable [55357%Z] = false) by reflexivity.
  destruct (gen_stops_at_unencodable_piece cfg_bare (answering surrogate_reply)
              _ _ _ world_bare _ _ _ H1 H2 H3 H4) as (Hfail & _ & Hnames).
  split; [exact H1|]. split; [exact H2|]. split; [exact H4|].
  split; [exact Hfail | exact Hnames].
Defined.

(** ** More on [/chat] *)

Section ChatMore.
Context (cfg : config) (rt : runtime).

(** X8.  When [/chat] answers, the backend had answered with a 2xx status
    and a JSON body whose first choice has a string content, and the text of
    the answer is that content without the white space around it: the
    content is white space, then the text, then white space, and the text
    neither starts nor ends with white space.  The answer names the provider
    "lmstudio" and the model that was asked for. *)
Theorem chat_text_is_trimmed_content (prompt model_name : str) (w : world)
        (resp : chat_response) :
  fst (chat cfg rt prompt model_name w) = Ok resp ->
  exists st data c l r,
    httpx_post rt (completion_url cfg) (completion_payload prompt model_name) 120
    = HttpResponse st (Some data)
    /\ (200 <= st <= 299)%Z
    /\ first_choice_content data = Some c
    /\ c = l ++ text resp ++ r
    /\ forallb is_space l = true /\ forallb is_space r = true
    /\ match text resp with x :: _ => is_space x = false | [] => True end
    /\ match last (text resp) with Some x => is_space x = false | None => True end
    /\ provider resp = py "lmstudio" /\ model resp = model_name.
Proof.
  rewrite chat_run. cbn [fst].
  destruct (completion_of _) as [e|t] eqn:Hc; [discriminate|].
  intros [= <-]. cbn [text provider model].
  apply completion_of_reply in Hc. unfold backend_reply in Hc.
  destruct (httpx_post rt _ _ _) as [e|st [data|]]; try discriminate.
  destruct ((200 <=? st)%Z && (st <=? 299)%Z) eqn:Hst; [|discriminate].
  destruct (first_choice_content data) as [c|] eqn:Hfc; [|discriminate].
  cbn [option_map] in Hc. injection Hc as <-.
  destruct (strip_spec c) as (l & r & Hsplit & Hl & Hr & Hhead & Hlast).
  exists st, data, c, l, r.
  apply andb_true_iff in Hst as [H1 H2].
  apply Z.leb_le in H1. apply Z.leb_le in H2.
  split; [reflexivity|]. split; [lia|]. split; [exact Hfc|].
  split; [exact Hsplit|]. split; [exact Hl|]. split; [exact Hr|].
  split; [exact Hhead|]. split; [exact Hlast|]. split; reflexivity.
Qed.
End ChatMore.

Lemma chat_text_is_trimmed_content_witness :
  fst (chat cfg_bare (answering (py "  " ++ steps_reply ++ LF)) (py "How?")
            (py "default") world_bare)
  = Ok {| provider := py "lmstudio"; model := py "default"; text := steps_reply |}
  /\ exists l r, py "  " ++ steps_reply ++ LF = l ++ steps_reply ++ r
                 /\ forallb is_space l = true /\ forallb is_space r = true.
Proof.
  assert (H : fst (chat cfg_bare (answering (py "  " ++ steps_reply ++ LF))
                        (py "How?") (py "default") world_bare)
              = Ok {| provider := py "lmstudio"; model := py "default";
                      text := steps_reply |}) by (vm_compute; reflexivity).
  split; [exact H|].
  destruct (chat_text_is_trimmed_content cfg_bare _ _ _ world_bare _ H)
    as (st & data & c & l & r & Hpost & _ & Hc & Hsplit & Hl & Hr & _).
  cbn in Hpost. injection Hpost as <- <-.
  vm_compute in Hc. injection Hc as <-.
  exists l, r. split; [|split; assumption].
  cbn [text] in Hsplit. rewrite <- Hsplit. vm_compute. reflexivity.
Defined.

(** ** More on [/tts] *)

Section TtsMore.
Context (cfg : config) (rt : runtime).

(** X9.  Once the synthesizer is configured and a name for the WAV file is
    chosen, [/tts] turns only a non-zero exit status into its error 500
    "Piper failed: ..."; any other exception of [subprocess.run] (the
    program cannot be started) comes out of the handler as it is.  In both
    cases nothing is unlinked: the temporary file that [/tts] created is
    left where it is. *)
Theorem tts_wraps_only_exit_status (text : str) (w : world) (wav : str)
        (rest : list str) :
  piper_ready cfg (files w) = true ->
  mkstemp_inner rt (names w) (files w) (py ".wav") = (Ok wav, rest) ->
  let r := tts cfg rt text w in
  effects w (snd r) = [MkTemp wav; RunProcess (piper_argv cfg wav text)]
  /\ match subprocess_exec rt (piper_argv cfg wav text) (<[wav := []]> (files w)) with
     | SpawnFails e =>
         files (snd r) !! wav = Some []
         /\ fst r = match e with
                    | CalledProcessError _ _ =>
                        Raise (HTTPException 500
                                 (py "Piper failed: " ++ exn_str rt e))
                    | _ => Raise e
                    end
     | Exits returncode fs' =>
         files (snd r) = fs'
         /\ ((returncode =? 0)%Z = false ->
             fst r = Raise (HTTPException 500
                              (py "Piper failed: "
                               ++ exn_str rt
                                    (CalledProcessError returncode
                                       (piper_argv cfg wav text)))))
     end.
Proof.
  intros Hready Hmk r. subst r. rewrite tts_run, Hready, Hmk. cbv zeta.
  destruct (subprocess_exec rt _ _) as [e|code fs']; cbn [fst snd];
    unfold effects; cbn [trace files]; rewrite drop_own_trace.
  - split; [reflexivity|]. split; [apply lookup_insert_eq | reflexivity].
  - split; [reflexivity|]. split; [reflexivity|]. intros ->. reflexivity.
Qed.

(** X10.  When [/tts] answers, the synthesizer was configured, it was run
    exactly once, on the command line [PIPER_BIN -m PIPER_VOICE -f <wav> -t
    <text>], and it exited with status 0; the path [<wav>] of the response
    was the name of no file before the request and ends in ".wav"; the
    response is the not yet started generator with media type "audio/wav";
    and the handler did nothing but create that file and run the
    synthesizer. *)
Theorem tts_answer (text : str) (w : world) (resp : wav_response) :
  fst (tts cfg rt text w) = Ok resp ->
  piper_ready cfg (files w) = true
  /\ files w !! wav_path resp = None
  /\ py ".wav" `suffix_of` wav_path resp
  /\ wav_state resp = WavNew
  /\ media_type resp = py "audio/wav"
  /\ effects w (snd (tts cfg rt text w))
     = [MkTemp (wav_path resp); RunProcess (piper_argv cfg (wav_path resp) text)]
  /\ subprocess_exec rt (piper_argv cfg (wav_path resp) text)
                     (<[wav_path resp := []]> (files w))
     = Exits 0 (files (snd (tts cfg rt text w))).
Proof.
  rewrite tts_run.
  destruct (piper_ready cfg (files w)); [|discriminate].
  destruct (mkstemp_inner rt (names w) (files w) (py ".wav")) as [[e|wav] rest] eqn:Hmk;
    [discriminate|].
  destruct (mkstemp_inner_fresh rt _ _ _ _ _ Hmk) as (Hfresh & Hsuffix & _).
  cbv zeta.
  destruct (subprocess_exec rt _ _) as [e|code fs'] eqn:Hexec;
    [destruct e; discriminate|].
  destruct (code =? 0)%Z eqn:Hcode; [|discriminate].
  cbn [fst snd]. intros [= <-]. cbn [wav_path wav_state media_type files].
  apply Z.eqb_eq in Hcode. subst code.
  unfold effects. cbn [trace]. rewrite drop_own_trace.
  repeat (split; [first [reflexivity | assumption]|]). exact Hexec.
Qed.

(** X11.  [/tts] and its body together: when [/tts] answers and the
    synthesizer has left the bytes [data] at the path of the response, a
    consumer that reads the body to its end receives chunks whose
    concatenation is [data], and after that the file is gone. *)
Theorem tts_body_delivers_file (text : str) (w : world) (resp : wav_response)
        (data : bytes) :
  fst (tts cfg rt text w) = Ok resp ->
  files (snd (tts cfg rt text w)) !! wav_path resp = Some data ->
  forall k, length (chunks_of 8192 data) < k ->
    exists chunks w',
      consume (wav_path resp) k (wav_state resp) (snd (tts cfg rt text w))
      = (Ok (chunks, WavDone), w')
      /\ concat chunks = data
      /\ files w' !! wav_path resp = None.
Proof.
  intros Hok Hfile k Hk.
  assert (Hstate : wav_state resp = WavNew).
  { revert Hok. rewrite tts_run.
    destruct (piper_ready cfg (files w)); [|discriminate].
    destruct (mkstemp_inner rt _ _ _) as [[e|wav] rest]; [discriminate|].
    cbv zeta. destruct (subprocess_exec rt _ _) as [e|code fs'];
      [destruct e; discriminate|].
    destruct (code =? 0)%Z; [|discriminate]. intros [= <-]. reflexivity. }
  rewrite Hstate. destruct k as [|k]; [lia|].
  rewrite (consume_new _ data k _ Hfile).
  rewrite (consume_open_all _ data (S k) 0 _ data Hfile) by (rewrite drop_0; exact Hk).
  rewrite drop_0. eexists _, _. split; [reflexivity|].
  split; [apply chunks_of_concat, wav_chunk_pos|].
  cbn [files]. apply lookup_delete_eq.
Qed.
End TtsMore.

Lemma tts_wraps_only_exit_status_witness :
  piper_ready cfg_piper (files world_piper) = true
  /\ mkstemp_inner (with_synth piper_missing) (names world_piper) (files world_piper)
                   (py ".wav")
     = (Ok (py "/tmp/tmpk3x9ab12.wav"), [py "q7w1zz00"])
  /\ fst (tts cfg_piper (with_synth piper_missing) (py "Good morning") world_piper)
     = Raise (FileNotFoundError (py "/usr/bin/piper"))
  /\ files (snd (tts cfg_piper (with_synth piper_missing) (py "Good morning")
                     world_piper))
     !! py "/tmp/tmpk3x9ab12.wav" = Some [].
Proof.
  assert (H1 : piper_ready cfg_piper (files world_piper) = true)
    by (vm_compute; reflexivity).
  assert (H2 : mkstemp_inner (with_synth piper_missing) (names world_piper)
                             (files world_piper) (py ".wav")
               = (Ok (py "/tmp/tmpk3x9ab12.wav"), [py "q7w1zz00"]))
    by (vm_compute; reflexivity).
  destruct (tts_wraps_only_exit_status cfg_piper (with_synth piper_missing)
              (py "Good morning") world_piper _ _ H1 H2) as [_ Hrun].
  cbn [subprocess_exec with_synth sample_rt piper_missing] in Hrun.
  destruct Hrun as [Hfile Hres].
  split; [exact H1|]. split; [exact H2|]. split; [exact Hres | exact Hfile].
Defined.

Example tts_exit_status_2 :
  fst (tts cfg_piper (with_synth piper_exits_2) (py "Good morning") world_piper)
  = Raise (HTTPException 500
             (py "Piper failed: Command '['/usr/bin/piper', '-m', "
              ++ py "'/voices/en_US.onnx', '-f', '/tmp/tmpk3x9ab12.wav', '-t', "
              ++ py "'Good morning']' returned non-zero exit status 2.")).
Proof. vm_compute. reflexivity. Qed.

Lemma tts_answer_witness :
  fst (tts cfg_piper (answering hello_reply) (py "Good morning") world_piper)
  = Ok {| wav_path := py "/tmp/tmpk3x9ab12.wav"; wav_state := WavNew;
          media_type := py "audio/wav" |}
  /\ effects world_piper
       (snd (tts cfg_piper (answering hello_reply) (py "Good morning") world_piper))
     = [MkTemp (py "/tmp/tmpk3x9ab12.wav");
        RunProcess [py "/usr/bin/piper"; py "-m"; voice_path; py "-f";
                    py "/tmp/tmpk3x9ab12.wav"; py "-t"; py "Good morning"]].
Proof.
  assert (H : fst (tts cfg_piper (answering hello_reply) (py "Good morning")
                       world_piper)
              = Ok {| wav_path := py "/tmp/tmpk3x9ab12.wav"; wav_state := WavNew;
                      media_type := py "audio/wav" |})
    by (vm_compute; reflexivity).
  split; [exact H|].
  destruct (tts_answer cfg_piper (answering hello_reply) _ world_piper _ H)
    as (_ & _ & _ & _ & _ & Heff & _).
  rewrite Heff. reflexivity.
Defined.

Lemma tts_body_delivers_file_witness :
  fst (tts cfg_piper (answering hello_reply) (py "Good morning") world_piper)
  = Ok {| wav_path := py "/tmp/tmpk3x9ab12.wav"; wav_state := WavNew;
          media_type := py "audio/wav" |}
  /\ files (snd (tts cfg_piper (answering hello_reply) (py "Good morning")
                     world_piper))
     !! py "/tmp/tmpk3x9ab12.wav" = Some [Byte.x52; Byte.x49; Byte.x46; Byte.x46]
  /\ exists chunks w',
       consume (py "/tmp/tmpk3x9ab12.wav") 2 WavNew
               (snd (tts cfg_piper (answering hello_reply) (py "Good morning")
                         world_piper))
       = (Ok (chunks, WavDone), w')
       /\ concat chunks = [Byte.x52; Byte.x49; Byte.x46; Byte.x46]
       /\ files w' !! py "/tmp/tmpk3x9ab12.wav" = None.
Proof.
  assert (H1 : fst (tts cfg_piper (answering hello_reply) (py "Good morning")
                        world_piper)
               = Ok {| wav_path := py "/tmp/tmpk3x9ab12.wav"; wav_state := WavNew;
                       media_type := py "audio/wav" |})
    by (vm_compute; reflexivity).
  assert (H2 : files (snd (tts cfg_piper (answering hello_reply) (py "Good morning")
                               world_piper))
               !! py "/tmp/tmpk3x9ab12.wav"
               = Some [Byte.x52; Byte.x49; Byte.x46; Byte.x46])
    by (vm_compute; reflexivity).
  split; [exact H1|]. split; [exact H2|].
  apply (tts_body_delivers_file cfg_piper (answering hello_reply) _ world_piper
           _ _ H1 H2 2).
  vm_compute. lia.
Defined.

(** ** An upload that cannot be staged *)

Section Staging.
Context (cfg : config) (rt : runtime).

(** X22.  When no temporary file can be created for the upload (the
    operating system refuses the name, which ends with the file name that
    the client chose, or no unused name is left), [/stt] and [/voice-chat]
    fail with that error of [tempfile]; nothing is staged or written, no
    engine is called, and nothing is unlinked. *)
Theorem unusable_name_ends_request (file : UploadFile) (model language : str)
        (w : world) (e : exn) (rest : list str) :
  mkstemp_inner rt (names w) (files w) (default [] (filename file))
  = (Raise e, rest) ->
  let w' := {| files := files w; names := rest; trace := trace w |} in
  stt rt file language w = (Raise e, w')
  /\ voice_chat cfg rt file model language w = (Raise e, w').
Proof.
  intros Hmk w'. subst w'. split.
  - unfold stt. rewrite bind_run, staging_run, Hmk. reflexivity.
  - rewrite (voice_chat_run cfg rt), Hmk. reflexivity.
Qed.
End Staging.

Lemma unusable_name_ends_request_witness :
  mkstemp_inner (answering hello_reply) (names world_piper) (files world_piper)
                (default [] (filename clip_in_directory))
  = (Raise (FileNotFoundError (py "/tmp/tmpk3x9ab12up/clip.webm")), [py "q7w1zz00"])
  /\ fst (stt (answering hello_reply) clip_in_directory (py "en") world_piper)
     = Raise (FileNotFoundError (py "/tmp/tmpk3x9ab12up/clip.webm"))
  /\ trace (snd (voice_chat cfg_piper (answering hello_reply) clip_in_directory
                    (py "default") (py "en") world_piper))
     = [].
Proof.
  assert (H : mkstemp_inner (answering hello_reply) (names world_piper)
                            (files world_piper)
                            (default [] (filename clip_in_directory))
              = (Raise (FileNotFoundError (py "/tmp/tmpk3x9ab12up/clip.webm")),
                 [py "q7w1zz00"])) by (vm_compute; reflexivity).
  destruct (unusable_name_ends_request cfg_piper (answering hello_reply)
              clip_in_directory (py "default") (py "en") world_piper _ _ H)
    as [Hstt Hvc].
  split; [exact H|]. split; [rewrite Hstt | rewrite Hvc]; reflexivity.
Defined.

(** ** The size and the alphabet of the encoded audio *)

Lemma b64_chars_in_alphabet :
  forallb (fun n => is_b64_byte (b64_char n)) (map N.of_nat (seq 0 64)) = true.
Proof. vm_compute. reflexivity. Qed.

Lemma b64_char_in_alphabet (n : N) : (n < 64)%N -> is_b64_byte (b64_char n) = true.
Proof.
  intros Hn. pose proof b64_chars_in_alphabet as Hall.
  rewrite forallb_forall in Hall. apply Hall.
  apply in_map_iff. exists (N.to_nat n). split; [apply N2Nat.id|].
  apply in_seq. lia.
Qed.

Lemma b64encode_alphabet (data : bytes) :
  forallb is_b64_byte (b64encode data) = true.
Proof.
  assert (H0 : (0 < 256)%N) by lia.
  induction data as [|x|x y|x y z rest IH] using list_triple_ind.
  - reflexivity.
  - destruct (sextets_small _ _ _ (to_N_small x) H0 H0) as (H1 & H2 & _).
    cbn [b64encode]. unfold b64_sextets. cbn [map take app forallb].
    rewrite (b64_char_in_alphabet _ H1), (b64_char_in_alphabet _ H2). reflexivity.
  - destruct (sextets_small _ _ _ (to_N_small x) (to_N_small y) H0) as (H1 & H2 & H3 & _).
    cbn [b64encode]. unfold b64_sextets. cbn [map take app forallb].
    rewrite (b64_char_in_alphabet _ H1), (b64_char_in_alphabet _ H2),
      (b64_char_in_alphabet _ H3). reflexivity.
  - destruct (sextets_small _ _ _ (to_N_small x) (to_N_small y) (to_N_small z))
      as (H1 & H2 & H3 & H4).
    cbn [b64encode]. unfold b64_sextets. cbn [map app forallb].
    rewrite (b64_char_in_alphabet _ H1), (b64_char_in_alphabet _ H2),
      (b64_char_in_alphabet _ H3), (b64_char_in_alphabet _ H4), IH. reflexivity.
Qed.

(** X16.  The encoding that [/voice-chat] applies to the audio: [n] bytes
    give 4 * ceil(n/3) characters, each a character of the base64 alphabet
    or the padding character, and two different byte sequences never give
    the same text. *)
Theorem b64encode_shape (data : bytes) :
  length (b64encode data) = 4 * ((length data + 2) / 3)
  /\ forallb is_b64_byte (b64encode data) = true
  /\ (forall data', b64encode data = b64encode data' -> data = data').
Proof.
  split; [apply b64encode_length|]. split; [apply b64encode_alphabet|].
  intros data' Heq.
  pose proof (b64decode_b64encode data) as H1.
  pose proof (b64decode_b64encode data') as H2.
  rewrite Heq in H1. congruence.
Qed.

(** ** The temporary files of [/voice-chat] *)

Section TempFiles.
Context (cfg : config) (rt : runtime).

(** X17.  In every run of [/voice-chat], failed or not, the files unlinked
    are files that this run created, in the order of their creation (none
    is skipped, nothing else is ever unlinked), and at most two files are
    created. *)
Theorem voice_chat_unlinks_only_its_own (file : UploadFile) (model language : str)
        (w : world) :
  let acts := effects w (snd (voice_chat cfg rt file model language w)) in
  unlinked acts `prefix_of` created acts /\ length (created acts) <= 2.
Proof.
  cbv zeta. rewrite (voice_chat_run cfg rt).
  destruct (mkstemp_inner rt (names w) _ _) as [[e|apath] rest];
    [cbn [snd]; unfold effects; cbn [trace]; rewrite drop_all;
     split; [exists []; reflexivity | cbn; lia]|].
  cbv zeta.
  destruct (whisper_transcribe rt apath _ language true) as [e|segments info];
    [|destruct (seg_failure segments) as [e|];
      [|destruct (completion_of _) as [e|reply];
        [|destruct (piper_ready cfg (files w));
          [destruct (mkstemp_inner rt rest (files w) (py ".wav")) as [[e|wav] rest'];
            [|destruct (subprocess_exec rt _ _) as [e|code fs'];
              [|destruct (code =? 0)%Z; [destruct (fs' !! wav)|]]]|]]]];
    cbn [snd]; unfold effects; cbn [trace]; rewrite drop_own_trace;
    cbn [app created unlinked omap list_omap]; (split; [|cbn [length]; lia]);
    first [ exists []; reflexivity
          | exists [apath]; reflexivity
          | exists [wav]; reflexivity
          | exists [apath; wav]; reflexivity ].
Qed.

(** X18.  When [/voice-chat] answers, it has created exactly two temporary
    files, one for the upload (under a name that was the name of no file
    before) and one for the synthesizer's output, it has unlinked both, and
    the second one is no longer in the file system. *)
Theorem voice_chat_answer_leaves_no_temp_file (file : UploadFile)
        (model language : str) (w : world) (resp : voice_chat_response) :
  fst (voice_chat cfg rt file model language w) = Ok resp ->
  let w' := snd (voice_chat cfg rt file model language w) in
  exists apath wav,
    created (effects w w') = [apath; wav]
    /\ unlinked (effects w w') = [apath; wav]
    /\ files w !! apath = None
    /\ files w' !! wav = None.
Proof.
  cbv zeta. rewrite (voice_chat_run cfg rt).
  destruct (mkstemp_inner rt (names w) _ _) as [[e|apath] rest] eqn:Hmk;
    [discriminate|].
  destruct (mkstemp_inner_fresh rt _ _ _ _ _ Hmk) as (Hfresh & _).
  cbv zeta.
  destruct (whisper_transcribe rt apath _ language true) as [e|segments info];
    [discriminate|].
  destruct (seg_failure segments) as [e|]; [discriminate|].
  destruct (completion_of _) as [e|reply]; [discriminate|].
  destruct (piper_ready cfg (files w)); [|discriminate].
  destruct (mkstemp_inner rt rest (files w) (py ".wav")) as [[e|wav] rest'];
    [discriminate|].
  destruct (subprocess_exec rt _ _) as [e|code fs']; [discriminate|].
  destruct (code =? 0)%Z; [|discriminate].
  destruct (fs' !! wav) as [data|]; [|discriminate].
  destruct (encodable reply && encodable _); [|discriminate].
  intros _. cbn [snd]. unfold effects. cbn [trace files].
  rewrite drop_own_trace. exists apath, wav.
  split; [reflexivity|]. split; [reflexivity|]. split; [exact Hfresh|].
  apply lookup_delete_eq.
Qed.
End TempFiles.

Lemma voice_chat_answer_leaves_no_temp_file_witness :
  fst (voice_chat cfg_piper (answering hello_reply) clip (py "default") (py "en")
         world_piper)
  = Ok {| vc_text := hello_reply; vc_mime := py "audio/wav";
          vc_audio_base64 := py "UklGRg=="; vc_prompt := py "Hello" |}
  /\ exists apath wav,
       unlinked (effects world_piper
                   (snd (voice_chat cfg_piper (answering hello_reply) clip
                           (py "default") (py "en") world_piper)))
       = [apath; wav].
Proof.
  assert (H : fst (voice_chat cfg_piper (answering hello_reply) clip (py "default")
                     (py "en") world_piper)
              = Ok {| vc_text := hello_reply; vc_mime := py "audio/wav";
                      vc_audio_base64 := py "UklGRg=="; vc_prompt := py "Hello" |})
    by (vm_compute; reflexivity).
  split; [exact H|].
  destruct (voice_chat_answer_leaves_no_temp_file cfg_piper (answering hello_reply)
              clip (py "default") (py "en") world_piper _ H)
    as (apath & wav & _ & Hun & _).
  exists apath, wav. exact Hun.
Defined.

(** ** [/health] against [/tts] *)

Section HealthAndTts.
Context (cfg : config) (rt : runtime).

(** X19.  What [/health] reports about the synthesizer is what [/tts] does
    right after it: reported not ready, [/tts] is rejected with status 501
    and does nothing; reported ready, [/tts] gets past that test, and once a
    name for the WAV file is chosen it runs the synthesizer. *)
Theorem health_report_predicts_tts (text : str) (w : world) (report : health_report) :
  fst (health cfg rt w) = Ok report ->
  let w1 := snd (health cfg rt w) in
  (piper_ok (piper report) = false ->
   tts cfg rt text w1 =
   (Raise (HTTPException 501
             (py "Piper TTS not configured. Set PIPER_BIN and PIPER_VOICE.")), w1))
  /\ (piper_ok (piper report) = true ->
      forall wav rest,
        mkstemp_inner rt (names w1) (files w1) (py ".wav") = (Ok wav, rest) ->
        effects w1 (snd (tts cfg rt text w1))
        = [MkTemp wav; RunProcess (piper_argv cfg wav text)]).
Proof.
  assert (Hrun : exists lm,
    health cfg rt w
    = (Ok {| mode := py "offline";
             lm_studio := {| lm_url := LMSTUDIO_URL cfg; lm_ok := fst lm;
                             lm_note := snd lm;
                             lm_default_model := LMSTUDIO_MODEL_DEFAULT cfg |};
             whisper := {| whisper_model := WHISPER_MODEL_NAME cfg;
                           whisper_compute := WHISPER_COMPUTE_TYPE cfg;
                           whisper_ok := true |};
             piper := {| piper_bin := default [] (PIPER_BIN cfg);
                         piper_voice := PIPER_VOICE cfg;
                         piper_ok := piper_ready cfg (files w) |} |},
       add_trace w [HttpGet (LMSTUDIO_URL cfg ++ py "/v1/models") 3])).
  { unfold health, try_except, get. rewrite !bind_run, log_run.
    destruct (httpx_get rt _ 3) as [e|st b].
    - unfold raise, ret. cbv beta iota.
      rewrite bind_run, piper_configured_ready. unfold ret. cbv beta iota.
      eexists (_, _). reflexivity.
    - unfold ret. cbv beta iota.
      rewrite bind_run, piper_configured_ready. unfold ret. cbv beta iota.
      eexists (_, _). reflexivity. }
  destruct Hrun as (lm & ->). cbn [fst snd]. intros [= <-]. cbv zeta.
  cbn [piper piper_ok]. set (w1 := add_trace w _).
  assert (Hf : files w1 = files w) by reflexivity.
  rewrite tts_run, Hf. split.
  - intros ->. reflexivity.
  - intros -> wav rest Hmk. rewrite Hmk. cbv zeta.
    destruct (subprocess_exec rt _ _) as [e|code fs'];
      cbn [snd]; unfold effects; cbn [trace]; apply drop_own_trace.
Qed.
End HealthAndTts.

Lemma health_report_predicts_tts_witness :
  (exists report, fst (health cfg_bare unreachable world_bare) = Ok report
                  /\ piper_ok (piper report) = false)
  /\ fst (tts cfg_bare unreachable (py "Hello")
            (snd (health cfg_bare unreachable world_bare)))
     = Raise (HTTPException 501
                (py "Piper TTS not configured. Set PIPER_BIN and PIPER_VOICE.")).
Proof.
  destruct (health cfg_bare unreachable world_bare) as [[e|report] w1] eqn:Hrun;
    [vm_compute in Hrun; discriminate|].
  assert (Hok : piper_ok (piper report) = false).
  { vm_compute in Hrun. injection Hrun as <- _. reflexivity. }
  pose proof (health_report_predicts_tts cfg_bare unreachable (py "Hello")
                world_bare report) as H.
  rewrite Hrun in H. cbn [fst snd] in H. cbn [fst snd].
  split; [exists report; split; [reflexivity | exact Hok]|].
  rewrite (proj1 (H eq_refl) Hok). reflexivity.
Defined.
